(** * Voice agent relay: turn taking, audio gating and prompt assembly

    A shallow embedding of the live-voice handlers of the repository:

    - [Cli]    the single-session command line relay
               ([runLiveVoice] in index.js, [runLiveVoiceWithContext] in
               final.js: same callbacks, same microphone handler);
    - [Server] the socket.io server of server.js: the two process-wide maps
               [agentSessions] and [activeVoiceSessions], the closures made by
               [createVoiceSession], and the socket handlers;
    - [Prompt] the two system-instruction templates.

    Handlers are functions from a state to a new state and the list of
    effects they perform, in program order.  What the environment decides
    (whether a call on the upstream session throws, whether [atob] accepts a
    payload) is an argument of the event or a section variable. *)

From Stdlib Require Import String Ascii List Bool Arith NArith Lia DecimalString.
From stdpp Require Import base option list strings gmap.
Import ListNotations.

Local Open Scope string_scope.
Local Open Scope list_scope.

(** ** Upstream messages

    The shape of the objects handed to [onmessage].  A field that may be
    absent is an [option]; [turnComplete] is read for truthiness only. *)

Module Msg.

Record InlineData := {
  data : option string;
  mimeType : option string
}.

Record Part := { inlineData : option InlineData }.

Record ModelTurn := { parts : option (list Part) }.

Record ServerContent := {
  modelTurn : option ModelTurn;
  turnComplete : bool
}.

Record UsageMetadata := { totalTokenCount : option nat }.

Record Message := {
  serverContent : option ServerContent;
  usageMetadata : option UsageMetadata
}.

(** JavaScript truthiness of a string-valued field: present and not empty. *)
Definition truthy (s : option string) : option string :=
  match s with
  | Some EmptyString => None
  | other => other
  end.

(** [message.serverContent?.modelTurn?.parts]: any array, also an empty
    one, is truthy. *)
Definition modelTurnParts (m : Message) : option (list Part) :=
  match serverContent m with
  | Some sc =>
      match modelTurn sc with
      | Some mt => parts mt
      | None => None
      end
  | None => None
  end.

(** [message.serverContent?.turnComplete] *)
Definition serverTurnComplete (m : Message) : bool :=
  match serverContent m with
  | Some sc => turnComplete sc
  | None => false
  end.

(** [part.inlineData?.data], when truthy. *)
Definition partData (p : Part) : option string :=
  match inlineData p with
  | Some d => truthy (data d)
  | None => None
  end.

(** [part.inlineData.mimeType || dflt] *)
Definition mimeTypeOr (d : InlineData) (dflt : string) : string :=
  match truthy (mimeType d) with
  | Some t => t
  | None => dflt
  end.

(** The branch of the [if / else if] chain of [onmessage] a message takes. *)
Inductive Branch :=
| AudioChunk (ps : list Part)
| TurnComplete
| UsageInfo (u : UsageMetadata)
| Ignored.

Definition dispatch (m : Message) : Branch :=
  match modelTurnParts m with
  | Some ps => AudioChunk ps
  | None =>
      if serverTurnComplete m then TurnComplete
      else match usageMetadata m with
           | Some u => UsageInfo u
           | None => Ignored
           end
  end.

Definition isAudioChunk (m : Message) : bool :=
  match dispatch m with AudioChunk _ => true | _ => false end.

Definition isTurnComplete (m : Message) : bool :=
  match dispatch m with TurnComplete => true | _ => false end.

(** The payloads of a message that reach the sink, in array order. *)
Definition chunks (m : Message) : list string :=
  match modelTurnParts m with
  | Some ps => omap partData ps
  | None => []
  end.

(** Builders for the messages the upstream sends. *)
Definition audioPart (d : string) (mt : option string) : Part :=
  {| inlineData := Some {| data := Some d; mimeType := mt |} |}.

Definition audioMessage (ps : list Part) : Message :=
  {| serverContent :=
       Some {| modelTurn := Some {| parts := Some ps |};
               turnComplete := false |};
     usageMetadata := None |}.

Definition turnCompleteMessage : Message :=
  {| serverContent := Some {| modelTurn := None; turnComplete := true |};
     usageMetadata := None |}.

Definition usageMessage (n : nat) : Message :=
  {| serverContent := None;
     usageMetadata := Some {| totalTokenCount := Some n |} |}.

End Msg.

(** The payload of [session.sendRealtimeInput]. *)
Inductive RealtimeInput :=
| Audio (data : string) (mimeType : string)
| AudioStreamEnd.

Definition MIC_SAMPLE_RATE : N := 16000%N.

(** Decimal rendering of a number inside a template literal. *)
Definition nat_to_string (n : nat) : string :=
  NilEmpty.string_of_uint (Nat.to_uint n).

Definition N_to_string (n : N) : string :=
  NilEmpty.string_of_uint (N.to_uint n).

(** [`audio/pcm;rate=${MIC_SAMPLE_RATE}`] *)
Definition micMimeType : string :=
  "audio/pcm;rate=" +:+ N_to_string MIC_SAMPLE_RATE.

(** ** The command line relay (index.js, final.js) *)

Module Cli.

Inductive Log :=
| LogSessionConnected
| LogMicrophoneStarted
| LogAISpeaking
| LogTurnComplete
| LogListening
| LogTokenUsage (totalTokenCount : option nat)
| LogSessionClosed (reason : string)
| LogCleaningUp.

Inductive ErrLog :=
| ErrSession (err : string)
| ErrSendingAudio
| ErrStoppingMic
| ErrClosingSpeaker
| ErrClosingSession.

Inductive Effect :=
| ConsoleLog (l : Log)
| ConsoleError (e : ErrLog)
| MicStart
| MicPause
| MicResume
| MicStop
| SpeakerWrite (base64 : string)
| SpeakerEnd
| SendRealtimeInput (i : RealtimeInput)
| SessionClose
| ProcessExit (code : nat)
| Throws (what : string).

(** The variables the callbacks close over.  [sessionBound] tells whether
    [const session = await ai.live.connect(...)] has completed, which is
    also when the microphone ['data'] handler is installed; [exited] is set
    by [process.exit]. *)
Record State := {
  isAIResponding : bool;
  isConnected : bool;
  sessionBound : bool;
  exited : bool
}.

Definition initial : State :=
  {| isAIResponding := false; isConnected := false;
     sessionBound := false; exited := false |}.

Definition setAIResponding (b : bool) (s : State) : State :=
  {| isAIResponding := b; isConnected := isConnected s;
     sessionBound := sessionBound s; exited := exited s |}.

Definition setConnected (b : bool) (s : State) : State :=
  {| isAIResponding := isAIResponding s; isConnected := b;
     sessionBound := sessionBound s; exited := exited s |}.

Definition setSessionBound (s : State) : State :=
  {| isAIResponding := isAIResponding s; isConnected := isConnected s;
     sessionBound := true; exited := exited s |}.

Definition setExited (s : State) : State :=
  {| isAIResponding := isAIResponding s; isConnected := isConnected s;
     sessionBound := sessionBound s; exited := true |}.

(** What the devices and the upstream session do during [cleanupAndExit]. *)
Record CleanupEnv := {
  micStopThrows : bool;
  speakerDestroyed : bool;
  speakerEndThrows : bool;
  sessionCloseThrows : bool
}.

Definition quietEnv : CleanupEnv :=
  {| micStopThrows := false; speakerDestroyed := false;
     speakerEndThrows := false; sessionCloseThrows := false |}.

Definition onopen (s : State) : State * list Effect :=
  (setConnected true s,
   [ConsoleLog LogSessionConnected; MicStart; ConsoleLog LogMicrophoneStarted]).

(** [parts.forEach]: one [speaker.write] for each part with a payload.
    A write is recorded by the base64 text of its part; what reaches the
    speaker is [Buffer.from(text, "base64")], whose length the text does
    not fix (it can hold no bytes at all). *)
Definition writeParts (ps : list Msg.Part) : list Effect :=
  SpeakerWrite <$> omap Msg.partData ps.

Definition onmessage (s : State) (m : Msg.Message) : State * list Effect :=
  match Msg.dispatch m with
  | Msg.AudioChunk ps =>
      if isAIResponding s
      then (s, writeParts ps)
      else (setAIResponding true s,
            [ConsoleLog LogAISpeaking; MicPause] ++ writeParts ps)
  | Msg.TurnComplete =>
      if isAIResponding s
      then (setAIResponding false s,
            [ConsoleLog LogTurnComplete; MicResume; ConsoleLog LogListening])
      else (s, [])
  | Msg.UsageInfo u => (s, [ConsoleLog (LogTokenUsage (Msg.totalTokenCount u))])
  | Msg.Ignored => (s, [])
  end.

(** [cleanupAndExit].  Reading [session] before the [await] of the connect
    has completed is a ReferenceError, raised after the two device blocks. *)
Definition cleanupAndExit (env : CleanupEnv) (s : State) : State * list Effect :=
  let mic :=
    MicStop :: (if micStopThrows env then [ConsoleError ErrStoppingMic] else []) in
  let spk :=
    if speakerDestroyed env then []
    else SpeakerEnd ::
         (if speakerEndThrows env then [ConsoleError ErrClosingSpeaker] else []) in
  if sessionBound s then
    let cls :=
      if isConnected s
      then SessionClose ::
           (if sessionCloseThrows env then [ConsoleError ErrClosingSession] else [])
      else [] in
    (setExited (setConnected false s),
     [ConsoleLog LogCleaningUp] ++ mic ++ spk ++ cls ++ [ProcessExit 0])
  else
    (s, [ConsoleLog LogCleaningUp] ++ mic ++ spk ++ [Throws "ReferenceError"]).

Definition onerror (env : CleanupEnv) (s : State) (err : string)
  : State * list Effect :=
  let '(s', effs) := cleanupAndExit env s in
  (s', ConsoleError (ErrSession err) :: effs).

(** [event?.reason || "No reason given"] *)
Definition closeReason (reason : option string) : string :=
  match Msg.truthy reason with
  | Some r => r
  | None => "No reason given"
  end.

Definition onclose (s : State) (reason : option string) : State * list Effect :=
  (setConnected false s, [ConsoleLog (LogSessionClosed (closeReason reason))]).

(** The microphone ['data'] handler; [chunk] stands for
    [chunk.toString("base64")]. *)
Definition onMicData (s : State) (chunk : string) (sendThrows : bool)
  : State * list Effect :=
  if isConnected s && negb (isAIResponding s)
  then (s, SendRealtimeInput (Audio chunk micMimeType) ::
           (if sendThrows then [ConsoleError ErrSendingAudio] else []))
  else (s, []).

Inductive Event :=
| ConnectResolved
| OnOpen
| OnMessage (m : Msg.Message)
| OnError (err : string) (env : CleanupEnv)
| OnClose (reason : option string)
| MicData (chunk : string) (sendThrows : bool).

(** One turn of the event loop.  Nothing runs after [process.exit]; the
    microphone handler exists once the connect has resolved. *)
Definition step (s : State) (e : Event) : State * list Effect :=
  if exited s then (s, [])
  else match e with
       | ConnectResolved => (setSessionBound s, [])
       | OnOpen => onopen s
       | OnMessage m => onmessage s m
       | OnError err env => onerror env s err
       | OnClose reason => onclose s reason
       | MicData chunk sendThrows =>
           if sessionBound s then onMicData s chunk sendThrows else (s, [])
       end.

Fixpoint run (s : State) (es : list Event) : State * list Effect :=
  match es with
  | [] => (s, [])
  | e :: es' =>
      let '(s1, out1) := step s e in
      let '(s2, out2) := run s1 es' in
      (s2, out1 ++ out2)
  end.

Definition isMute (e : Effect) : bool :=
  match e with MicPause => true | _ => false end.

Definition isUnmute (e : Effect) : bool :=
  match e with MicResume => true | _ => false end.

Definition isSend (e : Effect) : bool :=
  match e with SendRealtimeInput _ => true | _ => false end.

Definition played (out : list Effect) : list string :=
  omap (fun e => match e with SpeakerWrite d => Some d | _ => None end) out.

End Cli.

(** ** System instructions (server.js [generateSystemInstruction], final.js) *)

Module Prompt.

Record Document := { name : string; content : string }.

Record SessionData := { agentType : string; documents : list Document }.

Definition nl : string := String "010"%char EmptyString.

Definition dq : string := String "034"%char EmptyString.

(** [Array.prototype.join] *)
Fixpoint join (sep : string) (l : list string) : string :=
  match l with
  | [] => EmptyString
  | [x] => x
  | x :: rest => x +:+ sep +:+ join sep rest
  end.

(** The text of a template literal, given line by line. *)
Definition text (ls : list string) : string := join nl ls.

Definition documentFooter : string := "============================".

(** The template of the [map] callback of [generateSystemInstruction]. *)
Definition documentBlock (doc : Document) : string :=
  text [ EmptyString;
         "=== DOCUMENT: " +:+ name doc +:+ " ===";
         content doc;
         documentFooter;
         EmptyString ].

Definition documentContent (docs : list Document) : string :=
  join nl (documentBlock <$> docs).

Definition instructionHead : list string :=
  [ "# VOICE AGENT ASSISTANT";
    EmptyString;
    "## ROLE & IDENTITY";
    "You are a professional " ].

Definition instructionKnowledge : list string :=
  [ " voice assistant. You represent this organization with expertise, professionalism, and helpfulness. Your primary goal is to assist callers efficiently while maintaining a warm, professional demeanor.";
    EmptyString;
    "## KNOWLEDGE BASE";
    "You have access to comprehensive company information through " ].

Definition instructionLibrary : list string :=
  [ " uploaded documents. Always reference specific information from these documents when answering questions.";
    EmptyString;
    "## DOCUMENT LIBRARY:";
    EmptyString ].

Definition instructionGuidelines : list string :=
  [ EmptyString;
    EmptyString;
    "## CONVERSATION GUIDELINES";
    EmptyString;
    "### Communication Style:";
    "- **Professional & Conversational**: Maintain business professionalism while being approachable and natural";
    "- **Concise & Complete**: Provide thorough answers without unnecessary verbosity  ";
    "- **Reference-Based**: Always cite specific information from the documents when applicable";
    "- **Proactive**: Anticipate needs and offer relevant additional assistance";
    EmptyString;
    "### Response Framework:";
    "1. **Acknowledge** the request clearly";
    "2. **Reference specific information** from the uploaded documents ";
    "3. **Provide complete, actionable answers**";
    "4. **Offer additional relevant assistance**";
    EmptyString;
    "### When Referencing Documents:";
    "- Say " +:+ dq +:+ "According to our [document name/policy/directory]..." +:+ dq;
    "- Quote specific information like names, numbers, procedures";
    "- Reference exact details like phone extensions, hours, policies";
    "- Cross-reference multiple documents when relevant";
    EmptyString;
    "### For Information You Don't Have:";
    "- " +:+ dq +:+ "I don't have that specific information in my current knowledge base" +:+ dq;
    "- " +:+ dq +:+ "Let me connect you with [relevant person/department] who can help with that" +:+ dq;
    "- " +:+ dq +:+ "I'd be happy to take your contact information so someone can follow up" +:+ dq;
    EmptyString;
    "### For Complex Requests:";
    "- Break down multi-step processes clearly";
    "- Provide step-by-step guidance when needed";
    "- Confirm understanding before proceeding";
    "- Offer to walk through processes slowly";
    EmptyString;
    "### Voice-Optimized Responses:";
    "- Use natural speech patterns and pausing";
    "- Spell out important information when needed";
    "- Confirm understanding of complex details";
    "- Ask clarifying questions when requests are unclear";
    EmptyString;
    "## QUALITY STANDARDS";
    "- **Accuracy First**: Only provide information you can verify from the documents";
    "- **Source Attribution**: Reference specific documents or sections when providing information  ";
    "- **Professional Boundaries**: Know when to escalate or transfer calls";
    "- **Follow-up Excellence**: Always ask if there's anything else you can help with";
    EmptyString;
    "Remember: You are the voice of this organization. Every interaction should leave callers feeling valued, informed, and satisfied with the service they received." ].

Definition generateSystemInstruction (sessionData : SessionData) : string :=
  text instructionHead +:+ agentType sessionData +:+
  text instructionKnowledge +:+ nat_to_string (length (documents sessionData)) +:+
  text instructionLibrary +:+ documentContent (documents sessionData) +:+
  text instructionGuidelines.

(** final.js: the template of the [map] callback and the instruction. *)
Definition contextBlock (doc : Document) : string :=
  text [ EmptyString; name doc +:+ ":"; content doc; EmptyString ].

Definition contextInstruction (ctx : SessionData) : string :=
  text [ "You are a " ] +:+ agentType ctx +:+
  text [ " voice assistant. Your responses should be conversational, yet concise.";
         EmptyString;
         "You have access to the following documents and information:";
         EmptyString ] +:+
  join nl (contextBlock <$> documents ctx) +:+
  text [ EmptyString;
         EmptyString;
         "Use this information to provide accurate, helpful responses. Always refer to the specific information in your documents when relevant." ].

End Prompt.

(** ** The socket.io server (server.js) *)

Module Server.

Import Prompt.

(** Events emitted to a client socket. *)
Inductive ClientEvent :=
| EvError (message : string)
| EvVoiceSessionStarted
| EvVoiceConnected
| EvAiSpeakingStart
| EvAudioResponse (audioData mimeType : string)
| EvAiSpeakingEnd
| EvTokenUsage (totalTokens : option nat)
| EvVoiceError (message : string)
| EvVoiceDisconnected.

Inductive Log :=
| LogReceivedAudio (present : bool) (len : nat)
| LogSendingAudio
| LogNotReady (hasSession : bool) (connected responding : option bool)
| LogClientDisconnected (socket : string)
| LogInstructionGenerated (agentType : string) (documentCount instructionLength : nat)
| LogVoiceConnected (socket : string)
| LogAudioChunk (base64Length : nat) (mimeType : string) (binarySize : nat)
| LogVoiceClosed (reason : string).

Inductive ErrLog :=
| ErrStarting (message : string)
| ErrSendingAudio
| ErrStopping
| ErrCleaningUp
| ErrVoiceSession (message : string).

(** [h] names the upstream session a call is made on. *)
Inductive Effect :=
| SocketEmit (socket : string) (ev : ClientEvent)
| ConsoleLog (l : Log)
| ConsoleError (e : ErrLog)
| LiveConnect (h : nat) (systemInstruction : string)
| SendRealtimeInput (h : nat) (i : RealtimeInput)
| SessionClose (h : nat)
| Throws (what : string).

(** The variables one call of [createVoiceSession] closes over.  The object
    it returns reads them through getters, so the registry entry and the
    callbacks share them.  [awaited] is true while the caller is still
    waiting for [ai.live.connect]. *)
Record VoiceSession := {
  socketId : string;
  isAIResponding : bool;
  isConnected : bool;
  awaited : bool
}.

Definition setAIResponding (b : bool) (v : VoiceSession) : VoiceSession :=
  {| socketId := socketId v; isAIResponding := b;
     isConnected := isConnected v; awaited := awaited v |}.

Definition setConnected (b : bool) (v : VoiceSession) : VoiceSession :=
  {| socketId := socketId v; isAIResponding := isAIResponding v;
     isConnected := b; awaited := awaited v |}.

Definition setAwaited (b : bool) (v : VoiceSession) : VoiceSession :=
  {| socketId := socketId v; isAIResponding := isAIResponding v;
     isConnected := isConnected v; awaited := b |}.

(** [let isAIResponding = false; let isConnected = false;] *)
Definition newVoiceSession (socket : string) : VoiceSession :=
  {| socketId := socket; isAIResponding := false;
     isConnected := false; awaited := true |}.

(** The process: the two global maps and the closures created so far, the
    n-th call of [createVoiceSession] owning entry n of [closures]. *)
Record World := {
  agentSessions : gmap string SessionData;
  activeVoiceSessions : gmap string nat;
  closures : list VoiceSession
}.

Definition emptyWorld : World :=
  {| agentSessions := ∅; activeVoiceSessions := ∅; closures := [] |}.

Definition withAgentSessions (m : gmap string SessionData) (w : World) : World :=
  {| agentSessions := m; activeVoiceSessions := activeVoiceSessions w;
     closures := closures w |}.

Definition withActive (m : gmap string nat) (w : World) : World :=
  {| agentSessions := agentSessions w; activeVoiceSessions := m;
     closures := closures w |}.

Definition withClosures (l : list VoiceSession) (w : World) : World :=
  {| agentSessions := agentSessions w;
     activeVoiceSessions := activeVoiceSessions w; closures := l |}.

(** [activeVoiceSessions.get(socket.id)] with the closure it reads. *)
Definition voiceSessionOf (w : World) (socket : string)
  : option (nat * VoiceSession) :=
  h ← activeVoiceSessions w !! socket;
  v ← closures w !! h;
  Some (h, v).

Section Callbacks.

(** The platform's [atob]: [None] when it raises on the payload. *)
Variable atob : string -> option string.

Definition onopen (v : VoiceSession) : VoiceSession * list Effect :=
  (setConnected true v,
   [ConsoleLog (LogVoiceConnected (socketId v));
    SocketEmit (socketId v) EvVoiceConnected]).

(** [parts.forEach]: the [console.log] evaluates [atob(audioData)] before
    the emit, so a payload [atob] refuses ends the loop with its exception. *)
Fixpoint emitParts (socket : string) (ps : list Msg.Part) : list Effect :=
  match ps with
  | [] => []
  | p :: rest =>
      match Msg.inlineData p with
      | Some d =>
          match Msg.truthy (Msg.data d) with
          | Some audioData =>
              match atob audioData with
              | Some binary =>
                  ConsoleLog (LogAudioChunk (String.length audioData)
                                (Msg.mimeTypeOr d "unknown")
                                (String.length binary))
                  :: SocketEmit socket
                       (EvAudioResponse audioData (Msg.mimeTypeOr d "audio/pcm"))
                  :: emitParts socket rest
              | None => [Throws "InvalidCharacterError"]
              end
          | None => emitParts socket rest
          end
      | None => emitParts socket rest
      end
  end.

Definition onmessage (v : VoiceSession) (m : Msg.Message)
  : VoiceSession * list Effect :=
  match Msg.dispatch m with
  | Msg.AudioChunk ps =>
      if isAIResponding v
      then (v, emitParts (socketId v) ps)
      else (setAIResponding true v,
            SocketEmit (socketId v) EvAiSpeakingStart :: emitParts (socketId v) ps)
  | Msg.TurnComplete =>
      if isAIResponding v
      then (setAIResponding false v, [SocketEmit (socketId v) EvAiSpeakingEnd])
      else (v, [])
  | Msg.UsageInfo u =>
      (v, [SocketEmit (socketId v) (EvTokenUsage (Msg.totalTokenCount u))])
  | Msg.Ignored => (v, [])
  end.

Definition onerror (v : VoiceSession) (message : string)
  : VoiceSession * list Effect :=
  (v, [ConsoleError (ErrVoiceSession message);
       SocketEmit (socketId v) (EvVoiceError message)]).

Definition onclose (v : VoiceSession) (reason : option string)
  : VoiceSession * list Effect :=
  (setConnected false v,
   [ConsoleLog (LogVoiceClosed (Cli.closeReason reason));
    SocketEmit (socketId v) EvVoiceDisconnected]).

(** Callbacks of one upstream session. *)
Inductive Callback :=
| Open
| Message (m : Msg.Message)
| Error (message : string)
| Close (reason : option string).

Definition callback (v : VoiceSession) (c : Callback)
  : VoiceSession * list Effect :=
  match c with
  | Open => onopen v
  | Message m => onmessage v m
  | Error message => onerror v message
  | Close reason => onclose v reason
  end.

(** Everything the process reacts to. *)
Inductive Event :=
| PostDocuments (sessionId : string) (docs : list Document)
| PostAgentType (sessionId : string) (agentType : string)
| StartVoiceSession (socket sessionId : string)
| ConnectResolved (h : nat)
| ConnectRejected (h : nat) (message : string)
| Upstream (h : nat) (c : Callback)
| AudioData (socket : string) (audioData : string) (sendThrows : bool)
| StopVoiceSession (socket : string) (sendThrows closeThrows : bool)
| Disconnect (socket : string) (closeThrows : bool).

(** [if (!agentSessions.has(sessionId)) agentSessions.set(sessionId, {...})]
    followed by [agentSessions.get(sessionId)]. *)
Definition sessionOrNew (w : World) (sessionId : string) : SessionData :=
  default {| agentType := EmptyString; documents := [] |}
          (agentSessions w !! sessionId).

Definition postDocuments (w : World) (sessionId : string) (docs : list Document)
  : World :=
  let s := sessionOrNew w sessionId in
  withAgentSessions
    (<[sessionId := {| agentType := agentType s; documents := docs |}]>
       (agentSessions w)) w.

Definition postAgentType (w : World) (sessionId : string) (ty : string) : World :=
  let s := sessionOrNew w sessionId in
  withAgentSessions
    (<[sessionId := {| agentType := ty; documents := documents s |}]>
       (agentSessions w)) w.

(** [createVoiceSession] up to its [await]: the instruction is built, the
    connect is issued with the callbacks of a fresh closure. *)
Definition createVoiceSession (w : World) (sessionData : SessionData)
  (socket : string) : World * list Effect :=
  let systemInstruction := generateSystemInstruction sessionData in
  let h := length (closures w) in
  (withClosures (closures w ++ [newVoiceSession socket]) w,
   [ConsoleLog (LogInstructionGenerated (agentType sessionData)
                  (length (documents sessionData))
                  (String.length systemInstruction));
    LiveConnect h systemInstruction]).

(** The ['start-voice-session'] handler up to the [await]. *)
Definition startVoiceSession (w : World) (socket sessionId : string)
  : World * list Effect :=
  match agentSessions w !! sessionId with
  | None => (w, [SocketEmit socket (EvError "Session not found")])
  | Some session => createVoiceSession w session socket
  end.

(** The rest of the handler once the connect has resolved:
    [activeVoiceSessions.set(socket.id, voiceSession)] and the emit. *)
Definition connectResolved (w : World) (h : nat) : World * list Effect :=
  match closures w !! h with
  | Some v =>
      if awaited v then
        (withActive (<[socketId v := h]> (activeVoiceSessions w))
           (withClosures (<[h := setAwaited false v]> (closures w)) w),
         [SocketEmit (socketId v) EvVoiceSessionStarted])
      else (w, [])
  | None => (w, [])
  end.

(** The [catch] of the handler when the connect rejects. *)
Definition connectRejected (w : World) (h : nat) (message : string)
  : World * list Effect :=
  match closures w !! h with
  | Some v =>
      if awaited v then
        (withClosures (<[h := setAwaited false v]> (closures w)) w,
         [ConsoleError (ErrStarting message);
          SocketEmit (socketId v) (EvError message)])
      else (w, [])
  | None => (w, [])
  end.

Definition upstream (w : World) (h : nat) (c : Callback) : World * list Effect :=
  match closures w !! h with
  | Some v =>
      let '(v', out) := callback v c in
      (withClosures (<[h := v']> (closures w)) w, out)
  | None => (w, [])
  end.

(** The ['audio-data'] handler. *)
Definition onAudioData (w : World) (socket audioData : string) (sendThrows : bool)
  : World * list Effect :=
  let received :=
    ConsoleLog (LogReceivedAudio (bool_decide (audioData <> EmptyString))
                  (String.length audioData)) in
  match voiceSessionOf w socket with
  | Some (h, v) =>
      if isConnected v && negb (isAIResponding v) then
        (w, [received; ConsoleLog LogSendingAudio;
             SendRealtimeInput h (Audio audioData micMimeType)]
            ++ (if sendThrows
                then [ConsoleError ErrSendingAudio;
                      SocketEmit socket (EvError "Error processing audio")]
                else []))
      else
        (w, [received;
             ConsoleLog (LogNotReady true (Some (isConnected v))
                           (Some (isAIResponding v)))])
  | None => (w, [received; ConsoleLog (LogNotReady false None None)])
  end.

(** The ['stop-voice-session'] handler. *)
Definition onStopVoiceSession (w : World) (socket : string)
  (sendThrows closeThrows : bool) : World * list Effect :=
  match voiceSessionOf w socket with
  | Some (h, v) =>
      (withActive (delete socket (activeVoiceSessions w)) w,
       if isConnected v then
         SendRealtimeInput h AudioStreamEnd ::
         (if sendThrows then [ConsoleError ErrStopping]
          else SessionClose h ::
               (if closeThrows then [ConsoleError ErrStopping] else []))
       else [])
  | None => (w, [])
  end.

(** The ['disconnect'] handler. *)
Definition onDisconnect (w : World) (socket : string) (closeThrows : bool)
  : World * list Effect :=
  match voiceSessionOf w socket with
  | Some (h, v) =>
      (withActive (delete socket (activeVoiceSessions w)) w,
       ConsoleLog (LogClientDisconnected socket) ::
       (if isConnected v then
          SessionClose h ::
          (if closeThrows then [ConsoleError ErrCleaningUp] else [])
        else []))
  | None => (w, [ConsoleLog (LogClientDisconnected socket)])
  end.

Definition step (w : World) (e : Event) : World * list Effect :=
  match e with
  | PostDocuments sessionId docs => (postDocuments w sessionId docs, [])
  | PostAgentType sessionId ty => (postAgentType w sessionId ty, [])
  | StartVoiceSession socket sessionId => startVoiceSession w socket sessionId
  | ConnectResolved h => connectResolved w h
  | ConnectRejected h message => connectRejected w h message
  | Upstream h c => upstream w h c
  | AudioData socket audioData sendThrows =>
      onAudioData w socket audioData sendThrows
  | StopVoiceSession socket sendThrows closeThrows =>
      onStopVoiceSession w socket sendThrows closeThrows
  | Disconnect socket closeThrows => onDisconnect w socket closeThrows
  end.

Fixpoint run (w : World) (es : list Event) : World * list Effect :=
  match es with
  | [] => (w, [])
  | e :: es' =>
      let '(w1, out1) := step w e in
      let '(w2, out2) := run w1 es' in
      (w2, out1 ++ out2)
  end.

(** The callbacks of one closure, folded over what its upstream delivers. *)
Fixpoint deliver (v : VoiceSession) (cs : list Callback)
  : VoiceSession * list Effect :=
  match cs with
  | [] => (v, [])
  | c :: cs' =>
      let '(v1, out1) := callback v c in
      let '(v2, out2) := deliver v1 cs' in
      (v2, out1 ++ out2)
  end.

End Callbacks.

Definition isMute (e : Effect) : bool :=
  match e with SocketEmit _ EvAiSpeakingStart => true | _ => false end.

Definition isUnmute (e : Effect) : bool :=
  match e with SocketEmit _ EvAiSpeakingEnd => true | _ => false end.

Definition isSend (e : Effect) : bool :=
  match e with SendRealtimeInput _ _ => true | _ => false end.

Definition isThrow (e : Effect) : bool :=
  match e with Throws _ => true | _ => false end.

(** The payloads sent to a client as ['audio-response'], oldest first. *)
Definition emitted (out : list Effect) : list string :=
  omap (fun e => match e with
                 | SocketEmit _ (EvAudioResponse d _) => Some d
                 | _ => None
                 end) out.

(** A stand-in for [atob] that accepts every payload, for worked examples. *)
Definition atobLenient (s : string) : option string := Some s.

End Server.

(** * Properties *)

(** ** Words of the specification *)

(** An audio chunk has been handled and no turn-complete after it. *)
Definition audioSinceTurnComplete (ms : list Msg.Message) : Prop :=
  exists pre m post,
    ms = pre ++ m :: post /\
    Msg.isAudioChunk m = true /\
    Forall (fun x => Msg.isTurnComplete x = false) post.

(** The messages among the callbacks of one upstream session. *)
Definition serverMessages (cs : list Server.Callback) : list Msg.Message :=
  omap (fun c => match c with Server.Message m => Some m | _ => None end) cs.

(** The messages the process hands to the callbacks of the upstream
    session [h]. *)
Definition messagesTo (h : nat) (es : list Server.Event) : list Msg.Message :=
  omap (fun e => match e with
                 | Server.Upstream h' (Server.Message m) =>
                     if Nat.eqb h' h then Some m else None
                 | _ => None
                 end) es.

(** The messages among the events of the command line relay. *)
Definition cliMessages (es : list Cli.Event) : list Msg.Message :=
  omap (fun e => match e with Cli.OnMessage m => Some m | _ => None end) es.

(** The turn flag after one message, as both [onmessage] handlers set it. *)
Definition turnAfter (responding : bool) (m : Msg.Message) : bool :=
  match Msg.dispatch m with
  | Msg.AudioChunk _ => true
  | Msg.TurnComplete => false
  | _ => responding
  end.

(** [atob] takes every payload of the list. *)
Definition accepts (atob : string -> option string) (ds : list string) : Prop :=
  Forall (fun d => is_Some (atob d)) ds.

Definition serverIsClose (e : Server.Effect) : bool :=
  match e with Server.SessionClose _ => true | _ => false end.

(** The flags of the closure behind handle [h]. *)
Definition respondingAt (w : Server.World) (h : nat) : option bool :=
  Server.isAIResponding <$> Server.closures w !! h.

Definition connectedAt (w : Server.World) (h : nat) : option bool :=
  Server.isConnected <$> Server.closures w !! h.

Definition serverIsErrorReport (e : Server.Effect) : bool :=
  match e with
  | Server.SocketEmit _ (Server.EvError _) => true
  | Server.ConsoleError _ => true
  | _ => false
  end.

(** [needle] occurs in [hay] as it is. *)
Definition occursIn (needle hay : string) : Prop :=
  exists pre post, hay = pre +:+ needle +:+ post.

(** The blocks of the documents that come before a given one, each
    followed by the separator of [join], and of those that come after it,
    each preceded by the separator. *)
Definition blocksBefore (block : Prompt.Document -> string)
  (ds : list Prompt.Document) : string :=
  fold_right (fun d acc => block d +:+ Prompt.nl +:+ acc) EmptyString ds.

Definition blocksAfter (block : Prompt.Document -> string)
  (ds : list Prompt.Document) : string :=
  fold_right (fun d acc => Prompt.nl +:+ block d +:+ acc) EmptyString ds.

Definition isNewline (c : ascii) : bool := Ascii.eqb c "010"%char.

Fixpoint noNewline (s : string) : bool :=
  match s with
  | EmptyString => true
  | String c s' => negb (isNewline c) && noNewline s'
  end.

(** The lines of a text: what lies between its line breaks. *)
Fixpoint lines (s : string) : list string :=
  match s with
  | EmptyString => [EmptyString]
  | String c s' =>
      if isNewline c then EmptyString :: lines s'
      else match lines s' with
           | l :: ls => String c l :: ls
           | [] => [String c EmptyString]
           end
  end.

Definition isDigit (c : ascii) : bool :=
  Nat.leb 48 (nat_of_ascii c) && Nat.leb (nat_of_ascii c) 57.

Fixpoint allDigits (s : string) : bool :=
  match s with
  | EmptyString => true
  | String c s' => isDigit c && allDigits s'
  end.

(** Every name and every content on one line, as the terminal delivers
    them to final.js. *)
Definition singleLines (ds : list Prompt.Document) : Prop :=
  Forall (fun d => noNewline (Prompt.name d) = true /\
                   noNewline (Prompt.content d) = true) ds.

(** Every name on one line, and no content with a line equal to the line
    that closes a block. *)
Definition wellDelimited (closing : string) (ds : list Prompt.Document) : Prop :=
  Forall (fun d => noNewline (Prompt.name d) = true /\
                   ~ In closing (lines (Prompt.content d))) ds.

(** The documents can be read back from the built string. *)
Definition documentsRecoverable (build : Prompt.SessionData -> string) : Prop :=
  forall c1 c2, build c1 = build c2 -> Prompt.documents c1 = Prompt.documents c2.

(** ** Worked inputs *)

Definition helloChunk : Msg.Message :=
  Msg.audioMessage [Msg.audioPart "aGVsbG8=" (Some "audio/pcm;rate=24000")].

Definition chunkA : Msg.Message :=
  Msg.audioMessage [Msg.audioPart "QUFB" (Some "audio/pcm;rate=24000")].

Definition chunkB : Msg.Message :=
  Msg.audioMessage [Msg.audioPart "QkJC" None].

Definition respondingSession : Server.VoiceSession :=
  {| Server.socketId := "client-1"; Server.isAIResponding := true;
     Server.isConnected := true; Server.awaited := false |}.

Definition idleSession : Server.VoiceSession :=
  {| Server.socketId := "client-1"; Server.isAIResponding := false;
     Server.isConnected := true; Server.awaited := false |}.

Definition respondingCli : Cli.State :=
  {| Cli.isAIResponding := true; Cli.isConnected := true;
     Cli.sessionBound := true; Cli.exited := false |}.

Definition idleCli : Cli.State :=
  {| Cli.isAIResponding := false; Cli.isConnected := true;
     Cli.sessionBound := true; Cli.exited := false |}.

Definition officeHours : Prompt.Document :=
  {| Prompt.name := "Office hours"; Prompt.content := "Mon-Fri 9 to 5" |}.

Definition priceList : Prompt.Document :=
  {| Prompt.name := "Price list"; Prompt.content := "Cleaning: 80" |}.

(** One client, its voice session connected and idle. *)
Definition connectedWorld : Server.World :=
  fst (Server.run Server.atobLenient Server.emptyWorld
         [Server.PostAgentType "s1" "dental office";
          Server.PostDocuments "s1" [officeHours; priceList];
          Server.StartVoiceSession "client-1" "s1";
          Server.Upstream 0 Server.Open;
          Server.ConnectResolved 0]).

(** The same after the first audio chunk of a reply. *)
Definition respondingWorld : Server.World :=
  fst (Server.step Server.atobLenient connectedWorld
         (Server.Upstream 0 (Server.Message chunkA))).

(** Two contexts for the server: in the first, the content of the first
    document ends with a rule line and a header line of its own. *)
Definition quotingContext : Prompt.SessionData :=
  {| Prompt.agentType := "records";
     Prompt.documents :=
       [ {| Prompt.name := "a";
            Prompt.content :=
              Prompt.text [ "x"; Prompt.documentFooter; EmptyString; EmptyString;
                            "=== DOCUMENT: c ==="; "z" ] |};
         {| Prompt.name := "b"; Prompt.content := "y" |} ] |}.

Definition quotedContext : Prompt.SessionData :=
  {| Prompt.agentType := "records";
     Prompt.documents :=
       [ {| Prompt.name := "a"; Prompt.content := "x" |};
         {| Prompt.name := "c";
            Prompt.content :=
              Prompt.text [ "z"; Prompt.documentFooter; EmptyString; EmptyString;
                            "=== DOCUMENT: b ==="; "y" ] |} ] |}.

Definition dentalContext : Prompt.SessionData :=
  {| Prompt.agentType := "dental office";
     Prompt.documents := [officeHours; priceList] |}.


(** * Further parts of the programs *)

(** ** The session routes of server.js

    [POST /api/documents], [POST /api/agent-type] and
    [GET /api/session/:sessionId], with what they answer.  The two posts
    change [agentSessions] as [Server.postDocuments] and
    [Server.postAgentType] do. *)

Module Http.

Inductive Response :=
| Success (message : string)
| SessionFound (session : Prompt.SessionData)
| Status404 (error : string).

Definition postDocuments (w : Server.World) (sessionId : string)
  (docs : list Prompt.Document) : Server.World * Response :=
  (Server.postDocuments w sessionId docs, Success "Documents stored successfully").

Definition postAgentType (w : Server.World) (sessionId agentType : string)
  : Server.World * Response :=
  (Server.postAgentType w sessionId agentType, Success "Agent type updated").

Definition getSession (w : Server.World) (sessionId : string) : Response :=
  match Server.agentSessions w !! sessionId with
  | Some session => SessionFound session
  | None => Status404 "Session not found"
  end.

End Http.

(** ** The interrupt handler of index.js and final.js

    [process.on("SIGINT", async () => ...)] is installed after the connect
    has resolved.  It sends the end of the audio stream when the session
    is connected, then runs [cleanupAndExit].  When that send throws, the
    [async] function ends there with a rejected promise and the clean-up
    is not reached.  Nothing in the program handles that rejection (the
    handler has no [catch], and there is no ['unhandledRejection'] or
    ['uncaughtException'] listener), so the runtime ends the process with
    exit code 1: [ProcessExit 1] after the exception stands for that end,
    and nothing runs after it. *)

Module Shutdown.

Definition onSigint (env : Cli.CleanupEnv) (sendThrows : bool) (s : Cli.State)
  : Cli.State * list Cli.Effect :=
  if Cli.isConnected s then
    if sendThrows
    then (Cli.setExited s,
          [Cli.SendRealtimeInput AudioStreamEnd; Cli.Throws "rejected";
           Cli.ProcessExit 1])
    else let '(s', out) := Cli.cleanupAndExit env s in
         (s', Cli.SendRealtimeInput AudioStreamEnd :: out)
  else Cli.cleanupAndExit env s.

(** The events of the relay with the runs of the interrupt handler among
    them.  The handler exists once the connect has resolved, and nothing
    runs after [process.exit]. *)
Inductive Event :=
| Relay (e : Cli.Event)
| Sigint (sendThrows : bool) (env : Cli.CleanupEnv).

Definition step (s : Cli.State) (e : Event) : Cli.State * list Cli.Effect :=
  match e with
  | Relay e' => Cli.step s e'
  | Sigint sendThrows env =>
      if Cli.exited s then (s, [])
      else if Cli.sessionBound s then onSigint env sendThrows s
      else (s, [])
  end.

Fixpoint run (s : Cli.State) (es : list Event) : Cli.State * list Cli.Effect :=
  match es with
  | [] => (s, [])
  | e :: es' =>
      let '(s1, out1) := step s e in
      let '(s2, out2) := run s1 es' in
      (s2, out1 ++ out2)
  end.

End Shutdown.

(** ** Collecting the documents in final.js

    [collectDocuments] asks for a document, then for its name, until the
    answer to the first question is DONE.  The answers typed at the
    terminal are given as a list, in the order they are read; the outcome
    is the content of [agentContext.documents] and whether the promise has
    been resolved. *)

Module Collect.

Inductive Effect :=
| LogIntroduction
| AskDocument (docCount : nat)
| AskName
| LogAdded (name : string).

Section Answers.

(** [input.trim().toUpperCase() === "DONE"] *)
Variable isDone : string -> bool.

(** [name || `Document ${docCount}`] *)
Definition nameOr (name : string) (docCount : nat) : string :=
  match name with
  | EmptyString => "Document " +:+ nat_to_string docCount
  | _ => name
  end.

Fixpoint getNextDocument (docCount : nat) (answers : list string)
  (documents : list Prompt.Document)
  : list Prompt.Document * bool * list Effect :=
  match answers with
  | [] => (documents, false, [AskDocument docCount])
  | input :: rest =>
      if isDone input then (documents, true, [AskDocument docCount])
      else
        match rest with
        | [] => (documents, false, [AskDocument docCount; AskName])
        | name :: rest' =>
            let doc := {| Prompt.name := nameOr name docCount;
                          Prompt.content := input |} in
            let '(docs, resolved, out) :=
              getNextDocument (S docCount) rest' (documents ++ [doc]) in
            (docs, resolved,
             [AskDocument docCount; AskName; LogAdded (nameOr name docCount)]
             ++ out)
        end
  end.

(** [let docCount = 1; ... getNextDocument();] on the global
    [agentContext.documents]. *)
Definition collectDocuments (answers : list string)
  (documents : list Prompt.Document)
  : list Prompt.Document * bool * list Effect :=
  let '(docs, resolved, out) := getNextDocument 1 answers documents in
  (docs, resolved, LogIntroduction :: out).

End Answers.

End Collect.

(** ** Words for the further properties *)

(** A call on the upstream session [h]. *)
Definition callsUpstream (h : nat) (e : Server.Effect) : bool :=
  match e with
  | Server.SendRealtimeInput h' _ => Nat.eqb h' h
  | Server.SessionClose h' => Nat.eqb h' h
  | _ => false
  end.

(** Any call on any upstream session, or a new connect. *)
Definition isUpstreamCall (e : Server.Effect) : bool :=
  match e with
  | Server.SendRealtimeInput _ _ => true
  | Server.SessionClose _ => true
  | Server.LiveConnect _ _ => true
  | _ => false
  end.

(** An effect of a callback that concerns a client other than [socket]. *)
Definition emitsElsewhere (socket : string) (e : Server.Effect) : bool :=
  match e with
  | Server.SocketEmit s _ => negb (String.eqb s socket)
  | _ => false
  end.

(** Every registered connection id leads to a closure made for that
    connection, whose connect has resolved. *)
Definition registryConsistent (w : Server.World) : Prop :=
  forall socket h,
    Server.activeVoiceSessions w !! socket = Some h ->
    exists v, Server.closures w !! h = Some v /\
              Server.socketId v = socket /\ Server.awaited v = false.

(** No connection id leads to the session [h] any more, and its connect
    has been answered. *)
Definition unregistered (h : nat) (w : Server.World) : Prop :=
  (forall socket, Server.activeVoiceSessions w !! socket <> Some h) /\
  exists v, Server.closures w !! h = Some v /\ Server.awaited v = false.

Definition isEndOfInput (e : Server.Effect) : bool :=
  match e with
  | Server.SendRealtimeInput _ AudioStreamEnd => true
  | _ => false
  end.

(** The event is the open callback of the upstream session [h]. *)
Definition opens (h : nat) (e : Server.Event) : bool :=
  match e with
  | Server.Upstream h' Server.Open => Nat.eqb h' h
  | _ => false
  end.

(** An ['audio-response'] whose [audioData] text is empty or whose
    [mimeType] is empty. *)
Definition emptyAudioResponse (e : Server.Effect) : bool :=
  match e with
  | Server.SocketEmit _ (Server.EvAudioResponse d t) =>
      String.eqb d EmptyString || String.eqb t EmptyString
  | _ => false
  end.

Definition isTokenUsage (e : Server.Effect) : bool :=
  match e with
  | Server.SocketEmit _ (Server.EvTokenUsage _) => true
  | _ => false
  end.

Definition cliIsTokenUsage (e : Cli.Effect) : bool :=
  match e with
  | Cli.ConsoleLog (Cli.LogTokenUsage _) => true
  | _ => false
  end.

(** A message that takes the usage branch of [onmessage]. *)
Definition isUsageOnly (m : Msg.Message) : bool :=
  match Msg.dispatch m with Msg.UsageInfo _ => true | _ => false end.

(** A call on the upstream session of the command line relay. *)
Definition cliCallsUpstream (e : Cli.Effect) : bool :=
  match e with
  | Cli.SendRealtimeInput _ => true
  | Cli.SessionClose => true
  | _ => false
  end.

Definition cliIsClose (e : Cli.Effect) : bool :=
  match e with Cli.SessionClose => true | _ => false end.

Definition cliIsMicStop (e : Cli.Effect) : bool :=
  match e with Cli.MicStop => true | _ => false end.

Definition cliIsMicStart (e : Cli.Effect) : bool :=
  match e with Cli.MicStart => true | _ => false end.

Definition cliIsExit (e : Cli.Effect) : bool :=
  match e with Cli.ProcessExit _ => true | _ => false end.

Definition cliIsOpen (e : Cli.Event) : bool :=
  match e with Cli.OnOpen => true | _ => false end.

(** The answers typed for a list of documents, each a content and a
    name, and the documents they make when counting starts at [from]. *)
Definition answersOf (ps : list (string * string)) : list string :=
  flat_map (fun p => [fst p; snd p]) ps.

Fixpoint documentsFrom (from : nat) (ps : list (string * string))
  : list Prompt.Document :=
  match ps with
  | [] => []
  | (content, name) :: ps' =>
      {| Prompt.name := Collect.nameOr name from; Prompt.content := content |}
      :: documentsFrom (S from) ps'
  end.

(** Further worked inputs. *)
Definition twoClients : Server.World :=
  fst (Server.run Server.atobLenient connectedWorld
         [Server.PostAgentType "s2" "bakery";
          Server.StartVoiceSession "client-2" "s2";
          Server.Upstream 1 Server.Open;
          Server.ConnectResolved 1]).

Definition busyMessage : Msg.Message :=
  {| Msg.serverContent :=
       Some {| Msg.modelTurn :=
                 Some {| Msg.parts := Some [Msg.audioPart "QUFB" None] |};
               Msg.turnComplete := true |};
     Msg.usageMetadata := Some {| Msg.totalTokenCount := Some 42 |} |}.

(** A stand-in for [atob] that refuses one payload, and a message that
    carries it between two others. *)
Definition atobRefusing (s : string) : option string :=
  if String.eqb s "%%" then None else Some s.

Definition threeParts : Msg.Message :=
  Msg.audioMessage [Msg.audioPart "QUFB" None; Msg.audioPart "%%" None;
                    Msg.audioPart "QkJC" None].

(** A stand-in for the test of the word DONE, for worked examples. *)
Definition isDoneExactly (input : string) : bool := String.eqb input "DONE".

(** ** The turn flag *)

Lemma turnAfter_fold_snoc b ms m :
  fold_left turnAfter (ms ++ [m]) b = turnAfter (fold_left turnAfter ms b) m.
Proof. now rewrite fold_left_app. Qed.

Lemma dispatch_audio m :
  Msg.isAudioChunk m = true -> exists ps, Msg.dispatch m = Msg.AudioChunk ps.
Proof.
  unfold Msg.isAudioChunk. destruct (Msg.dispatch m); try discriminate. eauto.
Qed.

Lemma dispatch_turn_complete m :
  Msg.isTurnComplete m = true -> Msg.dispatch m = Msg.TurnComplete.
Proof.
  unfold Msg.isTurnComplete. now destruct (Msg.dispatch m).
Qed.

(** A message that is neither an audio chunk nor a turn-complete changes
    neither side of the characterisation. *)
Lemma other_message_keeps_condition ms m b :
  Msg.isTurnComplete m = false -> Msg.isAudioChunk m = false ->
  (audioSinceTurnComplete ms \/
   (b = true /\ Forall (fun x => Msg.isTurnComplete x = false) ms))
  <->
  ((exists pre m' post,
       ms ++ [m] = pre ++ m' :: post /\
       Msg.isAudioChunk m' = true /\
       Forall (fun x => Msg.isTurnComplete x = false) post) \/
   (b = true /\ Forall (fun x => Msg.isTurnComplete x = false) (ms ++ [m]))).
Proof.
  intros T A. split.
  - intros [(pre & m' & post & E & A' & F) | [-> F]].
    + left. exists pre, m', (post ++ [m]). subst ms.
      rewrite <- app_assoc. repeat split; auto.
      apply Forall_app. split; auto.
    + right. split; auto. apply Forall_app. split; auto.
  - intros [(pre & m' & post & E & A' & F) | [-> F]].
    + destruct post as [|p post _] using rev_ind.
      * apply app_inj_tail in E as [_ <-]. congruence.
      * rewrite app_comm_cons, app_assoc in E.
        apply app_inj_tail in E as [-> <-].
        apply Forall_app in F as [F _].
        left. exists pre, m', post. auto.
    + apply Forall_app in F as [F _]. auto.
Qed.

(** What the fold of [turnAfter] computes: the flag is set exactly when an
    audio chunk came after the last turn-complete, or it was set at the
    start and no turn-complete came at all. *)
Lemma turnAfter_fold_spec ms b :
  fold_left turnAfter ms b = true <->
  audioSinceTurnComplete ms \/
  (b = true /\ Forall (fun x => Msg.isTurnComplete x = false) ms).
Proof.
  induction ms as [|m ms IH] using rev_ind.
  - simpl. split.
    + intros ->. right. split; [reflexivity | constructor].
    + intros [(pre & m & post & E & _) | [-> _]]; [|reflexivity].
      destruct pre; discriminate.
  - rewrite turnAfter_fold_snoc. unfold turnAfter at 1.
    unfold audioSinceTurnComplete.
    assert (T : Msg.isTurnComplete m =
                match Msg.dispatch m with Msg.TurnComplete => true | _ => false end)
      by reflexivity.
    assert (A : Msg.isAudioChunk m =
                match Msg.dispatch m with Msg.AudioChunk _ => true | _ => false end)
      by reflexivity.
    destruct (Msg.dispatch m) as [ps| | |] eqn:D;
      [ (* an audio chunk sets the flag *)
        split; [intros _ | reflexivity];
        left; exists ms, m, []; repeat split; [assumption | constructor]
      | (* a turn-complete clears it *)
        split; [discriminate |];
        intros [(pre & m' & post & E & A' & F) | [_ F]];
        [ destruct post as [|p post _] using rev_ind;
          [ apply app_inj_tail in E as [_ <-]; congruence
          | rewrite app_comm_cons, app_assoc in E;
            apply app_inj_tail in E as [_ <-];
            apply Forall_app in F as [_ F]; inversion F; congruence ]
        | apply Forall_app in F as [_ F]; inversion F; congruence ]
      | (* anything else leaves it *)
        rewrite IH; apply other_message_keeps_condition; assumption .. ].
Qed.

Lemma server_onmessage_flag atob v m :
  Server.isAIResponding (fst (Server.onmessage atob v m)) =
  turnAfter (Server.isAIResponding v) m.
Proof.
  unfold Server.onmessage, turnAfter.
  destruct (Msg.dispatch m); destruct (Server.isAIResponding v) eqn:E; simpl; auto.
Qed.

Lemma server_callback_flag atob v c :
  Server.isAIResponding (fst (Server.callback atob v c)) =
  match c with
  | Server.Message m => turnAfter (Server.isAIResponding v) m
  | _ => Server.isAIResponding v
  end.
Proof. destruct c; simpl; auto using server_onmessage_flag. Qed.

Lemma server_deliver_flag atob cs : forall v,
  Server.isAIResponding (fst (Server.deliver atob v cs)) =
  fold_left turnAfter (serverMessages cs) (Server.isAIResponding v).
Proof.
  induction cs as [|c cs IH]; intros v; simpl; [reflexivity|].
  pose proof (server_callback_flag atob v c) as Hc.
  destruct (Server.callback atob v c) as [v1 o1]. simpl in Hc.
  specialize (IH v1). destruct (Server.deliver atob v1 cs) as [v2 o2].
  simpl in *. rewrite IH, Hc. unfold serverMessages.
  destruct c; simpl; reflexivity.
Qed.

Lemma cli_onmessage_flag s m :
  Cli.isAIResponding (fst (Cli.onmessage s m)) =
  turnAfter (Cli.isAIResponding s) m.
Proof.
  unfold Cli.onmessage, turnAfter.
  destruct (Msg.dispatch m); destruct (Cli.isAIResponding s) eqn:E; simpl; auto.
Qed.

Lemma cli_cleanup_flag env s :
  Cli.isAIResponding (fst (Cli.cleanupAndExit env s)) = Cli.isAIResponding s.
Proof. unfold Cli.cleanupAndExit. now destruct (Cli.sessionBound s). Qed.

Lemma cli_onerror_flag env s err :
  Cli.isAIResponding (fst (Cli.onerror env s err)) = Cli.isAIResponding s.
Proof.
  unfold Cli.onerror. pose proof (cli_cleanup_flag env s).
  now destruct (Cli.cleanupAndExit env s).
Qed.

(** [process.exit] is final. *)
Lemma cli_step_exited s e :
  Cli.exited s = true -> Cli.step s e = (s, []).
Proof. unfold Cli.step. now intros ->. Qed.

Lemma cli_run_exited es : forall s,
  Cli.exited s = true -> Cli.run s es = (s, []).
Proof.
  induction es as [|e es IH]; intros s Hx; simpl; [reflexivity|].
  rewrite cli_step_exited by assumption. now rewrite IH.
Qed.

Lemma cli_step_flag s e :
  Cli.exited (fst (Cli.step s e)) = false ->
  Cli.isAIResponding (fst (Cli.step s e)) =
  match e with
  | Cli.OnMessage m => turnAfter (Cli.isAIResponding s) m
  | _ => Cli.isAIResponding s
  end.
Proof.
  unfold Cli.step. destruct (Cli.exited s) eqn:X.
  - simpl. congruence.
  - intros _. destruct e; simpl; auto using cli_onmessage_flag, cli_onerror_flag.
    + destruct (Cli.sessionBound s); [|reflexivity].
      unfold Cli.onMicData.
      now destruct (Cli.isConnected s && negb (Cli.isAIResponding s)).
Qed.

Lemma cli_run_flag es : forall s,
  Cli.exited (fst (Cli.run s es)) = false ->
  Cli.isAIResponding (fst (Cli.run s es)) =
  fold_left turnAfter (cliMessages es) (Cli.isAIResponding s).
Proof.
  induction es as [|e es IH]; intros s; simpl; [reflexivity|].
  pose proof (cli_step_flag s e) as Hs.
  destruct (Cli.step s e) as [s1 o1] eqn:S1. simpl in Hs.
  specialize (IH s1).
  destruct (Cli.exited s1) eqn:X1.
  - rewrite (cli_run_exited es s1 X1). simpl. congruence.
  - destruct (Cli.run s1 es) as [s2 o2]. simpl in *. intros X2.
    rewrite (IH X2), (Hs eq_refl). unfold cliMessages.
    destruct e; simpl; reflexivity.
Qed.

(** In the whole process, only a message of its own upstream session
    touches the flag of a closure. *)
Lemma server_step_flag atob w e h v :
  Server.closures w !! h = Some v ->
  respondingAt (fst (Server.step atob w e)) h =
  Some match e with
       | Server.Upstream h' (Server.Message m) =>
           if Nat.eqb h' h then turnAfter (Server.isAIResponding v) m
           else Server.isAIResponding v
       | _ => Server.isAIResponding v
       end.
Proof.
  intros L. unfold respondingAt.
  assert (Hlt : h < length (Server.closures w)) by (eapply lookup_lt_Some; eauto).
  destruct e as [sid docs|sid ty|sock sid|h'|h' msg|h' c|sock d thr|sock st ct|sock ct];
    cbn [Server.step].
  - cbn. now rewrite L.
  - cbn. now rewrite L.
  - unfold Server.startVoiceSession.
    destruct (Server.agentSessions w !! sid); cbn; [|now rewrite L].
    now rewrite lookup_app_l, L by assumption.
  - unfold Server.connectResolved.
    destruct (Server.closures w !! h') as [v'|] eqn:L'; [|cbn; now rewrite L].
    destruct (Server.awaited v'); cbn; [|now rewrite L].
    destruct (Nat.eq_dec h' h) as [->|Hne].
    + rewrite list_lookup_insert_eq by assumption. cbn. congruence.
    + now rewrite list_lookup_insert_ne, L by assumption.
  - unfold Server.connectRejected.
    destruct (Server.closures w !! h') as [v'|] eqn:L'; [|cbn; now rewrite L].
    destruct (Server.awaited v'); cbn; [|now rewrite L].
    destruct (Nat.eq_dec h' h) as [->|Hne].
    + rewrite list_lookup_insert_eq by assumption. cbn. congruence.
    + now rewrite list_lookup_insert_ne, L by assumption.
  - unfold Server.upstream.
    destruct (Nat.eq_dec h' h) as [->|Hne].
    + rewrite L. pose proof (server_callback_flag atob v c) as Hc.
      destruct (Server.callback atob v c) as [v1 o1]. cbn in *.
      rewrite list_lookup_insert_eq by assumption. cbn. rewrite Hc.
      destruct c; rewrite ?Nat.eqb_refl; reflexivity.
    + apply Nat.eqb_neq in Hne as Hb.
      assert (R : respondingAt
                    (fst match Server.closures w !! h' with
                         | Some v0 =>
                             let '(v', out) := Server.callback atob v0 c in
                             (Server.withClosures
                                (<[h':=v']> (Server.closures w)) w, out)
                         | None => (w, [])
                         end) h = Some (Server.isAIResponding v)).
      { unfold respondingAt.
        destruct (Server.closures w !! h') as [v0|]; [|cbn; now rewrite L].
        destruct (Server.callback atob v0 c). cbn.
        now rewrite list_lookup_insert_ne, L by assumption. }
      unfold respondingAt in R. rewrite R.
      destruct c; rewrite ?Hb; reflexivity.
  - unfold Server.onAudioData.
    destruct (Server.voiceSessionOf w sock) as [[h0 v0]|]; [|cbn; now rewrite L].
    destruct (Server.isConnected v0 && negb (Server.isAIResponding v0));
      cbn; now rewrite L.
  - unfold Server.onStopVoiceSession.
    destruct (Server.voiceSessionOf w sock) as [[h0 v0]|]; cbn; now rewrite L.
  - unfold Server.onDisconnect.
    destruct (Server.voiceSessionOf w sock) as [[h0 v0]|]; cbn; now rewrite L.
Qed.

Lemma server_run_flag atob es : forall w h v,
  Server.closures w !! h = Some v ->
  respondingAt (fst (Server.run atob w es)) h =
  Some (fold_left turnAfter (messagesTo h es) (Server.isAIResponding v)).
Proof.
  induction es as [|e es IH]; intros w h v L.
  - cbn. unfold respondingAt. now rewrite L.
  - cbn [Server.run]. pose proof (server_step_flag atob w e h v L) as Hs.
    destruct (Server.step atob w e) as [w1 o1]. cbn [fst] in Hs.
    unfold respondingAt in Hs.
    destruct (Server.closures w1 !! h) as [v1|] eqn:L1; [|discriminate].
    cbn in Hs. injection Hs as Hs.
    specialize (IH w1 h v1 L1).
    destruct (Server.run atob w1 es) as [w2 o2]. cbn [fst] in *.
    rewrite IH, Hs. f_equal. unfold messagesTo.
    destruct e as [| | | | |h' [|m| |]| | |]; cbn [omap list_omap]; try reflexivity.
    destruct (Nat.eqb h' h); reflexivity.
Qed.

(** C1.  The turn flag [isAIResponding] of a session is set if and only
    if a message with [serverContent.modelTurn.parts] was handled after the
    last message that took the turn-complete branch, or after the start of
    the session when there is none.  For the server this is shown for
    every sequence of callbacks of one upstream session (open, messages,
    errors, close) from the closure made by [createVoiceSession], and again
    inside the whole process: from the ['start-voice-session'] that makes
    the session, over every sequence of events of all clients and upstream
    sessions.  For the command line relay it is shown over every sequence
    of events that has not ended the process.  The flag is written by
    [onmessage] only, so there is no other point of reset. *)
Theorem ai_responding_iff_audio_since_turn_complete :
  (forall atob socket cs,
      Server.isAIResponding
        (fst (Server.deliver atob (Server.newVoiceSession socket) cs)) = true
      <-> audioSinceTurnComplete (serverMessages cs)) /\
  (forall atob w socket sessionId sessionData es,
      Server.agentSessions w !! sessionId = Some sessionData ->
      let h := length (Server.closures w) in
      respondingAt
        (fst (Server.run atob w
                (Server.StartVoiceSession socket sessionId :: es))) h
      = Some true
      <-> audioSinceTurnComplete (messagesTo h es)) /\
  (forall es,
      Cli.exited (fst (Cli.run Cli.initial es)) = false ->
      Cli.isAIResponding (fst (Cli.run Cli.initial es)) = true
      <-> audioSinceTurnComplete (cliMessages es)).
Proof.
  split; [|split].
  - intros atob socket cs. rewrite server_deliver_flag, turnAfter_fold_spec.
    simpl. intuition discriminate.
  - intros atob w socket sessionId sessionData es S h.
    cbn [Server.run Server.step]. unfold Server.startVoiceSession.
    rewrite S. unfold Server.createVoiceSession. fold h.
    set (w1 := Server.withClosures _ w).
    assert (L : Server.closures w1 !! h = Some (Server.newVoiceSession socket)).
    { subst w1 h. cbn. rewrite lookup_app_r by lia.
      now rewrite Nat.sub_diag. }
    pose proof (server_run_flag atob es w1 h _ L) as R.
    destruct (Server.run atob w1 es) as [w2 o2]. cbn [fst] in *.
    rewrite R. cbn [Server.isAIResponding Server.newVoiceSession].
    split.
    + intros [= H]. apply turnAfter_fold_spec in H. intuition discriminate.
    + intros H. f_equal. apply turnAfter_fold_spec. now left.
  - intros es X. rewrite (cli_run_flag es _ X), turnAfter_fold_spec.
    simpl. intuition discriminate.
Qed.

Lemma ai_responding_iff_audio_since_turn_complete_witness :
  Server.agentSessions connectedWorld !! "s1" = Some dentalContext /\
  (respondingAt
     (fst (Server.run Server.atobLenient connectedWorld
             [Server.StartVoiceSession "client-2" "s1";
              Server.Upstream 1 Server.Open;
              Server.ConnectResolved 1;
              Server.Upstream 1 (Server.Message chunkA);
              Server.Upstream 0 (Server.Message Msg.turnCompleteMessage)])) 1
   = Some true
   <-> audioSinceTurnComplete
         (messagesTo 1
            [Server.Upstream 1 Server.Open;
             Server.ConnectResolved 1;
             Server.Upstream 1 (Server.Message chunkA);
             Server.Upstream 0 (Server.Message Msg.turnCompleteMessage)])) /\
  Cli.exited
    (fst (Cli.run Cli.initial
            [Cli.ConnectResolved; Cli.OnOpen; Cli.OnMessage helloChunk])) = false /\
  (Cli.isAIResponding
     (fst (Cli.run Cli.initial
             [Cli.ConnectResolved; Cli.OnOpen; Cli.OnMessage helloChunk])) = true
   <-> audioSinceTurnComplete
         (cliMessages [Cli.ConnectResolved; Cli.OnOpen; Cli.OnMessage helloChunk])).
Proof.
  pose proof ai_responding_iff_audio_since_turn_complete as (_ & W & C).
  assert (S : Server.agentSessions connectedWorld !! "s1" = Some dentalContext)
    by (vm_compute; reflexivity).
  exact (conj S
           (conj (W Server.atobLenient connectedWorld "client-2" "s1"
                    dentalContext _ S)
              (conj eq_refl
                 (C [Cli.ConnectResolved; Cli.OnOpen; Cli.OnMessage helloChunk]
                    eq_refl)))).
Defined.

(** ** Mute and unmute effects *)

Lemma server_emitParts_signals atob socket ps :
  List.filter Server.isMute (Server.emitParts atob socket ps) = [] /\
  List.filter Server.isUnmute (Server.emitParts atob socket ps) = [].
Proof.
  induction ps as [|p ps [IHm IHu]]; simpl; [auto|].
  destruct (Msg.inlineData p) as [d|]; [|auto].
  destruct (Msg.truthy (Msg.data d)) as [a|]; [|auto].
  destruct (atob a); simpl; auto.
Qed.

Lemma cli_writeParts_signals ps :
  List.filter Cli.isMute (Cli.writeParts ps) = [] /\
  List.filter Cli.isUnmute (Cli.writeParts ps) = [].
Proof.
  unfold Cli.writeParts.
  induction (omap Msg.partData ps) as [|d l [IHm IHu]]; simpl; auto.
Qed.

(** Mutes minus unmutes is the change of the flag: each signal goes with
    one change of state. *)
Lemma server_callback_signals atob v c :
  length (List.filter Server.isMute (snd (Server.callback atob v c)))
  + Nat.b2n (Server.isAIResponding v)
  = length (List.filter Server.isUnmute (snd (Server.callback atob v c)))
    + Nat.b2n (Server.isAIResponding (fst (Server.callback atob v c))).
Proof.
  destruct c as [|m| |]; simpl; try reflexivity.
  unfold Server.onmessage.
  destruct (Msg.dispatch m) as [ps| | |];
    destruct (Server.isAIResponding v) eqn:E; simpl; rewrite ?E; try reflexivity;
    destruct (server_emitParts_signals atob (Server.socketId v) ps) as [Hm Hu];
    rewrite ?Hm, ?Hu; reflexivity.
Qed.

Lemma server_deliver_signals atob cs : forall v,
  length (List.filter Server.isMute (snd (Server.deliver atob v cs)))
  + Nat.b2n (Server.isAIResponding v)
  = length (List.filter Server.isUnmute (snd (Server.deliver atob v cs)))
    + Nat.b2n (Server.isAIResponding (fst (Server.deliver atob v cs))).
Proof.
  induction cs as [|c cs IH]; intros v; simpl; [reflexivity|].
  pose proof (server_callback_signals atob v c) as Hc.
  destruct (Server.callback atob v c) as [v1 o1].
  specialize (IH v1). destruct (Server.deliver atob v1 cs) as [v2 o2].
  simpl in *. rewrite !List.filter_app, !List.length_app. lia.
Qed.

Lemma cli_cleanup_signals env s :
  List.filter Cli.isMute (snd (Cli.cleanupAndExit env s)) = [] /\
  List.filter Cli.isUnmute (snd (Cli.cleanupAndExit env s)) = [].
Proof.
  unfold Cli.cleanupAndExit.
  destruct env as [[] [] [] []], (Cli.sessionBound s), (Cli.isConnected s);
    simpl; auto.
Qed.

Lemma cli_step_signals s e :
  length (List.filter Cli.isMute (snd (Cli.step s e)))
  + Nat.b2n (Cli.isAIResponding s)
  = length (List.filter Cli.isUnmute (snd (Cli.step s e)))
    + Nat.b2n (Cli.isAIResponding (fst (Cli.step s e))).
Proof.
  unfold Cli.step. destruct (Cli.exited s); [reflexivity|].
  destruct e as [| |m|err env|reason|chunk thr]; simpl; try reflexivity.
  - unfold Cli.onmessage.
    destruct (Msg.dispatch m) as [ps| | |];
      destruct (Cli.isAIResponding s) eqn:E; simpl; rewrite ?E; try reflexivity;
      destruct (cli_writeParts_signals ps) as [Hm Hu];
      rewrite ?Hm, ?Hu; reflexivity.
  - unfold Cli.onerror.
    pose proof (cli_cleanup_signals env s) as [Hm Hu].
    pose proof (cli_cleanup_flag env s) as Hf.
    destruct (Cli.cleanupAndExit env s) as [s' out]. simpl in *.
    now rewrite Hm, Hu, Hf.
  - destruct (Cli.sessionBound s); [|reflexivity].
    unfold Cli.onMicData.
    destruct (Cli.isConnected s && negb (Cli.isAIResponding s)), thr; reflexivity.
Qed.

Lemma cli_run_signals es : forall s,
  length (List.filter Cli.isMute (snd (Cli.run s es)))
  + Nat.b2n (Cli.isAIResponding s)
  = length (List.filter Cli.isUnmute (snd (Cli.run s es)))
    + Nat.b2n (Cli.isAIResponding (fst (Cli.run s es))).
Proof.
  induction es as [|e es IH]; intros s; simpl; [reflexivity|].
  pose proof (cli_step_signals s e) as Hs.
  destruct (Cli.step s e) as [s1 o1].
  specialize (IH s1). destruct (Cli.run s1 es) as [s2 o2].
  simpl in *. rewrite !List.filter_app, !List.length_app. lia.
Qed.

(** A further audio chunk while the flag is set sends no mute signal. *)
Lemma server_audio_while_responding atob v m :
  Msg.isAudioChunk m = true -> Server.isAIResponding v = true ->
  fst (Server.onmessage atob v m) = v /\
  List.filter Server.isMute (snd (Server.onmessage atob v m)) = [].
Proof.
  intros A R. apply dispatch_audio in A as [ps D].
  unfold Server.onmessage. rewrite D, R. simpl.
  split; [reflexivity | apply server_emitParts_signals].
Qed.

Lemma cli_audio_while_responding s m :
  Msg.isAudioChunk m = true -> Cli.isAIResponding s = true ->
  fst (Cli.onmessage s m) = s /\
  List.filter Cli.isMute (snd (Cli.onmessage s m)) = [].
Proof.
  intros A R. apply dispatch_audio in A as [ps D].
  unfold Cli.onmessage. rewrite D, R. simpl.
  split; [reflexivity | apply cli_writeParts_signals].
Qed.

(** A turn-complete while the flag is clear does nothing at all. *)
Lemma server_turn_complete_while_idle atob v m :
  Msg.isTurnComplete m = true -> Server.isAIResponding v = false ->
  Server.onmessage atob v m = (v, []).
Proof.
  intros T I. apply dispatch_turn_complete in T.
  unfold Server.onmessage. now rewrite T, I.
Qed.

Lemma cli_turn_complete_while_idle s m :
  Msg.isTurnComplete m = true -> Cli.isAIResponding s = false ->
  Cli.onmessage s m = (s, []).
Proof.
  intros T I. apply dispatch_turn_complete in T.
  unfold Cli.onmessage. now rewrite T, I.
Qed.

(** The first audio chunk of a turn sets the flag and sends one mute
    signal, before anything else, and no unmute signal. *)
Lemma server_audio_while_idle atob v m :
  Msg.isAudioChunk m = true -> Server.isAIResponding v = false ->
  fst (Server.onmessage atob v m) = Server.setAIResponding true v /\
  exists rest,
    snd (Server.onmessage atob v m)
    = Server.SocketEmit (Server.socketId v) Server.EvAiSpeakingStart :: rest /\
    List.filter Server.isMute rest = [] /\
    List.filter Server.isUnmute rest = [].
Proof.
  intros A I. apply dispatch_audio in A as [ps D].
  unfold Server.onmessage. rewrite D, I. cbn [fst snd].
  split; [reflexivity|].
  exists (Server.emitParts atob (Server.socketId v) ps).
  split; [reflexivity | apply server_emitParts_signals].
Qed.

Lemma cli_audio_while_idle s m :
  Msg.isAudioChunk m = true -> Cli.isAIResponding s = false ->
  fst (Cli.onmessage s m) = Cli.setAIResponding true s /\
  exists rest,
    snd (Cli.onmessage s m)
    = Cli.ConsoleLog Cli.LogAISpeaking :: Cli.MicPause :: rest /\
    List.filter Cli.isMute rest = [] /\
    List.filter Cli.isUnmute rest = [].
Proof.
  intros A I. apply dispatch_audio in A as [ps D].
  unfold Cli.onmessage. rewrite D, I. cbn [fst snd].
  split; [reflexivity|].
  exists (Cli.writeParts ps).
  split; [reflexivity | apply cli_writeParts_signals].
Qed.

(** The turn-complete that ends a turn clears the flag and sends the one
    unmute signal. *)
Lemma server_turn_complete_while_responding atob v m :
  Msg.isTurnComplete m = true -> Server.isAIResponding v = true ->
  Server.onmessage atob v m
  = (Server.setAIResponding false v,
     [Server.SocketEmit (Server.socketId v) Server.EvAiSpeakingEnd]).
Proof.
  intros T R. apply dispatch_turn_complete in T.
  unfold Server.onmessage. now rewrite T, R.
Qed.

Lemma cli_turn_complete_while_responding s m :
  Msg.isTurnComplete m = true -> Cli.isAIResponding s = true ->
  Cli.onmessage s m
  = (Cli.setAIResponding false s,
     [Cli.ConsoleLog Cli.LogTurnComplete; Cli.MicResume;
      Cli.ConsoleLog Cli.LogListening]).
Proof.
  intros T R. apply dispatch_turn_complete in T.
  unfold Cli.onmessage. now rewrite T, R.
Qed.

(** Signal by signal: a callback sends one mute signal when it sets the
    flag and none otherwise, one unmute signal when it clears the flag and
    none otherwise. *)
Lemma server_callback_signal_counts atob v c :
  length (List.filter Server.isMute (snd (Server.callback atob v c)))
  = Nat.b2n (negb (Server.isAIResponding v)
             && Server.isAIResponding (fst (Server.callback atob v c))) /\
  length (List.filter Server.isUnmute (snd (Server.callback atob v c)))
  = Nat.b2n (Server.isAIResponding v
             && negb (Server.isAIResponding (fst (Server.callback atob v c)))).
Proof.
  destruct c as [|m| |]; cbn [Server.callback];
    try (destruct (Server.isAIResponding v) eqn:E; cbn; rewrite ?E;
         split; reflexivity).
  unfold Server.onmessage.
  destruct (Msg.dispatch m) as [ps| | |];
    destruct (Server.isAIResponding v) eqn:E; cbn; rewrite ?E;
    try (split; reflexivity);
    destruct (server_emitParts_signals atob (Server.socketId v) ps) as [Hm Hu];
    rewrite ?Hm, ?Hu; split; reflexivity.
Qed.

Lemma cli_step_signal_counts s e :
  length (List.filter Cli.isMute (snd (Cli.step s e)))
  = Nat.b2n (negb (Cli.isAIResponding s)
             && Cli.isAIResponding (fst (Cli.step s e))) /\
  length (List.filter Cli.isUnmute (snd (Cli.step s e)))
  = Nat.b2n (Cli.isAIResponding s
             && negb (Cli.isAIResponding (fst (Cli.step s e)))).
Proof.
  assert (K : length (List.filter Cli.isMute (snd (s, @nil Cli.Effect)))
              = Nat.b2n (negb (Cli.isAIResponding s)
                         && Cli.isAIResponding (fst (s, @nil Cli.Effect))) /\
              length (List.filter Cli.isUnmute (snd (s, @nil Cli.Effect)))
              = Nat.b2n (Cli.isAIResponding s
                         && negb (Cli.isAIResponding
                                    (fst (s, @nil Cli.Effect))))).
  { cbn. destruct (Cli.isAIResponding s); split; reflexivity. }
  unfold Cli.step. destruct (Cli.exited s); [exact K|].
  destruct e as [| |m|err env|reason|chunk thr].
  - cbn. destruct (Cli.isAIResponding s); split; reflexivity.
  - cbn. destruct (Cli.isAIResponding s); split; reflexivity.
  - unfold Cli.onmessage.
    destruct (Msg.dispatch m) as [ps| | |];
      destruct (Cli.isAIResponding s) eqn:E; cbn; rewrite ?E;
      try (split; reflexivity);
      destruct (cli_writeParts_signals ps) as [Hm Hu];
      rewrite ?Hm, ?Hu; split; reflexivity.
  - unfold Cli.onerror.
    pose proof (cli_cleanup_signals env s) as [Hm Hu].
    pose proof (cli_cleanup_flag env s) as Hf.
    destruct (Cli.cleanupAndExit env s) as [s' out]. cbn [fst snd] in *.
    cbn [List.filter Cli.isMute Cli.isUnmute]. rewrite Hm, Hu, Hf.
    destruct (Cli.isAIResponding s); split; reflexivity.
  - cbn. destruct (Cli.isAIResponding s); split; reflexivity.
  - destruct (Cli.sessionBound s); [|exact K].
    unfold Cli.onMicData.
    destruct (Cli.isConnected s), (Cli.isAIResponding s) eqn:E, thr;
      cbn; rewrite ?E; split; reflexivity.
Qed.

(** C4.  Mute and unmute signals go one to a transition.  In both
    programs: an audio chunk handled while the flag is already set leaves
    the state as it is and sends no mute signal ([ai-speaking-start], or
    [micInstance.pause]); a turn-complete handled while the flag is clear
    changes nothing and performs no effect at all, so neither an unmute
    signal nor an exception; and over any run the number of mute signals
    exceeds the number of unmute signals by exactly the change of the
    flag.  The transitions themselves: the audio chunk handled while the
    flag is clear sets it and sends exactly one mute signal, first of all
    its effects, and no unmute signal; the turn-complete handled while the
    flag is set clears it and sends exactly the one unmute signal; and
    whatever is handled, in whatever state, the handler sends one mute
    signal if it sets the flag and none otherwise, one unmute signal if it
    clears the flag and none otherwise. *)
Theorem mute_unmute_once_per_transition :
  (forall atob v m,
      Msg.isAudioChunk m = true -> Server.isAIResponding v = true ->
      fst (Server.onmessage atob v m) = v /\
      List.filter Server.isMute (snd (Server.onmessage atob v m)) = []) /\
  (forall atob v m,
      Msg.isTurnComplete m = true -> Server.isAIResponding v = false ->
      Server.onmessage atob v m = (v, [])) /\
  (forall atob v cs,
      length (List.filter Server.isMute (snd (Server.deliver atob v cs)))
      + Nat.b2n (Server.isAIResponding v)
      = length (List.filter Server.isUnmute (snd (Server.deliver atob v cs)))
        + Nat.b2n (Server.isAIResponding (fst (Server.deliver atob v cs)))) /\
  (forall s m,
      Msg.isAudioChunk m = true -> Cli.isAIResponding s = true ->
      fst (Cli.onmessage s m) = s /\
      List.filter Cli.isMute (snd (Cli.onmessage s m)) = []) /\
  (forall s m,
      Msg.isTurnComplete m = true -> Cli.isAIResponding s = false ->
      Cli.onmessage s m = (s, [])) /\
  (forall s es,
      length (List.filter Cli.isMute (snd (Cli.run s es)))
      + Nat.b2n (Cli.isAIResponding s)
      = length (List.filter Cli.isUnmute (snd (Cli.run s es)))
        + Nat.b2n (Cli.isAIResponding (fst (Cli.run s es)))) /\
  (forall atob v m,
      Msg.isAudioChunk m = true -> Server.isAIResponding v = false ->
      fst (Server.onmessage atob v m) = Server.setAIResponding true v /\
      exists rest,
        snd (Server.onmessage atob v m)
        = Server.SocketEmit (Server.socketId v) Server.EvAiSpeakingStart
          :: rest /\
        List.filter Server.isMute rest = [] /\
        List.filter Server.isUnmute rest = []) /\
  (forall atob v m,
      Msg.isTurnComplete m = true -> Server.isAIResponding v = true ->
      Server.onmessage atob v m
      = (Server.setAIResponding false v,
         [Server.SocketEmit (Server.socketId v) Server.EvAiSpeakingEnd])) /\
  (forall atob v c,
      length (List.filter Server.isMute (snd (Server.callback atob v c)))
      = Nat.b2n (negb (Server.isAIResponding v)
                 && Server.isAIResponding (fst (Server.callback atob v c))) /\
      length (List.filter Server.isUnmute (snd (Server.callback atob v c)))
      = Nat.b2n (Server.isAIResponding v
                 && negb (Server.isAIResponding
                            (fst (Server.callback atob v c))))) /\
  (forall s m,
      Msg.isAudioChunk m = true -> Cli.isAIResponding s = false ->
      fst (Cli.onmessage s m) = Cli.setAIResponding true s /\
      exists rest,
        snd (Cli.onmessage s m)
        = Cli.ConsoleLog Cli.LogAISpeaking :: Cli.MicPause :: rest /\
        List.filter Cli.isMute rest = [] /\
        List.filter Cli.isUnmute rest = []) /\
  (forall s m,
      Msg.isTurnComplete m = true -> Cli.isAIResponding s = true ->
      Cli.onmessage s m
      = (Cli.setAIResponding false s,
         [Cli.ConsoleLog Cli.LogTurnComplete; Cli.MicResume;
          Cli.ConsoleLog Cli.LogListening])) /\
  (forall s e,
      length (List.filter Cli.isMute (snd (Cli.step s e)))
      = Nat.b2n (negb (Cli.isAIResponding s)
                 && Cli.isAIResponding (fst (Cli.step s e))) /\
      length (List.filter Cli.isUnmute (snd (Cli.step s e)))
      = Nat.b2n (Cli.isAIResponding s
                 && negb (Cli.isAIResponding (fst (Cli.step s e))))).
Proof.
  split; [intros; now apply server_audio_while_responding|].
  split; [apply server_turn_complete_while_idle|].
  split; [intros; apply server_deliver_signals|].
  split; [intros; now apply cli_audio_while_responding|].
  split; [apply cli_turn_complete_while_idle|].
  split; [intros; apply cli_run_signals|].
  split; [intros; now apply server_audio_while_idle|].
  split; [apply server_turn_complete_while_responding|].
  split; [intros; apply server_callback_signal_counts|].
  split; [intros; now apply cli_audio_while_idle|].
  split; [apply cli_turn_complete_while_responding|].
  intros; apply cli_step_signal_counts.
Qed.

Lemma mute_unmute_once_per_transition_witness :
  (Msg.isAudioChunk chunkB = true /\
   Server.isAIResponding respondingSession = true /\
   fst (Server.onmessage Server.atobLenient respondingSession chunkB)
   = respondingSession /\
   List.filter Server.isMute
     (snd (Server.onmessage Server.atobLenient respondingSession chunkB)) = []) /\
  (Msg.isTurnComplete Msg.turnCompleteMessage = true /\
   Server.isAIResponding idleSession = false /\
   Server.onmessage Server.atobLenient idleSession Msg.turnCompleteMessage
   = (idleSession, [])) /\
  (Cli.isAIResponding respondingCli = true /\
   fst (Cli.onmessage respondingCli chunkB) = respondingCli /\
   List.filter Cli.isMute (snd (Cli.onmessage respondingCli chunkB)) = []) /\
  (Cli.isAIResponding idleCli = false /\
   Cli.onmessage idleCli Msg.turnCompleteMessage = (idleCli, [])) /\
  (fst (Server.onmessage Server.atobLenient idleSession chunkB)
   = Server.setAIResponding true idleSession /\
   exists rest,
     snd (Server.onmessage Server.atobLenient idleSession chunkB)
     = Server.SocketEmit (Server.socketId idleSession) Server.EvAiSpeakingStart
       :: rest /\
     List.filter Server.isMute rest = [] /\
     List.filter Server.isUnmute rest = []) /\
  Server.onmessage Server.atobLenient respondingSession Msg.turnCompleteMessage
  = (Server.setAIResponding false respondingSession,
     [Server.SocketEmit (Server.socketId respondingSession)
        Server.EvAiSpeakingEnd]) /\
  (fst (Cli.onmessage idleCli chunkB) = Cli.setAIResponding true idleCli /\
   exists rest,
     snd (Cli.onmessage idleCli chunkB)
     = Cli.ConsoleLog Cli.LogAISpeaking :: Cli.MicPause :: rest /\
     List.filter Cli.isMute rest = [] /\
     List.filter Cli.isUnmute rest = []) /\
  Cli.onmessage respondingCli Msg.turnCompleteMessage
  = (Cli.setAIResponding false respondingCli,
     [Cli.ConsoleLog Cli.LogTurnComplete; Cli.MicResume;
      Cli.ConsoleLog Cli.LogListening]).
Proof.
  pose proof mute_unmute_once_per_transition
    as (SA & ST & _ & CA & CT & _ & SR & SF & _ & CR & CF & _).
  exact (conj
    (conj eq_refl (conj eq_refl
       (SA Server.atobLenient respondingSession chunkB eq_refl eq_refl)))
    (conj
       (conj eq_refl (conj eq_refl
          (ST Server.atobLenient idleSession Msg.turnCompleteMessage
              eq_refl eq_refl)))
       (conj
          (conj eq_refl (CA respondingCli chunkB eq_refl eq_refl))
          (conj
             (conj eq_refl
                (CT idleCli Msg.turnCompleteMessage eq_refl eq_refl))
             (conj
                (SR Server.atobLenient idleSession chunkB eq_refl eq_refl)
                (conj
                   (SF Server.atobLenient respondingSession
                       Msg.turnCompleteMessage eq_refl eq_refl)
                   (conj
                      (CR idleCli chunkB eq_refl eq_refl)
                      (CF respondingCli Msg.turnCompleteMessage
                          eq_refl eq_refl)))))))).
Defined.

(** ** Order of the audio sent on *)

Lemma server_emitParts_emitted atob socket ps :
  accepts atob (omap Msg.partData ps) ->
  Server.emitted (Server.emitParts atob socket ps) = omap Msg.partData ps.
Proof.
  unfold accepts, Server.emitted.
  induction ps as [|[[d|]] ps IH]; [reflexivity| |exact IH].
  cbn [omap list_omap Server.emitParts Msg.partData Msg.inlineData].
  destruct (Msg.truthy (Msg.data d)) as [a|]; [|exact IH].
  intros F. inversion F as [|? ? [b Hb] F']; subst.
  rewrite Hb. cbn. f_equal. now apply IH.
Qed.

Lemma server_emitParts_no_throw atob socket ps :
  accepts atob (omap Msg.partData ps) ->
  List.filter Server.isThrow (Server.emitParts atob socket ps) = [].
Proof.
  unfold accepts.
  induction ps as [|[[d|]] ps IH]; [reflexivity| |exact IH].
  cbn [omap list_omap Server.emitParts Msg.partData Msg.inlineData].
  destruct (Msg.truthy (Msg.data d)) as [a|]; [|exact IH].
  intros F. inversion F as [|? ? [b Hb] F']; subst.
  rewrite Hb. cbn. now apply IH.
Qed.

Lemma cli_writeParts_played ps :
  Cli.played (Cli.writeParts ps) = omap Msg.partData ps.
Proof.
  unfold Cli.played, Cli.writeParts.
  induction (omap Msg.partData ps) as [|d l IH]; [reflexivity|].
  cbn. f_equal. exact IH.
Qed.

Lemma chunks_audio m ps :
  Msg.dispatch m = Msg.AudioChunk ps -> Msg.chunks m = omap Msg.partData ps.
Proof.
  unfold Msg.dispatch, Msg.chunks.
  destruct (Msg.modelTurnParts m) as [qs|].
  - now intros [= ->].
  - destruct (Msg.serverTurnComplete m); [discriminate|].
    destruct (Msg.usageMetadata m); discriminate.
Qed.

Lemma chunks_not_audio m :
  Msg.isAudioChunk m = false -> Msg.chunks m = [].
Proof.
  unfold Msg.isAudioChunk, Msg.dispatch, Msg.chunks.
  destruct (Msg.modelTurnParts m); [discriminate | reflexivity].
Qed.

(** One message, handled by the server: what it sends on is its payloads
    in array order. *)
Lemma server_onmessage_emitted atob v m :
  accepts atob (Msg.chunks m) ->
  Server.emitted (snd (Server.onmessage atob v m)) = Msg.chunks m /\
  List.filter Server.isThrow (snd (Server.onmessage atob v m)) = [].
Proof.
  unfold Server.onmessage. intros Acc.
  destruct (Msg.dispatch m) as [ps| |u|] eqn:D.
  - rewrite (chunks_audio m ps D) in *.
    destruct (Server.isAIResponding v); simpl;
      (split; [now apply server_emitParts_emitted
              | now apply server_emitParts_no_throw]).
  - rewrite chunks_not_audio by (unfold Msg.isAudioChunk; now rewrite D).
    destruct (Server.isAIResponding v); simpl; auto.
  - rewrite chunks_not_audio by (unfold Msg.isAudioChunk; now rewrite D).
    simpl; auto.
  - rewrite chunks_not_audio by (unfold Msg.isAudioChunk; now rewrite D).
    simpl; auto.
Qed.

Lemma cli_onmessage_played s m :
  Cli.played (snd (Cli.onmessage s m)) = Msg.chunks m.
Proof.
  unfold Cli.onmessage.
  destruct (Msg.dispatch m) as [ps| |u|] eqn:D.
  - rewrite (chunks_audio m ps D).
    destruct (Cli.isAIResponding s); simpl; apply cli_writeParts_played.
  - rewrite chunks_not_audio by (unfold Msg.isAudioChunk; now rewrite D).
    destruct (Cli.isAIResponding s); reflexivity.
  - rewrite chunks_not_audio by (unfold Msg.isAudioChunk; now rewrite D).
    reflexivity.
  - rewrite chunks_not_audio by (unfold Msg.isAudioChunk; now rewrite D).
    reflexivity.
Qed.

Lemma server_onmessage_audio atob v m ps :
  Msg.dispatch m = Msg.AudioChunk ps ->
  Server.onmessage atob v m =
  (Server.setAIResponding true v,
   (if Server.isAIResponding v then []
    else [Server.SocketEmit (Server.socketId v) Server.EvAiSpeakingStart])
   ++ Server.emitParts atob (Server.socketId v) ps).
Proof.
  intros D. unfold Server.onmessage. rewrite D.
  destruct v as [sock [] conn aw]; reflexivity.
Qed.

Lemma cli_onmessage_audio s m ps :
  Msg.dispatch m = Msg.AudioChunk ps ->
  Cli.onmessage s m =
  (Cli.setAIResponding true s,
   (if Cli.isAIResponding s
    then [] else [Cli.ConsoleLog Cli.LogAISpeaking; Cli.MicPause])
   ++ Cli.writeParts ps).
Proof.
  intros D. unfold Cli.onmessage. rewrite D.
  destruct s as [[] conn bound ex]; reflexivity.
Qed.

Lemma emitted_app o1 o2 :
  Server.emitted (o1 ++ o2) = Server.emitted o1 ++ Server.emitted o2.
Proof. unfold Server.emitted. apply omap_app. Qed.

Lemma played_app o1 o2 :
  Cli.played (o1 ++ o2) = Cli.played o1 ++ Cli.played o2.
Proof. unfold Cli.played. apply omap_app. Qed.

(** Any number of messages, handled by the server one after the other:
    the client is sent their payloads in the order of arrival. *)
Lemma server_deliver_emitted atob ms : forall v,
  accepts atob (concat (Msg.chunks <$> ms)) ->
  Server.emitted (snd (Server.deliver atob v (Server.Message <$> ms)))
  = concat (Msg.chunks <$> ms).
Proof.
  induction ms as [|m ms IH]; intros v Acc; [reflexivity|].
  cbn [fmap list_fmap concat Server.deliver Server.callback] in *.
  apply Forall_app in Acc as [Am Ams].
  pose proof (server_onmessage_emitted atob v m Am) as [Em _].
  destruct (Server.onmessage atob v m) as [v1 o1].
  specialize (IH v1 Ams).
  destruct (Server.deliver atob v1 _) as [v2 o2].
  cbn [snd] in *. now rewrite emitted_app, Em, IH.
Qed.

Lemma cli_onmessage_exited s m :
  Cli.exited (fst (Cli.onmessage s m)) = Cli.exited s.
Proof.
  unfold Cli.onmessage.
  destruct (Msg.dispatch m); destruct (Cli.isAIResponding s); reflexivity.
Qed.

Lemma cli_run_played ms : forall s,
  Cli.exited s = false ->
  Cli.played (snd (Cli.run s (Cli.OnMessage <$> ms)))
  = concat (Msg.chunks <$> ms).
Proof.
  induction ms as [|m ms IH]; intros s X; [reflexivity|].
  cbn [fmap list_fmap concat Cli.run]. unfold Cli.step. rewrite X.
  pose proof (cli_onmessage_played s m) as Em.
  pose proof (cli_onmessage_exited s m) as Ex.
  destruct (Cli.onmessage s m) as [s1 o1]. cbn [fst snd] in *.
  rewrite X in Ex. specialize (IH s1 Ex).
  destruct (Cli.run s1 _) as [s2 o2].
  cbn [snd] in *. now rewrite played_app, Em, IH.
Qed.

(** C5.  Two audio messages followed by a turn-complete, delivered to one
    session in any state.  The sink (the client socket's [audio-response]
    events, or [speaker.write]) receives the payloads of the first message,
    then those of the second, each in array order.  Up to the
    turn-complete no unmute signal is given and the flag is set, so capture
    stays gated; the turn-complete then clears the flag and its unmute
    signal ([ai-speaking-end], or [micInstance.resume]) comes after all the
    audio.  More generally, for any run of messages the sink receives
    their payloads in the order of arrival.  For the server this is under
    the assumption that [atob] takes the payloads, as it does for the
    base64 the upstream sends. *)
Theorem chunks_in_order_then_resume :
  (forall atob v mA mB tc,
      Msg.isAudioChunk mA = true -> Msg.isAudioChunk mB = true ->
      Msg.isTurnComplete tc = true ->
      accepts atob (Msg.chunks mA) -> accepts atob (Msg.chunks mB) ->
      let r2 := Server.deliver atob v [Server.Message mA; Server.Message mB] in
      let r3 := Server.deliver atob v
                  [Server.Message mA; Server.Message mB; Server.Message tc] in
      Server.emitted (snd r2) = Msg.chunks mA ++ Msg.chunks mB /\
      List.filter Server.isUnmute (snd r2) = [] /\
      Server.isAIResponding (fst r2) = true /\
      snd r3 = snd r2 ++ [Server.SocketEmit (Server.socketId v)
                            Server.EvAiSpeakingEnd] /\
      Server.isAIResponding (fst r3) = false) /\
  (forall s mA mB tc,
      Cli.exited s = false ->
      Msg.isAudioChunk mA = true -> Msg.isAudioChunk mB = true ->
      Msg.isTurnComplete tc = true ->
      let r2 := Cli.run s [Cli.OnMessage mA; Cli.OnMessage mB] in
      let r3 := Cli.run s [Cli.OnMessage mA; Cli.OnMessage mB; Cli.OnMessage tc] in
      Cli.played (snd r2) = Msg.chunks mA ++ Msg.chunks mB /\
      List.filter Cli.isUnmute (snd r2) = [] /\
      Cli.isAIResponding (fst r2) = true /\
      snd r3 = snd r2 ++ [Cli.ConsoleLog Cli.LogTurnComplete; Cli.MicResume;
                          Cli.ConsoleLog Cli.LogListening] /\
      Cli.isAIResponding (fst r3) = false) /\
  (forall atob v ms,
      accepts atob (concat (Msg.chunks <$> ms)) ->
      Server.emitted (snd (Server.deliver atob v (Server.Message <$> ms)))
      = concat (Msg.chunks <$> ms)) /\
  (forall s ms,
      Cli.exited s = false ->
      Cli.played (snd (Cli.run s (Cli.OnMessage <$> ms)))
      = concat (Msg.chunks <$> ms)).
Proof.
  split; [|split; [|split;
    [intros; now apply server_deliver_emitted
    |intros; now apply cli_run_played]]].
  - intros atob v mA mB tc HA HB HT AccA AccB.
    destruct (dispatch_audio _ HA) as [pa DA].
    destruct (dispatch_audio _ HB) as [pb DB].
    apply dispatch_turn_complete in HT.
    rewrite (chunks_audio _ _ DA) in *. rewrite (chunks_audio _ _ DB) in *.
    pose proof (server_emitParts_emitted atob (Server.socketId v) pa AccA) as EA.
    pose proof (server_emitParts_emitted atob (Server.socketId v) pb AccB) as EB.
    destruct (server_emitParts_signals atob (Server.socketId v) pa) as [_ UA].
    destruct (server_emitParts_signals atob (Server.socketId v) pb) as [_ UB].
    cbn [Server.deliver Server.callback].
    rewrite (server_onmessage_audio atob v mA pa DA).
    rewrite (server_onmessage_audio atob _ mB pb DB).
    unfold Server.onmessage at 1 2. rewrite HT.
    cbn [Server.setAIResponding Server.isAIResponding Server.socketId fst snd app].
    unfold Server.emitted in *.
    repeat split.
    + rewrite app_nil_r, omap_app, omap_app, EA, EB.
      destruct (Server.isAIResponding v); reflexivity.
    + rewrite app_nil_r, !List.filter_app, UA, UB.
      destruct (Server.isAIResponding v); reflexivity.
    + rewrite app_nil_r, <- !app_assoc. reflexivity.
  - intros s mA mB tc X HA HB HT.
    destruct (dispatch_audio _ HA) as [pa DA].
    destruct (dispatch_audio _ HB) as [pb DB].
    apply dispatch_turn_complete in HT.
    rewrite (chunks_audio _ _ DA). rewrite (chunks_audio _ _ DB).
    pose proof (cli_writeParts_played pa) as EA.
    pose proof (cli_writeParts_played pb) as EB.
    destruct (cli_writeParts_signals pa) as [_ UA].
    destruct (cli_writeParts_signals pb) as [_ UB].
    cbn [Cli.run]. unfold Cli.step. rewrite X.
    rewrite (cli_onmessage_audio s mA pa DA).
    cbn [Cli.setAIResponding Cli.exited]. rewrite X.
    rewrite (cli_onmessage_audio _ mB pb DB).
    cbn [Cli.setAIResponding Cli.exited Cli.isAIResponding]. rewrite X.
    unfold Cli.onmessage. rewrite HT.
    cbn [Cli.setAIResponding Cli.isAIResponding fst snd app].
    unfold Cli.played in *.
    repeat split.
    + rewrite app_nil_r, omap_app, omap_app, EA, EB.
      destruct (Cli.isAIResponding s); reflexivity.
    + rewrite app_nil_r, !List.filter_app, UA, UB.
      destruct (Cli.isAIResponding s); reflexivity.
    + rewrite app_nil_r, <- !app_assoc. reflexivity.
Qed.

Lemma chunks_in_order_then_resume_witness :
  accepts Server.atobLenient (Msg.chunks chunkA) /\
  accepts Server.atobLenient (Msg.chunks chunkB) /\
  Server.emitted
    (snd (Server.deliver Server.atobLenient idleSession
            [Server.Message chunkA; Server.Message chunkB]))
  = ["QUFB"; "QkJC"] /\
  Cli.played (snd (Cli.run idleCli [Cli.OnMessage chunkA; Cli.OnMessage chunkB]))
  = ["QUFB"; "QkJC"].
Proof.
  assert (AccA : accepts Server.atobLenient (Msg.chunks chunkA))
    by (repeat constructor; eexists; reflexivity).
  assert (AccB : accepts Server.atobLenient (Msg.chunks chunkB))
    by (repeat constructor; eexists; reflexivity).
  refine (conj AccA (conj AccB (conj _ _))).
  - exact (proj1 (proj1 chunks_in_order_then_resume Server.atobLenient
                    idleSession chunkA chunkB Msg.turnCompleteMessage
                    eq_refl eq_refl eq_refl AccA AccB)).
  - exact (proj1 (proj1 (proj2 chunks_in_order_then_resume)
                    idleCli chunkA chunkB Msg.turnCompleteMessage
                    eq_refl eq_refl eq_refl eq_refl)).
Defined.

(** ** Capture frames *)

Lemma server_audio_step atob w socket data thr :
  Server.step atob w (Server.AudioData socket data thr) =
  Server.onAudioData w socket data thr.
Proof. reflexivity. Qed.

(** C2.  A capture frame that arrives while the session's flag
    [isAIResponding] is set is not passed to [sendRealtimeInput].  In the
    server the handler writes its two console lines and leaves the whole
    process state as it was; in the command line relay it does nothing.
    Nothing is stored, so whatever happens afterwards happens as if the
    frame had never arrived: it is not sent later either. *)
Theorem capture_dropped_while_responding :
  (forall atob w socket data thr h v post,
      Server.voiceSessionOf w socket = Some (h, v) ->
      Server.isAIResponding v = true ->
      let dropped :=
        [Server.ConsoleLog
           (Server.LogReceivedAudio (bool_decide (data <> EmptyString))
              (String.length data));
         Server.ConsoleLog
           (Server.LogNotReady true (Some (Server.isConnected v)) (Some true))] in
      Server.step atob w (Server.AudioData socket data thr) = (w, dropped) /\
      List.filter Server.isSend dropped = [] /\
      Server.run atob w (Server.AudioData socket data thr :: post) =
      (fst (Server.run atob w post), dropped ++ snd (Server.run atob w post))) /\
  (forall s chunk thr post,
      Cli.isAIResponding s = true ->
      Cli.step s (Cli.MicData chunk thr) = (s, []) /\
      Cli.run s (Cli.MicData chunk thr :: post) = Cli.run s post).
Proof.
  split.
  - intros atob w socket data thr h v post L R dropped.
    assert (S : Server.step atob w (Server.AudioData socket data thr)
                = (w, dropped)).
    { rewrite server_audio_step. unfold Server.onAudioData.
      rewrite L, R, andb_false_r. reflexivity. }
    split; [exact S|]. split; [reflexivity|].
    cbn [Server.run]. rewrite S.
    destruct (Server.run atob w post); reflexivity.
  - intros s chunk thr post R.
    assert (S : Cli.step s (Cli.MicData chunk thr) = (s, [])).
    { unfold Cli.step, Cli.onMicData. rewrite R, andb_false_r.
      destruct (Cli.exited s), (Cli.sessionBound s); reflexivity. }
    split; [exact S|].
    cbn [Cli.run]. rewrite S. destruct (Cli.run s post); reflexivity.
Qed.

Lemma capture_dropped_while_responding_witness :
  Server.voiceSessionOf respondingWorld "client-1" = Some (0, respondingSession) /\
  Server.isAIResponding respondingSession = true /\
  Server.step Server.atobLenient respondingWorld
    (Server.AudioData "client-1" "UENN" false)
  = (respondingWorld,
     [Server.ConsoleLog (Server.LogReceivedAudio true 4);
      Server.ConsoleLog (Server.LogNotReady true (Some true) (Some true))]) /\
  Cli.isAIResponding respondingCli = true /\
  Cli.step respondingCli (Cli.MicData "UENN" false) = (respondingCli, []).
Proof.
  assert (L : Server.voiceSessionOf respondingWorld "client-1"
              = Some (0, respondingSession)) by (vm_compute; reflexivity).
  refine (conj L (conj eq_refl (conj _ (conj eq_refl _)))).
  - exact (proj1 (proj1 capture_dropped_while_responding Server.atobLenient
                    respondingWorld "client-1" "UENN" false 0 respondingSession
                    [] L eq_refl)).
  - exact (proj1 (proj2 capture_dropped_while_responding
                    respondingCli "UENN" false [] eq_refl)).
Defined.

Lemma voiceSessionOf_unknown w socket :
  Server.activeVoiceSessions w !! socket = None ->
  Server.voiceSessionOf w socket = None.
Proof. unfold Server.voiceSessionOf. now intros ->. Qed.

(** C7.  An ['audio-data'] message on a connection that has no entry in
    [activeVoiceSessions] (never started, not yet resolved, stopped) writes
    the two console lines of the handler and returns: nothing is sent
    upstream, nothing is thrown, no state changes, and the events that
    follow, of this or of any other client, are handled as if the frame had
    not come. *)
Theorem audio_for_unknown_session_dropped :
  forall atob w socket data thr post,
    Server.activeVoiceSessions w !! socket = None ->
    let dropped :=
      [Server.ConsoleLog
         (Server.LogReceivedAudio (bool_decide (data <> EmptyString))
            (String.length data));
       Server.ConsoleLog (Server.LogNotReady false None None)] in
    Server.step atob w (Server.AudioData socket data thr) = (w, dropped) /\
    List.filter Server.isSend dropped = [] /\
    List.filter Server.isThrow dropped = [] /\
    Server.run atob w (Server.AudioData socket data thr :: post) =
    (fst (Server.run atob w post), dropped ++ snd (Server.run atob w post)).
Proof.
  intros atob w socket data thr post N dropped.
  assert (S : Server.step atob w (Server.AudioData socket data thr)
              = (w, dropped)).
  { rewrite server_audio_step. unfold Server.onAudioData.
    now rewrite (voiceSessionOf_unknown w socket N). }
  split; [exact S|]. split; [reflexivity|]. split; [reflexivity|].
  cbn [Server.run]. rewrite S.
  destruct (Server.run atob w post); reflexivity.
Qed.

Lemma audio_for_unknown_session_dropped_witness :
  Server.activeVoiceSessions connectedWorld !! "missing-id" = None /\
  Server.step Server.atobLenient connectedWorld
    (Server.AudioData "missing-id" "UENN" false)
  = (connectedWorld,
     [Server.ConsoleLog (Server.LogReceivedAudio true 4);
      Server.ConsoleLog (Server.LogNotReady false None None)]).
Proof.
  assert (N : Server.activeVoiceSessions connectedWorld !! "missing-id" = None)
    by (vm_compute; reflexivity).
  exact (conj N
           (proj1 (audio_for_unknown_session_dropped Server.atobLenient
                     connectedWorld "missing-id" "UENN" false [] N))).
Defined.

(** A connection whose ['start-voice-session'] is still waiting for the
    connect has no entry yet. *)
Example audio_before_connect_resolves :
  let w := fst (Server.run Server.atobLenient Server.emptyWorld
                  [Server.PostAgentType "s1" "dental office";
                   Server.StartVoiceSession "client-1" "s1"]) in
  Server.activeVoiceSessions w !! "client-1" = None /\
  List.filter Server.isSend
    (snd (Server.step Server.atobLenient w
            (Server.AudioData "client-1" "UENN" false))) = [].
Proof. vm_compute. split; reflexivity. Qed.

(** C8.  A frame whose [sendRealtimeInput] throws is reported (the console
    error, and in the server an ['error'] event to the client) and lost;
    the state is exactly what it was, so the session is still registered
    and connected, the flag is untouched, nothing is closed, and the next
    frame is passed to [sendRealtimeInput] as usual. *)
Theorem send_failure_keeps_session :
  (forall atob w socket d1 d2 h v,
      Server.voiceSessionOf w socket = Some (h, v) ->
      Server.isConnected v = true -> Server.isAIResponding v = false ->
      Server.run atob w
        [Server.AudioData socket d1 true; Server.AudioData socket d2 false]
      = (w,
         [Server.ConsoleLog
            (Server.LogReceivedAudio (bool_decide (d1 <> EmptyString))
               (String.length d1));
          Server.ConsoleLog Server.LogSendingAudio;
          Server.SendRealtimeInput h (Audio d1 micMimeType);
          Server.ConsoleError Server.ErrSendingAudio;
          Server.SocketEmit socket (Server.EvError "Error processing audio");
          Server.ConsoleLog
            (Server.LogReceivedAudio (bool_decide (d2 <> EmptyString))
               (String.length d2));
          Server.ConsoleLog Server.LogSendingAudio;
          Server.SendRealtimeInput h (Audio d2 micMimeType)])) /\
  (forall s c1 c2,
      Cli.exited s = false -> Cli.sessionBound s = true ->
      Cli.isConnected s = true -> Cli.isAIResponding s = false ->
      Cli.run s [Cli.MicData c1 true; Cli.MicData c2 false]
      = (s,
         [Cli.SendRealtimeInput (Audio c1 micMimeType);
          Cli.ConsoleError Cli.ErrSendingAudio;
          Cli.SendRealtimeInput (Audio c2 micMimeType)])).
Proof.
  split.
  - intros atob w socket d1 d2 h v L C I.
    cbn [Server.run Server.step]. unfold Server.onAudioData.
    rewrite L, C, I. cbn [andb negb]. rewrite L, C, I. reflexivity.
  - intros s c1 c2 X B C I.
    cbn [Cli.run]. unfold Cli.step, Cli.onMicData.
    rewrite X, B, C, I. cbn [andb negb]. rewrite X, B, C, I. reflexivity.
Qed.

Lemma send_failure_keeps_session_witness :
  Server.voiceSessionOf connectedWorld "client-1" = Some (0, idleSession) /\
  List.filter Server.isSend
    (snd (Server.run Server.atobLenient connectedWorld
            [Server.AudioData "client-1" "UENN" true;
             Server.AudioData "client-1" "UEND" false]))
  = [Server.SendRealtimeInput 0 (Audio "UENN" micMimeType);
     Server.SendRealtimeInput 0 (Audio "UEND" micMimeType)] /\
  Cli.run idleCli [Cli.MicData "UENN" true; Cli.MicData "UEND" false]
  = (idleCli,
     [Cli.SendRealtimeInput (Audio "UENN" micMimeType);
      Cli.ConsoleError Cli.ErrSendingAudio;
      Cli.SendRealtimeInput (Audio "UEND" micMimeType)]).
Proof.
  assert (L : Server.voiceSessionOf connectedWorld "client-1"
              = Some (0, idleSession)) by (vm_compute; reflexivity).
  refine (conj L (conj _ _)).
  - rewrite (proj1 send_failure_keeps_session Server.atobLenient connectedWorld
               "client-1" "UENN" "UEND" 0 idleSession L eq_refl eq_refl).
    reflexivity.
  - exact (proj2 send_failure_keeps_session idleCli "UENN" "UEND"
             eq_refl eq_refl eq_refl eq_refl).
Defined.

(** ** Upstream errors and closes *)

Lemma server_upstream_at atob w h v c :
  Server.closures w !! h = Some v ->
  Server.step atob w (Server.Upstream h c) =
  (Server.withClosures
     (<[h := fst (Server.callback atob v c)]> (Server.closures w)) w,
   snd (Server.callback atob v c)).
Proof.
  intros L. cbn [Server.step]. unfold Server.upstream. rewrite L.
  now destruct (Server.callback atob v c).
Qed.

Lemma withClosures_same w :
  Server.withClosures (Server.closures w) w = w.
Proof. now destruct w. Qed.

Lemma server_upstream_error atob w h v msg :
  Server.closures w !! h = Some v ->
  Server.step atob w (Server.Upstream h (Server.Error msg)) =
  (w, [Server.ConsoleError (Server.ErrVoiceSession msg);
       Server.SocketEmit (Server.socketId v) (Server.EvVoiceError msg)]).
Proof.
  intros L. rewrite (server_upstream_at atob w h v _ L). cbn.
  now rewrite (list_insert_id _ _ _ L), withClosures_same.
Qed.

(** C3, as the specification states it, fails: with a reply in progress
    an upstream error leaves the server's flag set, and so does a close,
    in the server and in the command line relay; the client's audio is
    still refused on account of the flag and the microphone is not
    resumed. *)
Lemma error_and_close_leave_flag_set :
  respondingAt respondingWorld 0 = Some true /\
  respondingAt
    (fst (Server.step Server.atobLenient respondingWorld
            (Server.Upstream 0 (Server.Error "upstream failed")))) 0
  <> Some false /\
  snd (Server.run Server.atobLenient respondingWorld
         [Server.Upstream 0 (Server.Error "upstream failed");
          Server.AudioData "client-1" "UENN" false])
  = [Server.ConsoleError (Server.ErrVoiceSession "upstream failed");
     Server.SocketEmit "client-1" (Server.EvVoiceError "upstream failed");
     Server.ConsoleLog (Server.LogReceivedAudio true 4);
     Server.ConsoleLog (Server.LogNotReady true (Some true) (Some true))] /\
  respondingAt
    (fst (Server.step Server.atobLenient respondingWorld
            (Server.Upstream 0 (Server.Close None)))) 0
  <> Some false /\
  Cli.step respondingCli (Cli.OnClose None)
  = ({| Cli.isAIResponding := true; Cli.isConnected := false;
        Cli.sessionBound := true; Cli.exited := false |},
     [Cli.ConsoleLog (Cli.LogSessionClosed "No reason given")]).
Proof. vm_compute. repeat split; discriminate. Qed.

(** C3, amended.  An upstream error or close leaves the turn flag as it
    was, whatever the state, and gives no unmute signal.  The server's
    error handler changes no state; the close handlers clear
    [isConnected] only, and from then on no capture frame of that session
    is passed upstream. *)
Theorem error_and_close_keep_turn_flag :
  (forall atob v msg,
      fst (Server.callback atob v (Server.Error msg)) = v /\
      List.filter Server.isUnmute
        (snd (Server.callback atob v (Server.Error msg))) = []) /\
  (forall atob v reason,
      fst (Server.callback atob v (Server.Close reason))
      = Server.setConnected false v /\
      List.filter Server.isUnmute
        (snd (Server.callback atob v (Server.Close reason))) = []) /\
  (forall s err env,
      Cli.isAIResponding (fst (Cli.step s (Cli.OnError err env)))
      = Cli.isAIResponding s /\
      List.filter Cli.isUnmute (snd (Cli.step s (Cli.OnError err env))) = []) /\
  (forall s reason,
      Cli.exited s = false ->
      Cli.step s (Cli.OnClose reason)
      = (Cli.setConnected false s,
         [Cli.ConsoleLog (Cli.LogSessionClosed (Cli.closeReason reason))])) /\
  (forall atob w h v reason socket data thr,
      Server.closures w !! h = Some v ->
      Server.activeVoiceSessions w !! socket = Some h ->
      List.filter Server.isSend
        (snd (Server.run atob w
                [Server.Upstream h (Server.Close reason);
                 Server.AudioData socket data thr])) = []) /\
  (forall s reason chunk thr,
      List.filter Cli.isSend
        (snd (Cli.run s [Cli.OnClose reason; Cli.MicData chunk thr])) = []).
Proof.
  repeat apply conj.
  - intros atob v msg. split; reflexivity.
  - intros atob v reason. split; reflexivity.
  - intros s err env. unfold Cli.step.
    destruct (Cli.exited s); [split; reflexivity|]. unfold Cli.onerror.
    pose proof (cli_cleanup_flag env s) as Hf.
    pose proof (cli_cleanup_signals env s) as [_ Hu].
    destruct (Cli.cleanupAndExit env s) as [s' out]. simpl in *. auto.
  - intros s reason X. unfold Cli.step. now rewrite X.
  - intros atob w h v reason socket data thr L A.
    cbn [Server.run]. rewrite (server_upstream_at atob w h v _ L).
    cbn [Server.callback Server.onclose fst snd Server.step].
    unfold Server.onAudioData, Server.voiceSessionOf.
    cbn [Server.withClosures Server.activeVoiceSessions Server.closures].
    rewrite A. cbn [mbind option_bind].
    rewrite list_lookup_insert_eq by (eapply lookup_lt_Some; exact L).
    reflexivity.
  - intros s reason chunk thr. cbn [Cli.run]. unfold Cli.step.
    destruct (Cli.exited s) eqn:X; cbn; rewrite ?X; [reflexivity|].
    destruct (Cli.sessionBound s); reflexivity.
Qed.

Lemma error_and_close_keep_turn_flag_witness :
  Cli.exited respondingCli = false /\
  Cli.step respondingCli (Cli.OnClose (Some "going away"))
  = (Cli.setConnected false respondingCli,
     [Cli.ConsoleLog (Cli.LogSessionClosed "going away")]) /\
  Server.closures respondingWorld !! 0 = Some respondingSession /\
  Server.activeVoiceSessions respondingWorld !! "client-1" = Some 0 /\
  List.filter Server.isSend
    (snd (Server.run Server.atobLenient respondingWorld
            [Server.Upstream 0 (Server.Close None);
             Server.AudioData "client-1" "UENN" false])) = [].
Proof.
  pose proof error_and_close_keep_turn_flag as (_ & _ & _ & CC & SC & _).
  assert (L : Server.closures respondingWorld !! 0 = Some respondingSession)
    by (vm_compute; reflexivity).
  assert (A : Server.activeVoiceSessions respondingWorld !! "client-1" = Some 0)
    by (vm_compute; reflexivity).
  exact (conj eq_refl
           (conj (CC respondingCli (Some "going away") eq_refl)
              (conj L (conj A
                 (SC Server.atobLenient respondingWorld 0 respondingSession
                     None "client-1" "UENN" false L A))))).
Defined.

(** C6, as the specification states it, fails in the server: its error
    handler writes the console line and emits ['voice-error'], and that is
    all.  No [close] is called on the upstream session, [isConnected] stays
    set, the registry keeps the entry, and the next frame of the client is
    still passed upstream. *)
Lemma server_error_leaves_session_open :
  connectedAt connectedWorld 0 = Some true /\
  Server.step Server.atobLenient connectedWorld
    (Server.Upstream 0 (Server.Error "upstream failed"))
  = (connectedWorld,
     [Server.ConsoleError (Server.ErrVoiceSession "upstream failed");
      Server.SocketEmit "client-1" (Server.EvVoiceError "upstream failed")]) /\
  List.filter serverIsClose
    (snd (Server.step Server.atobLenient connectedWorld
            (Server.Upstream 0 (Server.Error "upstream failed")))) = [] /\
  connectedAt
    (fst (Server.step Server.atobLenient connectedWorld
            (Server.Upstream 0 (Server.Error "upstream failed")))) 0
  <> Some false /\
  List.filter Server.isSend
    (snd (Server.run Server.atobLenient connectedWorld
            [Server.Upstream 0 (Server.Error "upstream failed");
             Server.AudioData "client-1" "UENN" false]))
  = [Server.SendRealtimeInput 0 (Audio "UENN" "audio/pcm;rate=16000")].
Proof. vm_compute. repeat split; discriminate. Qed.

Lemma cli_cleanup_shape env s :
  Cli.sessionBound s = true ->
  exists mid,
    Cli.cleanupAndExit env s =
    (Cli.setExited (Cli.setConnected false s),
     Cli.ConsoleLog Cli.LogCleaningUp :: Cli.MicStop :: mid
     ++ [Cli.ProcessExit 0]) /\
    (In Cli.SessionClose mid <-> Cli.isConnected s = true) /\
    (In Cli.SpeakerEnd mid <-> Cli.speakerDestroyed env = false).
Proof.
  intros B. unfold Cli.cleanupAndExit. rewrite B.
  exists ((if Cli.micStopThrows env
           then [Cli.ConsoleError Cli.ErrStoppingMic] else [])
          ++ (if Cli.speakerDestroyed env then []
              else Cli.SpeakerEnd ::
                   (if Cli.speakerEndThrows env
                    then [Cli.ConsoleError Cli.ErrClosingSpeaker] else []))
          ++ (if Cli.isConnected s
              then Cli.SessionClose ::
                   (if Cli.sessionCloseThrows env
                    then [Cli.ConsoleError Cli.ErrClosingSession] else [])
              else [])).
  destruct env as [[] [] [] []], (Cli.isConnected s);
    cbn; (split; [reflexivity|]);
    intuition (discriminate || congruence).
Qed.

(** C6, amended.  On an upstream error the server logs it and emits
    ['voice-error'] with its message on the socket of the session's
    client, and does nothing more: no state changes, for this session or
    any other, nothing is closed and no connect is issued.  The command
    line relay, once its connect has resolved, logs the error, stops the
    microphone, ends the speaker unless it is destroyed, closes the
    upstream session exactly when [isConnected] is set, clears
    [isConnected] and exits with code 0; after that no event is handled,
    so it never connects again. *)
Theorem upstream_error_handling :
  (forall atob w h v msg,
      Server.closures w !! h = Some v ->
      Server.step atob w (Server.Upstream h (Server.Error msg)) =
      (w, [Server.ConsoleError (Server.ErrVoiceSession msg);
           Server.SocketEmit (Server.socketId v) (Server.EvVoiceError msg)])) /\
  (forall s err env,
      Cli.exited s = false -> Cli.sessionBound s = true ->
      exists mid,
        Cli.step s (Cli.OnError err env) =
        (Cli.setExited (Cli.setConnected false s),
         Cli.ConsoleError (Cli.ErrSession err)
         :: Cli.ConsoleLog Cli.LogCleaningUp :: Cli.MicStop :: mid
         ++ [Cli.ProcessExit 0]) /\
        (In Cli.SessionClose mid <-> Cli.isConnected s = true) /\
        (In Cli.SpeakerEnd mid <-> Cli.speakerDestroyed env = false) /\
        forall es,
          Cli.run (Cli.setExited (Cli.setConnected false s)) es
          = (Cli.setExited (Cli.setConnected false s), [])).
Proof.
  split.
  - intros atob w h v msg L. now apply server_upstream_error.
  - intros s err env X B.
    destruct (cli_cleanup_shape env s B) as (mid & E & HC & HS).
    exists mid. unfold Cli.step, Cli.onerror. rewrite X, E.
    repeat split; try apply HC; try apply HS.
    intros es. now apply cli_run_exited.
Qed.

Lemma upstream_error_handling_witness :
  Server.closures connectedWorld !! 0 = Some idleSession /\
  Server.step Server.atobLenient connectedWorld
    (Server.Upstream 0 (Server.Error "upstream failed"))
  = (connectedWorld,
     [Server.ConsoleError (Server.ErrVoiceSession "upstream failed");
      Server.SocketEmit "client-1" (Server.EvVoiceError "upstream failed")]) /\
  Cli.exited idleCli = false /\ Cli.sessionBound idleCli = true /\
  exists mid,
    Cli.step idleCli (Cli.OnError "upstream failed" Cli.quietEnv) =
    (Cli.setExited (Cli.setConnected false idleCli),
     Cli.ConsoleError (Cli.ErrSession "upstream failed")
     :: Cli.ConsoleLog Cli.LogCleaningUp :: Cli.MicStop :: mid
     ++ [Cli.ProcessExit 0]).
Proof.
  assert (L : Server.closures connectedWorld !! 0 = Some idleSession)
    by (vm_compute; reflexivity).
  refine (conj L (conj _ (conj eq_refl (conj eq_refl _)))).
  - exact (proj1 upstream_error_handling Server.atobLenient connectedWorld 0
             idleSession "upstream failed" L).
  - destruct (proj2 upstream_error_handling idleCli "upstream failed"
                Cli.quietEnv eq_refl eq_refl) as (mid & E & _).
    exists mid. exact E.
Defined.

(** The trace of that error in the command line relay. *)
Example cli_error_trace :
  Cli.step idleCli (Cli.OnError "upstream failed" Cli.quietEnv) =
  ({| Cli.isAIResponding := false; Cli.isConnected := false;
      Cli.sessionBound := true; Cli.exited := true |},
   [Cli.ConsoleError (Cli.ErrSession "upstream failed");
    Cli.ConsoleLog Cli.LogCleaningUp; Cli.MicStop; Cli.SpeakerEnd;
    Cli.SessionClose; Cli.ProcessExit 0]).
Proof. reflexivity. Qed.

(** ** Starting a voice session twice *)

(** C9, as the specification states it, fails: a second
    ['start-voice-session'] on a connection whose voice session is
    connected is answered like the first.  A second upstream session is
    opened, the registry entry of the connection is overwritten with it and
    ['voice-session-started'] is emitted; no ['error'] event and no console
    error is produced, and the first upstream session stays connected and
    is not closed. *)
Lemma second_start_replaces_silently :
  Server.activeVoiceSessions connectedWorld !! "client-1" = Some 0 /\
  connectedAt connectedWorld 0 = Some true /\
  snd (Server.run Server.atobLenient connectedWorld
         [Server.StartVoiceSession "client-1" "s1";
          Server.Upstream 1 Server.Open;
          Server.ConnectResolved 1])
  = [Server.ConsoleLog
       (Server.LogInstructionGenerated "dental office" 2
          (String.length (Prompt.generateSystemInstruction dentalContext)));
     Server.LiveConnect 1 (Prompt.generateSystemInstruction dentalContext);
     Server.ConsoleLog (Server.LogVoiceConnected "client-1");
     Server.SocketEmit "client-1" Server.EvVoiceConnected;
     Server.SocketEmit "client-1" Server.EvVoiceSessionStarted] /\
  List.filter serverIsErrorReport
    (snd (Server.run Server.atobLenient connectedWorld
            [Server.StartVoiceSession "client-1" "s1";
             Server.Upstream 1 Server.Open;
             Server.ConnectResolved 1])) = [] /\
  List.filter serverIsClose
    (snd (Server.run Server.atobLenient connectedWorld
            [Server.StartVoiceSession "client-1" "s1";
             Server.Upstream 1 Server.Open;
             Server.ConnectResolved 1])) = [] /\
  Server.activeVoiceSessions
    (fst (Server.run Server.atobLenient connectedWorld
            [Server.StartVoiceSession "client-1" "s1";
             Server.Upstream 1 Server.Open;
             Server.ConnectResolved 1])) !! "client-1" = Some 1 /\
  connectedAt
    (fst (Server.run Server.atobLenient connectedWorld
            [Server.StartVoiceSession "client-1" "s1";
             Server.Upstream 1 Server.Open;
             Server.ConnectResolved 1])) 0 = Some true.
Proof. vm_compute. repeat split. Qed.

(** C9, amended.  A ['start-voice-session'] for a stored agent session,
    on a connection that already has a voice session, opens one more
    upstream session with a handle of its own; when that connect resolves
    the registry entry of the connection is replaced by the new session and
    ['voice-session-started'] is emitted.  Nothing is reported as an error
    and the earlier session is neither closed nor changed. *)
Theorem second_start_opens_and_replaces :
  forall atob w socket sessionId sessionData h0 v0,
    Server.agentSessions w !! sessionId = Some sessionData ->
    Server.voiceSessionOf w socket = Some (h0, v0) ->
    let h1 := length (Server.closures w) in
    let r := Server.run atob w
               [Server.StartVoiceSession socket sessionId;
                Server.ConnectResolved h1] in
    snd r =
      [Server.ConsoleLog
         (Server.LogInstructionGenerated (Prompt.agentType sessionData)
            (length (Prompt.documents sessionData))
            (String.length (Prompt.generateSystemInstruction sessionData)));
       Server.LiveConnect h1 (Prompt.generateSystemInstruction sessionData);
       Server.SocketEmit socket Server.EvVoiceSessionStarted] /\
    h1 <> h0 /\
    Server.voiceSessionOf (fst r) socket
    = Some (h1, Server.setAwaited false (Server.newVoiceSession socket)) /\
    Server.closures (fst r) !! h0 = Some v0.
Proof.
  intros atob w socket sessionId sessionData h0 v0 S V h1 r.
  assert (L0 : Server.closures w !! h0 = Some v0).
  { unfold Server.voiceSessionOf in V.
    destruct (Server.activeVoiceSessions w !! socket) as [h|]; [|discriminate].
    cbn in V. destruct (Server.closures w !! h) as [v|] eqn:L; [|discriminate].
    cbn in V. now inversion V; subst. }
  assert (Hlt : h0 < h1) by (eapply lookup_lt_Some; exact L0).
  assert (L1 : (Server.closures w ++ [Server.newVoiceSession socket]) !! h1
               = Some (Server.newVoiceSession socket)).
  { unfold h1. rewrite lookup_app_r by lia. now rewrite Nat.sub_diag. }
  subst r. cbn [Server.run Server.step].
  unfold Server.startVoiceSession. rewrite S.
  unfold Server.createVoiceSession, Server.connectResolved.
  cbn [Server.withClosures Server.closures Server.activeVoiceSessions
       Server.agentSessions].
  fold h1. rewrite L1.
  cbn [Server.awaited Server.newVoiceSession Server.socketId fst snd app
       Server.withActive Server.withClosures Server.closures
       Server.activeVoiceSessions].
  split; [reflexivity|]. split; [lia|]. split.
  - unfold Server.voiceSessionOf.
    cbn [Server.activeVoiceSessions Server.closures Server.withActive
         Server.withClosures].
    rewrite lookup_insert_eq. cbn [mbind option_bind].
    rewrite list_lookup_insert_eq by (rewrite length_app; cbn; lia).
    reflexivity.
  - cbn [Server.activeVoiceSessions Server.closures Server.withActive
         Server.withClosures].
    rewrite list_lookup_insert_ne by lia.
    now rewrite lookup_app_l by lia.
Qed.

Lemma second_start_opens_and_replaces_witness :
  Server.agentSessions connectedWorld !! "s1" = Some dentalContext /\
  Server.voiceSessionOf connectedWorld "client-1" = Some (0, idleSession) /\
  Server.voiceSessionOf
    (fst (Server.run Server.atobLenient connectedWorld
            [Server.StartVoiceSession "client-1" "s1";
             Server.ConnectResolved (length (Server.closures connectedWorld))]))
    "client-1"
  = Some (length (Server.closures connectedWorld),
          Server.setAwaited false (Server.newVoiceSession "client-1")).
Proof.
  assert (S : Server.agentSessions connectedWorld !! "s1" = Some dentalContext)
    by (vm_compute; reflexivity).
  assert (V : Server.voiceSessionOf connectedWorld "client-1"
              = Some (0, idleSession)) by (vm_compute; reflexivity).
  refine (conj S (conj V _)).
  exact (proj1 (proj2 (proj2
           (second_start_opens_and_replaces Server.atobLenient connectedWorld
              "client-1" "s1" _ 0 idleSession S V)))).
Defined.

(** ** The system instruction *)

Lemma append_assoc (a b c : string) : (a +:+ b) +:+ c = a +:+ (b +:+ c).
Proof.
  induction a as [|x a IH]; [reflexivity|].
  exact (f_equal (String x) IH).
Qed.

Lemma append_nil_r (a : string) : a +:+ EmptyString = a.
Proof.
  induction a as [|x a IH]; [reflexivity|].
  exact (f_equal (String x) IH).
Qed.

Lemma append_nil_l (a : string) : EmptyString +:+ a = a.
Proof. reflexivity. Qed.

Lemma join_cons sep x l :
  Prompt.join sep (x :: l) =
  x +:+ fold_right (fun y acc => sep +:+ y +:+ acc) EmptyString l.
Proof.
  revert x. induction l as [|y l IH]; intros x.
  - simpl. now rewrite append_nil_r.
  - change (Prompt.join sep (x :: y :: l))
      with (x +:+ sep +:+ Prompt.join sep (y :: l)).
    rewrite IH. reflexivity.
Qed.

Lemma blocksAfter_fmap block after :
  fold_right (fun y acc => Prompt.nl +:+ y +:+ acc) EmptyString (block <$> after)
  = blocksAfter block after.
Proof.
  unfold blocksAfter. induction after as [|a after IH]; [reflexivity|].
  cbn [fmap list_fmap fold_right]. f_equal. f_equal. exact IH.
Qed.

Lemma separated_blocks_split block before doc after :
  fold_right (fun y acc => Prompt.nl +:+ y +:+ acc) EmptyString
    (block <$> (before ++ doc :: after))
  = Prompt.nl +:+ blocksBefore block before +:+ block doc
    +:+ blocksAfter block after.
Proof.
  induction before as [|b before IH].
  - cbn [app fmap list_fmap fold_right blocksBefore].
    rewrite append_nil_l. f_equal. f_equal. apply blocksAfter_fmap.
  - cbn [app fmap list_fmap fold_right blocksBefore].
    f_equal. rewrite !append_assoc. f_equal. exact IH.
Qed.

(** [join] around one element: what comes before it, the element, what
    comes after it. *)
Lemma join_blocks_split block before doc after :
  Prompt.join Prompt.nl (block <$> (before ++ doc :: after)) =
  blocksBefore block before +:+ block doc +:+ blocksAfter block after.
Proof.
  destruct before as [|b before].
  - cbn [app fmap list_fmap blocksBefore fold_right].
    rewrite join_cons, append_nil_l. f_equal. apply blocksAfter_fmap.
  - cbn [app fmap list_fmap blocksBefore fold_right].
    rewrite join_cons. rewrite !append_assoc. f_equal.
    apply separated_blocks_split.
Qed.

Lemma documentBlock_shape doc :
  Prompt.documentBlock doc =
  Prompt.nl +:+ "=== DOCUMENT: " +:+ Prompt.name doc +:+ " ===" +:+ Prompt.nl
  +:+ Prompt.content doc +:+ Prompt.nl +:+ Prompt.documentFooter +:+ Prompt.nl.
Proof.
  unfold Prompt.documentBlock, Prompt.text. cbn [Prompt.join String.append].
  now rewrite !append_assoc.
Qed.

Lemma contextBlock_shape doc :
  Prompt.contextBlock doc =
  Prompt.nl +:+ Prompt.name doc +:+ ":" +:+ Prompt.nl
  +:+ Prompt.content doc +:+ Prompt.nl.
Proof.
  unfold Prompt.contextBlock, Prompt.text. cbn [Prompt.join String.append].
  now rewrite !append_assoc.
Qed.

(** C10, as the specification states it, fails in its second part for
    the server.  The two contexts below, as ['/api/documents'] can store
    them, differ in their documents and yet build one and the same
    instruction, character for character: in the built string nothing
    tells the content of document [a] that goes on with a closing line and
    a header from a shorter content followed by another document. *)
Lemma documents_not_distinguishable :
  Prompt.generateSystemInstruction quotingContext
  = Prompt.generateSystemInstruction quotedContext /\
  Prompt.documents quotingContext <> Prompt.documents quotedContext /\
  ~ documentsRecoverable Prompt.generateSystemInstruction.
Proof.
  assert (E1 : Prompt.generateSystemInstruction quotingContext
               = Prompt.generateSystemInstruction quotedContext)
    by (vm_compute; reflexivity).
  assert (N1 : Prompt.documents quotingContext <> Prompt.documents quotedContext)
    by (vm_compute; discriminate).
  repeat apply conj; try assumption.
  intros R. exact (N1 (R _ _ E1)).
Qed.

Lemma occursIn_refl x : occursIn x x.
Proof. exists EmptyString, EmptyString. now rewrite append_nil_r. Qed.

Lemma occursIn_app_l x a b : occursIn x a -> occursIn x (a +:+ b).
Proof.
  intros (pre & post & ->). exists pre, (post +:+ b).
  now rewrite !append_assoc.
Qed.

Lemma occursIn_app_r x a b : occursIn x b -> occursIn x (a +:+ b).
Proof.
  intros (pre & post & ->). exists (a +:+ pre), post.
  now rewrite !append_assoc.
Qed.

(** Where a document lies in the two instructions: after the text before
    the documents and the blocks of the documents that precede it, before
    the blocks of those that follow and the closing text; and so its name
    and its content occur as they are. *)
Lemma instruction_block_structure :
  forall ctx before doc after,
    Prompt.documents ctx = before ++ doc :: after ->
    (Prompt.generateSystemInstruction ctx =
       (Prompt.text Prompt.instructionHead +:+ Prompt.agentType ctx
        +:+ Prompt.text Prompt.instructionKnowledge
        +:+ nat_to_string (length (Prompt.documents ctx))
        +:+ Prompt.text Prompt.instructionLibrary
        +:+ blocksBefore Prompt.documentBlock before)
       +:+ (Prompt.nl +:+ "=== DOCUMENT: " +:+ Prompt.name doc +:+ " ==="
            +:+ Prompt.nl +:+ Prompt.content doc +:+ Prompt.nl
            +:+ Prompt.documentFooter +:+ Prompt.nl)
       +:+ (blocksAfter Prompt.documentBlock after
            +:+ Prompt.text Prompt.instructionGuidelines)) /\
    (exists pre post,
        Prompt.contextInstruction ctx =
          (pre +:+ blocksBefore Prompt.contextBlock before)
          +:+ (Prompt.nl +:+ Prompt.name doc +:+ ":" +:+ Prompt.nl
               +:+ Prompt.content doc +:+ Prompt.nl)
          +:+ (blocksAfter Prompt.contextBlock after +:+ post)) /\
    occursIn (Prompt.name doc) (Prompt.generateSystemInstruction ctx) /\
    occursIn (Prompt.content doc) (Prompt.generateSystemInstruction ctx) /\
    occursIn (Prompt.name doc) (Prompt.contextInstruction ctx) /\
    occursIn (Prompt.content doc) (Prompt.contextInstruction ctx).
Proof.
  intros ctx before doc after D.
  assert (G : Prompt.generateSystemInstruction ctx =
       (Prompt.text Prompt.instructionHead +:+ Prompt.agentType ctx
        +:+ Prompt.text Prompt.instructionKnowledge
        +:+ nat_to_string (length (Prompt.documents ctx))
        +:+ Prompt.text Prompt.instructionLibrary
        +:+ blocksBefore Prompt.documentBlock before)
       +:+ (Prompt.nl +:+ "=== DOCUMENT: " +:+ Prompt.name doc +:+ " ==="
            +:+ Prompt.nl +:+ Prompt.content doc +:+ Prompt.nl
            +:+ Prompt.documentFooter +:+ Prompt.nl)
       +:+ (blocksAfter Prompt.documentBlock after
            +:+ Prompt.text Prompt.instructionGuidelines)).
  { unfold Prompt.generateSystemInstruction, Prompt.documentContent.
    generalize (nat_to_string (length (Prompt.documents ctx))).
    generalize (Prompt.text Prompt.instructionHead)
               (Prompt.text Prompt.instructionKnowledge)
               (Prompt.text Prompt.instructionLibrary)
               (Prompt.text Prompt.instructionGuidelines).
    intros a b c d n. rewrite D, join_blocks_split, documentBlock_shape.
    now rewrite !append_assoc. }
  assert (C : exists pre post,
        Prompt.contextInstruction ctx =
          (pre +:+ blocksBefore Prompt.contextBlock before)
          +:+ (Prompt.nl +:+ Prompt.name doc +:+ ":" +:+ Prompt.nl
               +:+ Prompt.content doc +:+ Prompt.nl)
          +:+ (blocksAfter Prompt.contextBlock after +:+ post)).
  { unfold Prompt.contextInstruction.
    match goal with
    | |- context [ ?a +:+ Prompt.agentType ctx +:+ ?b +:+ Prompt.join _ _ +:+ ?c ] =>
        exists (a +:+ Prompt.agentType ctx +:+ b), c;
        generalize a b c; intros x y z
    end.
    rewrite D, join_blocks_split, contextBlock_shape.
    now rewrite !append_assoc. }
  split; [exact G|]. split; [exact C|].
  destruct C as (pre & post & C).
  repeat apply conj.
  - rewrite G. apply occursIn_app_r, occursIn_app_l.
    do 2 apply occursIn_app_r. apply occursIn_app_l, occursIn_refl.
  - rewrite G. apply occursIn_app_r, occursIn_app_l.
    do 5 apply occursIn_app_r. apply occursIn_app_l, occursIn_refl.
  - rewrite C. apply occursIn_app_r, occursIn_app_l.
    apply occursIn_app_r. apply occursIn_app_l, occursIn_refl.
  - rewrite C. apply occursIn_app_r, occursIn_app_l.
    do 4 apply occursIn_app_r. apply occursIn_app_l, occursIn_refl.
Qed.


(** ** Reading the documents back *)

Lemma lines_nonempty s : lines s <> [].
Proof.
  destruct s as [|c s]; simpl; [discriminate|].
  destruct (isNewline c); [discriminate|].
  destruct (lines s); discriminate.
Qed.

Lemma isNewline_true c : isNewline c = true -> c = "010"%char.
Proof. unfold isNewline. apply Ascii.eqb_eq. Qed.

(** A line break between two texts keeps their lines apart. *)
Lemma lines_app_nl a b : lines (a +:+ Prompt.nl +:+ b) = lines a ++ lines b.
Proof.
  induction a as [|c a IH].
  - reflexivity.
  - change (String c a +:+ Prompt.nl +:+ b)
      with (String c (a +:+ Prompt.nl +:+ b)).
    cbn [lines]. rewrite IH. destruct (isNewline c); [reflexivity|].
    pose proof (lines_nonempty a) as N.
    destruct (lines a) as [|l ls]; [contradiction | reflexivity].
Qed.

Lemma lines_one_line s : noNewline s = true -> lines s = [s].
Proof.
  induction s as [|c s IH]; [reflexivity|].
  cbn [noNewline lines]. intros H. apply andb_prop in H as [Hc Hs].
  apply negb_true_iff in Hc. rewrite Hc, (IH Hs). reflexivity.
Qed.

Lemma join_lines s : Prompt.join Prompt.nl (lines s) = s.
Proof.
  induction s as [|c s IH]; [reflexivity|].
  cbn [lines]. pose proof (lines_nonempty s) as N.
  destruct (isNewline c) eqn:E.
  - apply isNewline_true in E. subst c.
    destruct (lines s) as [|l ls]; [contradiction|].
    change (Prompt.join Prompt.nl (EmptyString :: l :: ls))
      with (String "010"%char (Prompt.join Prompt.nl (l :: ls))).
    now rewrite IH.
  - destruct (lines s) as [|l ls]; [contradiction|].
    rewrite join_cons in *.
    change (String c l +:+ ?r) with (String c (l +:+ r)).
    now rewrite IH.
Qed.

Lemma noNewline_app a b :
  noNewline (a +:+ b) = noNewline a && noNewline b.
Proof.
  induction a as [|c a IH]; [reflexivity|].
  change (String c a +:+ b) with (String c (a +:+ b)).
  cbn [noNewline]. now rewrite IH, andb_assoc.
Qed.

Lemma length_append a b :
  String.length (a +:+ b) = String.length a + String.length b.
Proof.
  induction a as [|c a IH]; [reflexivity|].
  change (String c a +:+ b) with (String c (a +:+ b)).
  cbn [String.length]. now rewrite IH.
Qed.

Lemma append_cancel_r a a' s : a +:+ s = a' +:+ s -> a = a'.
Proof.
  revert a'. induction a as [|c a IH]; intros [|c' a'] E.
  - reflexivity.
  - apply (f_equal String.length) in E. rewrite !length_append in E.
    cbn [String.length] in E. lia.
  - apply (f_equal String.length) in E. rewrite !length_append in E.
    cbn [String.length] in E. lia.
  - change (String c (a +:+ s) = String c' (a' +:+ s)) in E.
    inversion E; subst. f_equal. now apply IH.
Qed.

Lemma append_cancel_l s a a' : s +:+ a = s +:+ a' -> a = a'.
Proof.
  induction s as [|c s IH]; intros E; [exact E|].
  change (String c (s +:+ a) = String c (s +:+ a')) in E.
  inversion E. now apply IH.
Qed.

(** Two lists that agree up to the first occurrence of a mark. *)
Lemma split_at_first_mark {A} (x : A) l1 l2 r1 r2 :
  ~ In x l1 -> ~ In x l2 ->
  l1 ++ x :: r1 = l2 ++ x :: r2 -> l1 = l2 /\ r1 = r2.
Proof.
  revert l2. induction l1 as [|a l1 IH]; intros [|b l2] N1 N2 E; simpl in *.
  - inversion E. auto.
  - inversion E; subst. exfalso. apply N2. now left.
  - inversion E; subst. exfalso. apply N1. now left.
  - inversion E; subst.
    destruct (IH l2) as [-> ->]; auto.
Qed.

Lemma lines_join x xs :
  lines (Prompt.join Prompt.nl (x :: xs)) = lines x ++ concat (lines <$> xs).
Proof.
  revert x. induction xs as [|y xs IH]; intros x.
  - cbn. now rewrite app_nil_r.
  - change (Prompt.join Prompt.nl (x :: y :: xs))
      with (x +:+ Prompt.nl +:+ Prompt.join Prompt.nl (y :: xs)).
    rewrite lines_app_nl, IH. reflexivity.
Qed.

Section Blocks.

(** A block format: an empty line, a header line made of the name between
    two fixed texts, the lines of the content, a closing line, and fixed
    lines after it. *)
Variables (before after closing : string) (trailer : list string).
Variable block : Prompt.Document -> string.

Hypothesis block_lines : forall d,
  noNewline (Prompt.name d) = true ->
  lines (block d) =
  EmptyString :: (before +:+ Prompt.name d +:+ after)
  :: lines (Prompt.content d) ++ closing :: trailer.

Lemma header_inj n n' :
  before +:+ n +:+ after = before +:+ n' +:+ after -> n = n'.
Proof.
  intros E. apply append_cancel_l in E. now apply append_cancel_r in E.
Qed.

Lemma document_lines_inj ds1 : forall ds2,
  wellDelimited closing ds1 -> wellDelimited closing ds2 ->
  concat (lines <$> (block <$> ds1)) = concat (lines <$> (block <$> ds2)) ->
  ds1 = ds2.
Proof.
  induction ds1 as [|d1 ds1 IH]; intros [|d2 ds2] W1 W2 E.
  - reflexivity.
  - inversion W2 as [|? ? [N2 _] _]; subst.
    cbn [fmap list_fmap concat] in E. rewrite (block_lines d2 N2) in E.
    discriminate.
  - inversion W1 as [|? ? [N1 _] _]; subst.
    cbn [fmap list_fmap concat] in E. rewrite (block_lines d1 N1) in E.
    discriminate.
  - inversion W1 as [|? ? [N1 F1] W1']; subst.
    inversion W2 as [|? ? [N2 F2] W2']; subst.
    cbn [fmap list_fmap concat] in E.
    rewrite (block_lines d1 N1), (block_lines d2 N2) in E.
    cbn [app] in E. injection E as Eh Er.
    apply header_inj in Eh.
    rewrite <- !app_assoc in Er. cbn [app] in Er.
    apply split_at_first_mark in Er as [Ec Er]; [|assumption..].
    apply app_inv_head in Er.
    f_equal.
    + apply (f_equal (Prompt.join Prompt.nl)) in Ec.
      rewrite !join_lines in Ec.
      destruct d1, d2; cbn in *; congruence.
    + now apply IH.
Qed.

(** The section built from the blocks tells the documents: two lists of
    documents whose names hold no line break and whose contents have no
    line equal to the closing line build the same section only if they are
    the same list. *)
Lemma blocks_tell_documents ds1 ds2 :
  wellDelimited closing ds1 -> wellDelimited closing ds2 ->
  Prompt.join Prompt.nl (block <$> ds1) = Prompt.join Prompt.nl (block <$> ds2) ->
  ds1 = ds2.
Proof.
  intros W1 W2 E. apply (f_equal lines) in E.
  destruct ds1 as [|d1 ds1], ds2 as [|d2 ds2].
  - reflexivity.
  - inversion W2 as [|? ? [N2 _] _]; subst.
    cbn [fmap list_fmap] in E. rewrite lines_join, (block_lines d2 N2) in E.
    cbn in E. injection E as E. destruct (lines (Prompt.content d2)); discriminate.
  - inversion W1 as [|? ? [N1 _] _]; subst.
    cbn [fmap list_fmap] in E. rewrite lines_join, (block_lines d1 N1) in E.
    cbn in E. injection E as E. destruct (lines (Prompt.content d1)); discriminate.
  - cbn [fmap list_fmap] in E. rewrite !lines_join in E.
    now apply document_lines_inj.
Qed.

End Blocks.

Lemma lines_app_nl_end a : lines (a +:+ Prompt.nl) = lines a ++ [EmptyString].
Proof.
  replace (a +:+ Prompt.nl) with (a +:+ Prompt.nl +:+ EmptyString)
    by now rewrite append_nil_r.
  apply lines_app_nl.
Qed.

Lemma documentBlock_lines d :
  noNewline (Prompt.name d) = true ->
  lines (Prompt.documentBlock d) =
  EmptyString :: ("=== DOCUMENT: " +:+ Prompt.name d +:+ " ===")
  :: lines (Prompt.content d) ++ Prompt.documentFooter :: [EmptyString].
Proof.
  intros N. rewrite documentBlock_shape.
  change (Prompt.nl +:+ ?x) with (EmptyString +:+ Prompt.nl +:+ x) at 1.
  rewrite lines_app_nl.
  rewrite <- (append_assoc "=== DOCUMENT: "), <- (append_assoc _ " ===").
  rewrite lines_app_nl, lines_app_nl, lines_app_nl_end.
  rewrite (lines_one_line ((_ +:+ _) +:+ _))
    by (rewrite !noNewline_app, N; reflexivity).
  rewrite append_assoc. reflexivity.
Qed.

Lemma contextBlock_lines d :
  noNewline (Prompt.name d) = true ->
  lines (Prompt.contextBlock d) =
  EmptyString :: (EmptyString +:+ Prompt.name d +:+ ":")
  :: lines (Prompt.content d) ++ EmptyString :: [].
Proof.
  intros N. rewrite contextBlock_shape.
  change (Prompt.nl +:+ ?x) with (EmptyString +:+ Prompt.nl +:+ x) at 1.
  rewrite lines_app_nl.
  rewrite <- (append_assoc (Prompt.name d) ":").
  rewrite lines_app_nl, lines_app_nl_end.
  rewrite (lines_one_line (_ +:+ _))
    by (rewrite !noNewline_app, N; reflexivity).
  reflexivity.
Qed.

Lemma string_of_uint_digits u :
  allDigits (NilEmpty.string_of_uint u) = true.
Proof. induction u; cbn; auto. Qed.

Lemma nat_to_string_digits n : allDigits (nat_to_string n) = true.
Proof. apply string_of_uint_digits. Qed.

(** Two numbers, each followed by a character that is not a digit. *)
Lemma digits_then_other a : forall b c x y,
  allDigits a = true -> allDigits b = true -> isDigit c = false ->
  a +:+ String c x = b +:+ String c y -> x = y.
Proof.
  induction a as [|d a IH]; intros [|e b] c x y Da Db Nc E.
  - now inversion E.
  - change (String c x = String e (b +:+ String c y)) in E.
    inversion E; subst. cbn in Db. rewrite Nc in Db. discriminate.
  - change (String d (a +:+ String c x) = String c y) in E.
    inversion E; subst. cbn in Da. rewrite Nc in Da. discriminate.
  - change (String d (a +:+ String c x) = String e (b +:+ String c y)) in E.
    inversion E; subst. cbn in Da, Db.
    apply andb_prop in Da as [_ Da]. apply andb_prop in Db as [_ Db].
    eapply IH; eauto.
Qed.

Lemma library_text_starts_with_space :
  exists r, Prompt.text Prompt.instructionLibrary = String " "%char r.
Proof. eexists. reflexivity. Qed.

(** The server's instruction tells the documents of two contexts with the
    same agent type apart, when the documents are well delimited. *)
Lemma same_instruction_same_documents c1 c2 :
  Prompt.agentType c1 = Prompt.agentType c2 ->
  wellDelimited Prompt.documentFooter (Prompt.documents c1) ->
  wellDelimited Prompt.documentFooter (Prompt.documents c2) ->
  Prompt.generateSystemInstruction c1 = Prompt.generateSystemInstruction c2 ->
  Prompt.documents c1 = Prompt.documents c2.
Proof.
  intros A W1 W2 E. unfold Prompt.generateSystemInstruction in E.
  rewrite A in E.
  destruct library_text_starts_with_space as [r Hr]. rewrite Hr in E.
  do 3 apply append_cancel_l in E.
  change (String " "%char r +:+ ?x) with (String " "%char (r +:+ x)) in E.
  apply digits_then_other in E;
    [|apply nat_to_string_digits|apply nat_to_string_digits|reflexivity].
  apply append_cancel_l, append_cancel_r in E.
  unfold Prompt.documentContent in E.
  exact (blocks_tell_documents "=== DOCUMENT: " " ===" Prompt.documentFooter
           [EmptyString] Prompt.documentBlock documentBlock_lines _ _ W1 W2 E).
Qed.

Lemma contextBlock_four_lines d :
  noNewline (Prompt.name d) = true -> noNewline (Prompt.content d) = true ->
  lines (Prompt.contextBlock d) =
  [EmptyString; Prompt.name d +:+ ":"; Prompt.content d; EmptyString].
Proof.
  intros N C. rewrite (contextBlock_lines d N), (lines_one_line _ C).
  reflexivity.
Qed.

Lemma context_lines_inj ds1 : forall ds2,
  singleLines ds1 -> singleLines ds2 ->
  concat (lines <$> (Prompt.contextBlock <$> ds1))
  = concat (lines <$> (Prompt.contextBlock <$> ds2)) ->
  ds1 = ds2.
Proof.
  induction ds1 as [|d1 ds1 IH]; intros [|d2 ds2] W1 W2 E.
  - reflexivity.
  - inversion W2 as [|? ? [N2 C2] _]; subst.
    cbn [fmap list_fmap concat] in E.
    rewrite (contextBlock_four_lines d2 N2 C2) in E. discriminate.
  - inversion W1 as [|? ? [N1 C1] _]; subst.
    cbn [fmap list_fmap concat] in E.
    rewrite (contextBlock_four_lines d1 N1 C1) in E. discriminate.
  - inversion W1 as [|? ? [N1 C1] W1']; subst.
    inversion W2 as [|? ? [N2 C2] W2']; subst.
    cbn [fmap list_fmap concat] in E.
    rewrite (contextBlock_four_lines d1 N1 C1),
            (contextBlock_four_lines d2 N2 C2) in E.
    cbn [app] in E. injection E as En Ec Er.
    apply append_cancel_r in En.
    f_equal; [destruct d1, d2; cbn in *; congruence | now apply IH].
Qed.

(** The template of final.js, whose names and contents are single lines
    read from the terminal: four lines to a block, so the instruction
    tells the documents of two contexts with the same agent type apart. *)
Lemma same_context_instruction_same_documents c1 c2 :
  Prompt.agentType c1 = Prompt.agentType c2 ->
  singleLines (Prompt.documents c1) -> singleLines (Prompt.documents c2) ->
  Prompt.contextInstruction c1 = Prompt.contextInstruction c2 ->
  Prompt.documents c1 = Prompt.documents c2.
Proof.
  intros A W1 W2 E. unfold Prompt.contextInstruction in E.
  rewrite A in E.
  do 3 apply append_cancel_l in E. apply append_cancel_r in E.
  apply (f_equal lines) in E.
  destruct (Prompt.documents c1) as [|d1 ds1], (Prompt.documents c2) as [|d2 ds2].
  - reflexivity.
  - inversion W2 as [|? ? [N2 C2] _]; subst.
    cbn [fmap list_fmap] in E.
    rewrite lines_join, (contextBlock_four_lines d2 N2 C2) in E. discriminate.
  - inversion W1 as [|? ? [N1 C1] _]; subst.
    cbn [fmap list_fmap] in E.
    rewrite lines_join, (contextBlock_four_lines d1 N1 C1) in E. discriminate.
  - cbn [fmap list_fmap] in E. rewrite !lines_join in E.
    now apply context_lines_inj.
Qed.

(** C10, amended.  For every context and every document of it, the
    instruction holds the document in a block of its own: its name in a
    header line, its full content as it is, in the server a closing rule
    line; the blocks follow one another in the order of the list, between
    the text before the documents and the closing text.  Name and content
    therefore occur verbatim.  The documents are set apart by these lines
    alone.  In the server, when no name holds a line break and no content
    has a line equal to the rule line, two contexts with the same agent
    type build the same instruction only if their documents are the same;
    in final.js the same holds for names and contents that are single
    lines, which is how they are read from the terminal. *)
Theorem instruction_holds_each_document :
  (forall ctx before doc after,
      Prompt.documents ctx = before ++ doc :: after ->
      (Prompt.generateSystemInstruction ctx =
         (Prompt.text Prompt.instructionHead +:+ Prompt.agentType ctx
          +:+ Prompt.text Prompt.instructionKnowledge
          +:+ nat_to_string (length (Prompt.documents ctx))
          +:+ Prompt.text Prompt.instructionLibrary
          +:+ blocksBefore Prompt.documentBlock before)
         +:+ (Prompt.nl +:+ "=== DOCUMENT: " +:+ Prompt.name doc +:+ " ==="
              +:+ Prompt.nl +:+ Prompt.content doc +:+ Prompt.nl
              +:+ Prompt.documentFooter +:+ Prompt.nl)
         +:+ (blocksAfter Prompt.documentBlock after
              +:+ Prompt.text Prompt.instructionGuidelines)) /\
      (exists pre post,
          Prompt.contextInstruction ctx =
            (pre +:+ blocksBefore Prompt.contextBlock before)
            +:+ (Prompt.nl +:+ Prompt.name doc +:+ ":" +:+ Prompt.nl
                 +:+ Prompt.content doc +:+ Prompt.nl)
            +:+ (blocksAfter Prompt.contextBlock after +:+ post)) /\
      occursIn (Prompt.name doc) (Prompt.generateSystemInstruction ctx) /\
      occursIn (Prompt.content doc) (Prompt.generateSystemInstruction ctx) /\
      occursIn (Prompt.name doc) (Prompt.contextInstruction ctx) /\
      occursIn (Prompt.content doc) (Prompt.contextInstruction ctx)) /\
  (forall c1 c2,
      Prompt.agentType c1 = Prompt.agentType c2 ->
      wellDelimited Prompt.documentFooter (Prompt.documents c1) ->
      wellDelimited Prompt.documentFooter (Prompt.documents c2) ->
      Prompt.generateSystemInstruction c1 = Prompt.generateSystemInstruction c2 ->
      Prompt.documents c1 = Prompt.documents c2) /\
  (forall c1 c2,
      Prompt.agentType c1 = Prompt.agentType c2 ->
      singleLines (Prompt.documents c1) ->
      singleLines (Prompt.documents c2) ->
      Prompt.contextInstruction c1 = Prompt.contextInstruction c2 ->
      Prompt.documents c1 = Prompt.documents c2).
Proof.
  split; [|split].
  - exact instruction_block_structure.
  - exact same_instruction_same_documents.
  - exact same_context_instruction_same_documents.
Qed.

Lemma dentalContext_wellDelimited :
  wellDelimited Prompt.documentFooter (Prompt.documents dentalContext) /\
  singleLines (Prompt.documents dentalContext).
Proof.
  split; repeat constructor; cbn; intuition discriminate.
Qed.

Lemma instruction_holds_each_document_witness :
  Prompt.documents dentalContext = [officeHours] ++ priceList :: [] /\
  occursIn "Price list" (Prompt.generateSystemInstruction dentalContext) /\
  occursIn "Cleaning: 80" (Prompt.generateSystemInstruction dentalContext) /\
  occursIn "Price list" (Prompt.contextInstruction dentalContext) /\
  occursIn "Cleaning: 80" (Prompt.contextInstruction dentalContext) /\
  wellDelimited Prompt.documentFooter (Prompt.documents dentalContext) /\
  singleLines (Prompt.documents dentalContext) /\
  Prompt.documents dentalContext = Prompt.documents dentalContext /\
  Prompt.documents dentalContext = Prompt.documents dentalContext.
Proof.
  pose proof instruction_holds_each_document as (S & I & I').
  pose proof dentalContext_wellDelimited as (W & W').
  refine (conj eq_refl _).
  destruct (S dentalContext [officeHours] priceList [] eq_refl)
    as (_ & _ & N & C & N' & C').
  exact (conj N (conj C (conj N' (conj C' (conj W (conj W'
           (conj (I dentalContext dentalContext eq_refl W W eq_refl)
                 (I' dentalContext dentalContext eq_refl W' W' eq_refl)))))))).
Defined.

(** * Further properties *)

(** ** The session store *)

Lemma agentSessions_postDocuments w sid docs :
  Server.agentSessions (Server.postDocuments w sid docs) =
  <[sid := {| Prompt.agentType :=
                Prompt.agentType (Server.sessionOrNew w sid);
              Prompt.documents := docs |}]> (Server.agentSessions w).
Proof. reflexivity. Qed.

Lemma agentSessions_postAgentType w sid ty :
  Server.agentSessions (Server.postAgentType w sid ty) =
  <[sid := {| Prompt.agentType := ty;
              Prompt.documents :=
                Prompt.documents (Server.sessionOrNew w sid) |}]>
    (Server.agentSessions w).
Proof. reflexivity. Qed.

Lemma sessionOrNew_postDocuments w sid docs :
  Server.sessionOrNew (Server.postDocuments w sid docs) sid =
  {| Prompt.agentType := Prompt.agentType (Server.sessionOrNew w sid);
     Prompt.documents := docs |}.
Proof.
  unfold Server.sessionOrNew at 1.
  now rewrite agentSessions_postDocuments, lookup_insert_eq.
Qed.

Lemma sessionOrNew_postAgentType w sid ty :
  Server.sessionOrNew (Server.postAgentType w sid ty) sid =
  {| Prompt.agentType := ty;
     Prompt.documents := Prompt.documents (Server.sessionOrNew w sid) |}.
Proof.
  unfold Server.sessionOrNew at 1.
  now rewrite agentSessions_postAgentType, lookup_insert_eq.
Qed.

Lemma world_eq w1 w2 :
  Server.agentSessions w1 = Server.agentSessions w2 ->
  Server.activeVoiceSessions w1 = Server.activeVoiceSessions w2 ->
  Server.closures w1 = Server.closures w2 -> w1 = w2.
Proof. destruct w1, w2; cbn; congruence. Qed.

(** X1.  The three session routes together.  Whatever was stored before,
    after the documents and the agent type have been posted for an id, in
    either order, the session read back for that id holds exactly that
    agent type and those documents, and the two orders leave the same
    store; every other id reads as before.  An id nothing was posted for
    reads as 404, and a first post of documents alone creates the session
    with the empty agent type. *)
Theorem session_store_round_trip :
  forall w sid ty docs,
    Http.getSession
      (fst (Http.postAgentType (fst (Http.postDocuments w sid docs)) sid ty)) sid
    = Http.SessionFound {| Prompt.agentType := ty; Prompt.documents := docs |} /\
    fst (Http.postAgentType (fst (Http.postDocuments w sid docs)) sid ty)
    = fst (Http.postDocuments (fst (Http.postAgentType w sid ty)) sid docs) /\
    (forall other, other <> sid ->
        Http.getSession
          (fst (Http.postAgentType (fst (Http.postDocuments w sid docs)) sid ty))
          other
        = Http.getSession w other) /\
    (Server.agentSessions w !! sid = None ->
     Http.getSession w sid = Http.Status404 "Session not found" /\
     Http.getSession (fst (Http.postDocuments w sid docs)) sid
     = Http.SessionFound {| Prompt.agentType := EmptyString;
                            Prompt.documents := docs |}).
Proof.
  intros w sid ty docs. cbn [Http.postAgentType Http.postDocuments fst].
  repeat apply conj.
  - unfold Http.getSession.
    now rewrite agentSessions_postAgentType, lookup_insert_eq,
      sessionOrNew_postDocuments.
  - apply world_eq; try reflexivity.
    repeat (rewrite agentSessions_postAgentType
            || rewrite agentSessions_postDocuments).
    rewrite sessionOrNew_postDocuments, sessionOrNew_postAgentType.
    cbn [Prompt.agentType Prompt.documents].
    now rewrite !insert_insert_eq.
  - intros other Hne. unfold Http.getSession.
    rewrite agentSessions_postAgentType, agentSessions_postDocuments.
    now rewrite !lookup_insert_ne by congruence.
  - intros N. unfold Http.getSession. rewrite N. split; [reflexivity|].
    rewrite agentSessions_postDocuments, lookup_insert_eq.
    unfold Server.sessionOrNew. now rewrite N.
Qed.

Lemma session_store_round_trip_witness :
  Server.agentSessions Server.emptyWorld !! "s1" = None /\
  Http.getSession Server.emptyWorld "s1" = Http.Status404 "Session not found" /\
  Http.getSession
    (fst (Http.postDocuments Server.emptyWorld "s1" [officeHours])) "s1"
  = Http.SessionFound {| Prompt.agentType := EmptyString;
                         Prompt.documents := [officeHours] |} /\
  "s2" <> "s1" /\
  Http.getSession
    (fst (Http.postAgentType
            (fst (Http.postDocuments connectedWorld "s1" [priceList]))
            "s1" "bakery")) "s2"
  = Http.getSession connectedWorld "s2".
Proof.
  assert (N : Server.agentSessions Server.emptyWorld !! "s1" = None)
    by reflexivity.
  assert (D : "s2" <> "s1") by discriminate.
  destruct (session_store_round_trip Server.emptyWorld "s1" "x" [officeHours])
    as (_ & _ & _ & E).
  destruct (session_store_round_trip connectedWorld "s1" "bakery" [priceList])
    as (_ & _ & O & _).
  exact (conj N (conj (proj1 (E N)) (conj (proj2 (E N))
           (conj D (O "s2" D))))).
Defined.

(** ** Sessions side by side *)

Lemma server_callback_identity atob v c :
  Server.socketId (fst (Server.callback atob v c)) = Server.socketId v /\
  Server.awaited (fst (Server.callback atob v c)) = Server.awaited v.
Proof.
  destruct c as [|m| |]; cbn; auto.
  unfold Server.onmessage.
  destruct (Msg.dispatch m); destruct (Server.isAIResponding v); cbn; auto.
Qed.

Lemma server_emitParts_own atob socket ps :
  List.filter (emitsElsewhere socket) (Server.emitParts atob socket ps) = [] /\
  List.filter isUpstreamCall (Server.emitParts atob socket ps) = [].
Proof.
  induction ps as [|p ps [IHe IHu]]; cbn [Server.emitParts]; [auto|].
  destruct (Msg.inlineData p) as [d|]; [|auto].
  destruct (Msg.truthy (Msg.data d)) as [a|]; [|auto].
  destruct (atob a); cbn; rewrite ?String.eqb_refl; cbn; auto.
Qed.

Lemma server_callback_own atob v c :
  List.filter (emitsElsewhere (Server.socketId v))
    (snd (Server.callback atob v c)) = [] /\
  List.filter isUpstreamCall (snd (Server.callback atob v c)) = [].
Proof.
  destruct c as [|m| |]; cbn; rewrite ?String.eqb_refl; cbn; auto.
  unfold Server.onmessage.
  destruct (Msg.dispatch m) as [ps| | |];
    destruct (Server.isAIResponding v); cbn; rewrite ?String.eqb_refl; cbn;
    auto; apply server_emitParts_own.
Qed.

Lemma callbacks_frame_step atob w h v c :
  Server.closures w !! h = Some v ->
  Server.agentSessions (fst (Server.step atob w (Server.Upstream h c)))
  = Server.agentSessions w /\
  Server.activeVoiceSessions (fst (Server.step atob w (Server.Upstream h c)))
  = Server.activeVoiceSessions w /\
  forall h', h' <> h ->
    Server.closures (fst (Server.step atob w (Server.Upstream h c))) !! h'
    = Server.closures w !! h'.
Proof.
  intros L. rewrite (server_upstream_at atob w h v c L). cbn [fst].
  repeat apply conj; try reflexivity.
  intros h' Hne. cbn. now apply list_lookup_insert_ne.
Qed.

(** X2.  A callback of one upstream session stays with its own client:
    it changes no stored agent session and no registry entry, leaves the
    closure of every other session as it is, emits to no socket but the
    one its session was created for, and calls no upstream session. *)
Theorem callbacks_stay_with_their_client :
  forall atob w h v c,
    Server.closures w !! h = Some v ->
    let r := Server.step atob w (Server.Upstream h c) in
    Server.agentSessions (fst r) = Server.agentSessions w /\
    Server.activeVoiceSessions (fst r) = Server.activeVoiceSessions w /\
    (forall h', h' <> h ->
        Server.closures (fst r) !! h' = Server.closures w !! h') /\
    List.filter (emitsElsewhere (Server.socketId v)) (snd r) = [] /\
    List.filter isUpstreamCall (snd r) = [].
Proof.
  intros atob w h v c L r. subst r.
  destruct (callbacks_frame_step atob w h v c L) as (A & B & C).
  rewrite (server_upstream_at atob w h v c L) in *. cbn [fst snd] in *.
  destruct (server_callback_own atob v c) as [He Hu].
  repeat apply conj; assumption.
Qed.

Lemma callbacks_stay_with_their_client_witness :
  Server.closures twoClients !! 0 = Some idleSession /\
  Server.closures
    (fst (Server.step Server.atobLenient twoClients
            (Server.Upstream 0 (Server.Message chunkA)))) !! 1
  = Server.closures twoClients !! 1 /\
  List.filter (emitsElsewhere "client-1")
    (snd (Server.step Server.atobLenient twoClients
            (Server.Upstream 0 (Server.Message chunkA)))) = [].
Proof.
  assert (L : Server.closures twoClients !! 0 = Some idleSession)
    by (vm_compute; reflexivity).
  destruct (callbacks_stay_with_their_client Server.atobLenient twoClients 0
              idleSession (Server.Message chunkA) L) as (_ & _ & O & E & _).
  exact (conj L (conj (O 1 (Nat.neq_succ_0 0)) E)).
Defined.

Lemma server_upstream_run_frame atob h cs : forall w,
  Server.agentSessions (fst (Server.run atob w (Server.Upstream h <$> cs)))
  = Server.agentSessions w /\
  Server.activeVoiceSessions
    (fst (Server.run atob w (Server.Upstream h <$> cs)))
  = Server.activeVoiceSessions w /\
  forall h', h' <> h ->
    Server.closures (fst (Server.run atob w (Server.Upstream h <$> cs))) !! h'
    = Server.closures w !! h'.
Proof.
  induction cs as [|c cs IH]; intros w; [cbn; auto|].
  cbn [fmap list_fmap Server.run].
  assert (S : Server.agentSessions (fst (Server.step atob w (Server.Upstream h c)))
              = Server.agentSessions w /\
              Server.activeVoiceSessions
                (fst (Server.step atob w (Server.Upstream h c)))
              = Server.activeVoiceSessions w /\
              forall h', h' <> h ->
                Server.closures (fst (Server.step atob w (Server.Upstream h c))) !! h'
                = Server.closures w !! h').
  { destruct (Server.closures w !! h) as [v|] eqn:L.
    - destruct (callbacks_frame_step atob w h v c L) as (A & B & C). auto.
    - cbn [Server.step]. unfold Server.upstream. rewrite L. cbn. auto. }
  destruct (Server.step atob w (Server.Upstream h c)) as [w1 o1].
  specialize (IH w1). destruct (Server.run atob w1 _) as [w2 o2].
  cbn [fst] in *. destruct S as (A & B & C), IH as (A' & B' & C').
  repeat apply conj; try congruence.
  intros h' Hne. now rewrite C', C.
Qed.

Lemma server_upstream_effects atob w h c :
  snd (Server.step atob w (Server.Upstream h c)) =
  match Server.closures w !! h with
  | Some v => snd (Server.callback atob v c)
  | None => []
  end.
Proof.
  cbn [Server.step]. unfold Server.upstream.
  destruct (Server.closures w !! h) as [v|]; [|reflexivity].
  now destruct (Server.callback atob v c).
Qed.

Lemma voiceSessionOf_same w w' socket h :
  Server.activeVoiceSessions w' !! socket = Server.activeVoiceSessions w !! socket ->
  Server.activeVoiceSessions w !! socket = Some h ->
  Server.closures w' !! h = Server.closures w !! h ->
  Server.voiceSessionOf w' socket = Server.voiceSessionOf w socket.
Proof.
  intros A R C. unfold Server.voiceSessionOf. rewrite A, R. cbn. now rewrite C.
Qed.

Lemma server_audio_effects_same w w' socket data thr :
  Server.voiceSessionOf w' socket = Server.voiceSessionOf w socket ->
  snd (Server.onAudioData w' socket data thr)
  = snd (Server.onAudioData w socket data thr).
Proof.
  intros V. unfold Server.onAudioData. rewrite V.
  destruct (Server.voiceSessionOf w socket) as [[h v]|]; [|reflexivity].
  destruct (Server.isConnected v && negb (Server.isAIResponding v)); reflexivity.
Qed.

(** X3.  Sessions do not disturb one another.  After any sequence of
    callbacks of one upstream session (messages, an error, a close) none
    of which ends in an exception, the closure of another session is what
    it was, each of its own callbacks has the effects it would have had,
    and the audio of its client is handled as it would have been. *)
Theorem other_sessions_unaffected :
  forall atob w h1 h2 cs,
    h1 <> h2 ->
    List.filter Server.isThrow
      (snd (Server.run atob w (Server.Upstream h1 <$> cs))) = [] ->
    let w' := fst (Server.run atob w (Server.Upstream h1 <$> cs)) in
    Server.closures w' !! h2 = Server.closures w !! h2 /\
    (forall c,
        snd (Server.step atob w' (Server.Upstream h2 c))
        = snd (Server.step atob w (Server.Upstream h2 c))) /\
    (forall socket data thr,
        Server.activeVoiceSessions w !! socket = Some h2 ->
        snd (Server.step atob w' (Server.AudioData socket data thr))
        = snd (Server.step atob w (Server.AudioData socket data thr))).
Proof.
  intros atob w h1 h2 cs Hne _ w'. subst w'.
  destruct (server_upstream_run_frame atob h1 cs w) as (_ & R & C).
  assert (C2 := C h2 (not_eq_sym Hne)).
  repeat apply conj.
  - exact C2.
  - intros c. now rewrite !server_upstream_effects, C2.
  - intros socket data thr A. rewrite !server_audio_step.
    apply server_audio_effects_same.
    apply (voiceSessionOf_same _ _ _ h2); [now rewrite R | exact A | exact C2].
Qed.

Lemma other_sessions_unaffected_witness :
  0 <> 1 /\
  List.filter Server.isThrow
    (snd (Server.run Server.atobLenient twoClients
            (Server.Upstream 0 <$>
               [Server.Message chunkA; Server.Error "upstream failed";
                Server.Close None]))) = [] /\
  Server.activeVoiceSessions twoClients !! "client-2" = Some 1 /\
  snd (Server.step Server.atobLenient
         (fst (Server.run Server.atobLenient twoClients
                 (Server.Upstream 0 <$>
                    [Server.Message chunkA; Server.Error "upstream failed";
                     Server.Close None])))
         (Server.AudioData "client-2" "UENN" false))
  = snd (Server.step Server.atobLenient twoClients
           (Server.AudioData "client-2" "UENN" false)).
Proof.
  assert (A : Server.activeVoiceSessions twoClients !! "client-2" = Some 1)
    by (vm_compute; reflexivity).
  assert (T : List.filter Server.isThrow
                (snd (Server.run Server.atobLenient twoClients
                        (Server.Upstream 0 <$>
                           [Server.Message chunkA;
                            Server.Error "upstream failed";
                            Server.Close None]))) = [])
    by (vm_compute; reflexivity).
  destruct (other_sessions_unaffected Server.atobLenient twoClients 0 1
              [Server.Message chunkA; Server.Error "upstream failed";
               Server.Close None] (Nat.neq_0_succ 0) T) as (_ & _ & F).
  exact (conj (Nat.neq_0_succ 0)
           (conj T (conj A (F "client-2" "UENN" false A)))).
Defined.

(** ** The registry *)

Lemma server_audio_world w socket data thr :
  fst (Server.onAudioData w socket data thr) = w.
Proof.
  unfold Server.onAudioData.
  destruct (Server.voiceSessionOf w socket) as [[h v]|]; [|reflexivity].
  destruct (Server.isConnected v && negb (Server.isAIResponding v)); reflexivity.
Qed.

Lemma voiceSessionOf_Some w socket h v :
  Server.voiceSessionOf w socket = Some (h, v) <->
  Server.activeVoiceSessions w !! socket = Some h /\
  Server.closures w !! h = Some v.
Proof.
  unfold Server.voiceSessionOf.
  destruct (Server.activeVoiceSessions w !! socket) as [h0|]; cbn.
  - destruct (Server.closures w !! h0) as [v0|] eqn:L; cbn.
    + split; [intros [= <- <-]; auto | intros [[= <-] E]; congruence].
    + split; [discriminate | intros [[= <-] E]; congruence].
  - split; [discriminate | intros [E _]; discriminate].
Qed.

Lemma registryConsistent_update w h v v' :
  registryConsistent w ->
  Server.closures w !! h = Some v ->
  Server.socketId v' = Server.socketId v -> Server.awaited v' = false ->
  registryConsistent (Server.withClosures (<[h := v']> (Server.closures w)) w).
Proof.
  intros I L S A socket h' R. cbn in *.
  destruct (I socket h' R) as (v0 & L0 & S0 & A0).
  destruct (Nat.eq_dec h' h) as [->|Hne].
  - exists v'. rewrite list_lookup_insert_eq by (eapply lookup_lt_Some; eauto).
    repeat split; [|assumption]. congruence.
  - exists v0. now rewrite list_lookup_insert_ne by congruence.
Qed.

Lemma registryConsistent_delete w socket :
  registryConsistent w ->
  registryConsistent
    (Server.withActive (delete socket (Server.activeVoiceSessions w)) w).
Proof.
  intros I s h R. cbn in *.
  apply lookup_delete_Some in R as [_ R]. exact (I s h R).
Qed.

(** Each handler keeps the registry consistent. *)
Lemma registryConsistent_step atob w e :
  registryConsistent w -> registryConsistent (fst (Server.step atob w e)).
Proof.
  intros I.
  destruct e as [sid docs|sid ty|sock sid|h|h msg|h c|sock d thr|sock st ct|sock ct];
    cbn [Server.step].
  - exact I.
  - exact I.
  - unfold Server.startVoiceSession.
    destruct (Server.agentSessions w !! sid) as [sd|]; [|exact I].
    intros s h R. cbn in *. destruct (I s h R) as (v & L & S & A).
    exists v. rewrite lookup_app_l by (eapply lookup_lt_Some; eauto). auto.
  - unfold Server.connectResolved.
    destruct (Server.closures w !! h) as [v|] eqn:L; [|exact I].
    destruct (Server.awaited v); [|exact I].
    intros s h' R. cbn in *.
    destruct (decide (Server.socketId v = s)) as [<-|Hs].
    + rewrite lookup_insert_eq in R. injection R as <-.
      exists (Server.setAwaited false v).
      rewrite list_lookup_insert_eq by (eapply lookup_lt_Some; eauto). auto.
    + rewrite lookup_insert_ne in R by assumption.
      destruct (I s h' R) as (v0 & L0 & S0 & A0).
      destruct (Nat.eq_dec h' h) as [->|Hne].
      * congruence.
      * exists v0. now rewrite list_lookup_insert_ne by congruence.
  - unfold Server.connectRejected.
    destruct (Server.closures w !! h) as [v|] eqn:L; [|exact I].
    destruct (Server.awaited v); [|exact I].
    cbn [fst]. now apply (registryConsistent_update w h v).
  - unfold Server.upstream.
    destruct (Server.closures w !! h) as [v|] eqn:L; [|exact I].
    destruct (server_callback_identity atob v c) as [S A].
    destruct (Server.callback atob v c) as [v' out]. cbn [fst] in *.
    intros s h' R. cbn in *.
    destruct (I s h' R) as (v0 & L0 & S0 & A0).
    destruct (Nat.eq_dec h' h) as [->|Hne].
    + exists v'. rewrite list_lookup_insert_eq by (eapply lookup_lt_Some; eauto).
      repeat split; congruence.
    + exists v0. now rewrite list_lookup_insert_ne by congruence.
  - now rewrite server_audio_world.
  - unfold Server.onStopVoiceSession.
    destruct (Server.voiceSessionOf w sock) as [[h v]|]; [|exact I].
    now apply registryConsistent_delete.
  - unfold Server.onDisconnect.
    destruct (Server.voiceSessionOf w sock) as [[h v]|]; [|exact I].
    now apply registryConsistent_delete.
Qed.

Lemma registryConsistent_run atob es : forall w,
  registryConsistent w -> registryConsistent (fst (Server.run atob w es)).
Proof.
  induction es as [|e es IH]; intros w I; [exact I|].
  cbn [Server.run]. pose proof (registryConsistent_step atob w e I) as I1.
  destruct (Server.step atob w e) as [w1 o1]. specialize (IH w1 I1).
  now destruct (Server.run atob w1 es).
Qed.

Lemma registryConsistent_empty : registryConsistent Server.emptyWorld.
Proof. intros s h R. cbn in R. now rewrite lookup_empty in R. Qed.

(** X4.  Whatever has happened since the server started, every
    connection id in [activeVoiceSessions] leads to a voice session that
    [createVoiceSession] made for that same connection and whose connect
    has resolved.  So when the audio of a client is passed upstream, it
    goes to the upstream session whose callbacks answer to that client,
    never to the session of another one. *)
Theorem registry_leads_to_own_session :
  forall atob es,
    let w := fst (Server.run atob Server.emptyWorld es) in
    registryConsistent w /\
    forall socket data thr h input,
      In (Server.SendRealtimeInput h input)
         (snd (Server.step atob w (Server.AudioData socket data thr))) ->
      exists v, Server.closures w !! h = Some v /\ Server.socketId v = socket.
Proof.
  intros atob es w.
  assert (I : registryConsistent w)
    by (apply registryConsistent_run, registryConsistent_empty).
  split; [exact I|].
  intros socket data thr h input.
  rewrite server_audio_step. unfold Server.onAudioData.
  destruct (Server.voiceSessionOf w socket) as [[h0 v0]|] eqn:V.
  - apply voiceSessionOf_Some in V as [R L].
    destruct (I socket h0 R) as (v & L' & S & _).
    destruct (Server.isConnected v0 && negb (Server.isAIResponding v0));
      cbn; intros H.
    + destruct H as [H|[H|[H|H]]]; try discriminate.
      * injection H as <- _. eauto.
      * destruct thr; cbn in H; intuition discriminate.
    + intuition discriminate.
  - cbn. intuition discriminate.
Qed.

Lemma registry_leads_to_own_session_witness :
  In (Server.SendRealtimeInput 1 (Audio "UENN" micMimeType))
     (snd (Server.step Server.atobLenient twoClients
             (Server.AudioData "client-2" "UENN" false))) /\
  exists v, Server.closures twoClients !! 1 = Some v /\
            Server.socketId v = "client-2".
Proof.
  assert (H : In (Server.SendRealtimeInput 1 (Audio "UENN" micMimeType))
                (snd (Server.step Server.atobLenient twoClients
                        (Server.AudioData "client-2" "UENN" false))))
    by (vm_compute; auto).
  split; [exact H|].
  exact (proj2 (registry_leads_to_own_session Server.atobLenient
                  [Server.PostAgentType "s1" "dental office";
                   Server.PostDocuments "s1" [officeHours; priceList];
                   Server.StartVoiceSession "client-1" "s1";
                   Server.Upstream 0 Server.Open;
                   Server.ConnectResolved 0;
                   Server.PostAgentType "s2" "bakery";
                   Server.StartVoiceSession "client-2" "s2";
                   Server.Upstream 1 Server.Open;
                   Server.ConnectResolved 1])
             "client-2" "UENN" false 1 (Audio "UENN" micMimeType) H).
Defined.

(** ** Calls on an upstream session *)

Lemma filter_nil_weaken {A} (P Q : A -> bool) l :
  (forall x, Q x = true -> P x = true) ->
  List.filter P l = [] -> List.filter Q l = [].
Proof.
  intros PQ. induction l as [|x l IH]; [reflexivity|]. cbn.
  destruct (P x) eqn:Px; [discriminate|]. intros H.
  destruct (Q x) eqn:Qx.
  - apply PQ in Qx. congruence.
  - now apply IH.
Qed.

Lemma callsUpstream_isUpstreamCall h e :
  callsUpstream h e = true -> isUpstreamCall e = true.
Proof. now destruct e. Qed.

Lemma server_callback_connected atob v c :
  Server.isConnected (fst (Server.callback atob v c)) =
  match c with
  | Server.Open => true
  | Server.Close _ => false
  | _ => Server.isConnected v
  end.
Proof.
  destruct c as [|m| |]; cbn; auto.
  unfold Server.onmessage.
  destruct (Msg.dispatch m); destruct (Server.isAIResponding v); cbn; auto.
Qed.

(** A session that is not connected stays so until its open callback, and
    no handler calls it meanwhile. *)
Lemma unconnected_step atob w h v e :
  Server.closures w !! h = Some v -> Server.isConnected v = false ->
  opens h e = false ->
  (exists v', Server.closures (fst (Server.step atob w e)) !! h = Some v' /\
              Server.isConnected v' = false) /\
  List.filter (callsUpstream h) (snd (Server.step atob w e)) = [].
Proof.
  intros L C O.
  assert (Hlt : h < length (Server.closures w)) by (eapply lookup_lt_Some; eauto).
  destruct e as [sid docs|sid ty|sock sid|h'|h' msg|h' c|sock d thr|sock st ct|sock ct];
    cbn [Server.step].
  - cbn. eauto.
  - cbn. eauto.
  - unfold Server.startVoiceSession.
    destruct (Server.agentSessions w !! sid) as [sd|]; cbn; [|eauto].
    rewrite lookup_app_l by assumption. eauto.
  - unfold Server.connectResolved.
    destruct (Server.closures w !! h') as [v'|] eqn:L'; [|cbn; eauto].
    destruct (Server.awaited v'); cbn; [|eauto].
    destruct (Nat.eq_dec h' h) as [->|Hne].
    + rewrite list_lookup_insert_eq by assumption.
      split; [|reflexivity]. eexists; split; [reflexivity|]. cbn. congruence.
    + rewrite list_lookup_insert_ne by assumption. eauto.
  - unfold Server.connectRejected.
    destruct (Server.closures w !! h') as [v'|] eqn:L'; [|cbn; eauto].
    destruct (Server.awaited v'); cbn; [|eauto].
    destruct (Nat.eq_dec h' h) as [->|Hne].
    + rewrite list_lookup_insert_eq by assumption.
      split; [|reflexivity]. eexists; split; [reflexivity|]. cbn. congruence.
    + rewrite list_lookup_insert_ne by assumption. eauto.
  - unfold Server.upstream.
    destruct (Server.closures w !! h') as [v'|] eqn:L'; [|cbn; eauto].
    pose proof (server_callback_connected atob v' c) as Hc.
    destruct (server_callback_own atob v' c) as [_ Hu].
    destruct (Server.callback atob v' c) as [v1 o1]. cbn [fst snd] in *.
    split.
    + destruct (Nat.eq_dec h' h) as [->|Hne]; cbn.
      * rewrite list_lookup_insert_eq by assumption.
        eexists; split; [reflexivity|]. rewrite Hc.
        assert (v' = v) by congruence. subst v'.
        destruct c; cbn in O; rewrite ?Nat.eqb_refl in O;
          try discriminate; auto.
      * rewrite list_lookup_insert_ne by assumption. eauto.
    + eapply filter_nil_weaken; [|exact Hu].
      intros x. apply callsUpstream_isUpstreamCall.
  - rewrite server_audio_world. split; [eauto|].
    unfold Server.onAudioData.
    destruct (Server.voiceSessionOf w sock) as [[h0 v0]|] eqn:V; [|reflexivity].
    apply voiceSessionOf_Some in V as [_ L0].
    destruct (Server.isConnected v0) eqn:C0; [|reflexivity].
    assert (Nat.eqb h0 h = false) as Hb.
    { apply Nat.eqb_neq. intros ->. congruence. }
    destruct (Server.isAIResponding v0), thr; cbn; rewrite ?Hb; reflexivity.
  - unfold Server.onStopVoiceSession.
    destruct (Server.voiceSessionOf w sock) as [[h0 v0]|] eqn:V; [|cbn; eauto].
    apply voiceSessionOf_Some in V as [_ L0]. cbn [fst snd].
    split; [cbn; eauto|].
    destruct (Server.isConnected v0) eqn:C0; [|reflexivity].
    assert (Nat.eqb h0 h = false) as Hb.
    { apply Nat.eqb_neq. intros ->. congruence. }
    destruct st, ct; cbn; rewrite ?Hb; reflexivity.
  - unfold Server.onDisconnect.
    destruct (Server.voiceSessionOf w sock) as [[h0 v0]|] eqn:V; [|cbn; eauto].
    apply voiceSessionOf_Some in V as [_ L0]. cbn [fst snd].
    split; [cbn; eauto|].
    destruct (Server.isConnected v0) eqn:C0; [|reflexivity].
    assert (Nat.eqb h0 h = false) as Hb.
    { apply Nat.eqb_neq. intros ->. congruence. }
    destruct ct; cbn; rewrite ?Hb; reflexivity.
Qed.

Lemma unconnected_run atob es : forall w h v,
  Server.closures w !! h = Some v -> Server.isConnected v = false ->
  Forall (fun e => opens h e = false) es ->
  List.filter (callsUpstream h) (snd (Server.run atob w es)) = [].
Proof.
  induction es as [|e es IH]; intros w h v L C F; [reflexivity|].
  inversion F as [|? ? O F']; subst. cbn [Server.run].
  destruct (unconnected_step atob w h v e L C O) as ((v1 & L1 & C1) & N).
  destruct (Server.step atob w e) as [w1 o1]. cbn [fst snd] in *.
  specialize (IH w1 h v1 L1 C1 F').
  destruct (Server.run atob w1 es) as [w2 o2]. cbn [snd] in *.
  now rewrite List.filter_app, N, IH.
Qed.

(** X5.  Nothing is sent to an upstream session, and it is not closed,
    while it is not connected.  From a state in which the session is not
    connected (before its open callback, or after its close callback),
    whatever the clients and the other sessions do, no handler calls
    [sendRealtimeInput] or [close] on it until its open callback runs.  In
    particular this holds from the ['start-voice-session'] that creates
    the session. *)
Theorem nothing_upstream_while_unconnected :
  (forall atob w h v es,
      Server.closures w !! h = Some v -> Server.isConnected v = false ->
      Forall (fun e => opens h e = false) es ->
      List.filter (callsUpstream h) (snd (Server.run atob w es)) = []) /\
  (forall atob w socket sessionId sessionData es,
      Server.agentSessions w !! sessionId = Some sessionData ->
      Forall (fun e => opens (length (Server.closures w)) e = false) es ->
      List.filter (callsUpstream (length (Server.closures w)))
        (snd (Server.run atob w
                (Server.StartVoiceSession socket sessionId :: es))) = []).
Proof.
  split.
  - intros atob w h v es. apply unconnected_run.
  - intros atob w socket sessionId sessionData es S F.
    cbn [Server.run Server.step]. unfold Server.startVoiceSession. rewrite S.
    unfold Server.createVoiceSession.
    set (w1 := Server.withClosures _ w).
    assert (L : Server.closures w1 !! length (Server.closures w)
                = Some (Server.newVoiceSession socket)).
    { subst w1. cbn. rewrite lookup_app_r by lia. now rewrite Nat.sub_diag. }
    pose proof (unconnected_run atob es w1 _ _ L eq_refl F) as N.
    destruct (Server.run atob w1 es) as [w2 o2]. cbn [snd] in *.
    cbn. exact N.
Qed.

Lemma nothing_upstream_while_unconnected_witness :
  Server.agentSessions connectedWorld !! "s1" = Some dentalContext /\
  Forall (fun e => opens (length (Server.closures connectedWorld)) e = false)
    [Server.ConnectResolved 1;
     Server.AudioData "client-1" "UENN" false;
     Server.StopVoiceSession "client-1" false false] /\
  List.filter (callsUpstream (length (Server.closures connectedWorld)))
    (snd (Server.run Server.atobLenient connectedWorld
            [Server.StartVoiceSession "client-1" "s1";
             Server.ConnectResolved 1;
             Server.AudioData "client-1" "UENN" false;
             Server.StopVoiceSession "client-1" false false])) = [].
Proof.
  assert (S : Server.agentSessions connectedWorld !! "s1" = Some dentalContext)
    by (vm_compute; reflexivity).
  assert (F : Forall (fun e => opens (length (Server.closures connectedWorld)) e
                               = false)
                [Server.ConnectResolved 1;
                 Server.AudioData "client-1" "UENN" false;
                 Server.StopVoiceSession "client-1" false false])
    by (repeat constructor).
  exact (conj S (conj F
           (proj2 nothing_upstream_while_unconnected Server.atobLenient
              connectedWorld "client-1" "s1" dentalContext _ S F))).
Defined.

(** ** Sessions that have left the registry *)

Lemma unregistered_step atob w h e :
  unregistered h w ->
  unregistered h (fst (Server.step atob w e)) /\
  List.filter (callsUpstream h) (snd (Server.step atob w e)) = [].
Proof.
  intros [U (v & L & A)].
  assert (Hlt : h < length (Server.closures w)) by (eapply lookup_lt_Some; eauto).
  assert (Vne : forall sock h0 v0,
             Server.voiceSessionOf w sock = Some (h0, v0) -> Nat.eqb h0 h = false).
  { intros sock h0 v0 V. apply voiceSessionOf_Some in V as [R _].
    apply Nat.eqb_neq. intros ->. exact (U sock R). }
  destruct e as [sid docs|sid ty|sock sid|h'|h' msg|h' c|sock d thr|sock st ct|sock ct];
    cbn [Server.step].
  - split; [|reflexivity]. split; cbn; eauto.
  - split; [|reflexivity]. split; cbn; eauto.
  - unfold Server.startVoiceSession.
    destruct (Server.agentSessions w !! sid) as [sd|]; cbn [fst snd].
    + split; [|reflexivity]. split; cbn; [exact U|].
      rewrite lookup_app_l by assumption. eauto.
    + split; [|reflexivity]. split; cbn; eauto.
  - unfold Server.connectResolved.
    destruct (Server.closures w !! h') as [v'|] eqn:L';
      [|split; [split; eauto | reflexivity]].
    destruct (Server.awaited v') eqn:A';
      [|split; [split; eauto | reflexivity]].
    assert (Hne : h' <> h) by (intros ->; congruence).
    cbn [fst snd]. split; [|reflexivity]. split; cbn.
    + intros sock R.
      destruct (decide (Server.socketId v' = sock)) as [<-|Hs].
      * rewrite lookup_insert_eq in R. congruence.
      * rewrite lookup_insert_ne in R by assumption. exact (U sock R).
    + rewrite list_lookup_insert_ne by assumption. eauto.
  - unfold Server.connectRejected.
    destruct (Server.closures w !! h') as [v'|] eqn:L';
      [|split; [split; eauto | reflexivity]].
    destruct (Server.awaited v') eqn:A';
      [|split; [split; eauto | reflexivity]].
    assert (Hne : h' <> h) by (intros ->; congruence).
    cbn [fst snd]. split; [|reflexivity]. split; cbn; [exact U|].
    rewrite list_lookup_insert_ne by assumption. eauto.
  - unfold Server.upstream.
    destruct (Server.closures w !! h') as [v'|] eqn:L';
      [|split; [split; eauto | reflexivity]].
    destruct (server_callback_identity atob v' c) as [_ Aw].
    destruct (server_callback_own atob v' c) as [_ Hu].
    destruct (Server.callback atob v' c) as [v1 o1]. cbn [fst snd] in *.
    split.
    + split; cbn; [exact U|].
      destruct (Nat.eq_dec h' h) as [->|Hne].
      * rewrite list_lookup_insert_eq by assumption.
        eexists; split; [reflexivity|]. congruence.
      * rewrite list_lookup_insert_ne by assumption. eauto.
    + eapply filter_nil_weaken; [|exact Hu].
      intros x. apply callsUpstream_isUpstreamCall.
  - rewrite server_audio_world. split; [split; eauto|].
    unfold Server.onAudioData.
    destruct (Server.voiceSessionOf w sock) as [[h0 v0]|] eqn:V; [|reflexivity].
    pose proof (Vne _ _ _ V) as Hb.
    destruct (Server.isConnected v0 && negb (Server.isAIResponding v0)), thr;
      cbn; rewrite ?Hb; reflexivity.
  - unfold Server.onStopVoiceSession.
    destruct (Server.voiceSessionOf w sock) as [[h0 v0]|] eqn:V;
      [|split; [split; eauto | reflexivity]].
    pose proof (Vne _ _ _ V) as Hb. cbn [fst snd]. split.
    + split; cbn; [|eauto]. intros s R.
      apply lookup_delete_Some in R as [_ R]. exact (U s R).
    + destruct (Server.isConnected v0), st, ct; cbn; rewrite ?Hb; reflexivity.
  - unfold Server.onDisconnect.
    destruct (Server.voiceSessionOf w sock) as [[h0 v0]|] eqn:V;
      [|split; [split; eauto | reflexivity]].
    pose proof (Vne _ _ _ V) as Hb. cbn [fst snd]. split.
    + split; cbn; [|eauto]. intros s R.
      apply lookup_delete_Some in R as [_ R]. exact (U s R).
    + destruct (Server.isConnected v0), ct; cbn; rewrite ?Hb; reflexivity.
Qed.

Lemma unregistered_run atob es : forall w h,
  unregistered h w ->
  List.filter (callsUpstream h) (snd (Server.run atob w es)) = [].
Proof.
  induction es as [|e es IH]; intros w h U; [reflexivity|].
  cbn [Server.run]. destruct (unregistered_step atob w h e U) as [U1 N].
  destruct (Server.step atob w e) as [w1 o1]. cbn [fst snd] in *.
  specialize (IH w1 h U1).
  destruct (Server.run atob w1 es) as [w2 o2]. cbn [snd] in *.
  now rewrite List.filter_app, N, IH.
Qed.

(** Removing the entry of a connection leaves its session unregistered. *)
Lemma unregistered_after_delete w socket h v :
  registryConsistent w ->
  Server.voiceSessionOf w socket = Some (h, v) ->
  unregistered h
    (Server.withActive (delete socket (Server.activeVoiceSessions w)) w).
Proof.
  intros I V. apply voiceSessionOf_Some in V as [R L].
  destruct (I socket h R) as (v' & L' & S & A).
  split; cbn.
  - intros s R'. apply lookup_delete_Some in R' as [Hne R'].
    destruct (I s h R') as (v'' & L'' & S'' & _). congruence.
  - eauto.
Qed.

Lemma voiceSessionOf_deleted w socket :
  Server.voiceSessionOf
    (Server.withActive (delete socket (Server.activeVoiceSessions w)) w) socket
  = None.
Proof. unfold Server.voiceSessionOf. cbn. now rewrite lookup_delete_eq. Qed.

(** X6.  Stopping a connected voice session: the handler signals the end
    of the audio stream and then closes the upstream session, in that
    order, and removes the entry of the connection, leaving the closures
    as they are.  Audio of that client that arrives afterwards is dropped
    as for an unknown session, a second stop does nothing, and whatever
    happens later no handler sends to that upstream session or closes it
    again. *)
Theorem stop_ends_input_closes_and_forgets :
  forall atob w socket h v data thr st ct es,
    registryConsistent w ->
    Server.voiceSessionOf w socket = Some (h, v) ->
    Server.isConnected v = true ->
    let w' := Server.withActive (delete socket (Server.activeVoiceSessions w)) w in
    Server.run atob w
      [Server.StopVoiceSession socket false false;
       Server.AudioData socket data thr;
       Server.StopVoiceSession socket st ct]
    = (w',
       [Server.SendRealtimeInput h AudioStreamEnd;
        Server.SessionClose h;
        Server.ConsoleLog
          (Server.LogReceivedAudio (bool_decide (data <> EmptyString))
             (String.length data));
        Server.ConsoleLog (Server.LogNotReady false None None)]) /\
    List.filter (callsUpstream h) (snd (Server.run atob w' es)) = [].
Proof.
  intros atob w socket h v data thr st ct es I V C w'. split.
  - cbn [Server.run Server.step]. unfold Server.onStopVoiceSession at 1.
    rewrite V, C. fold w'.
    unfold Server.onAudioData, Server.onStopVoiceSession. subst w'.
    rewrite voiceSessionOf_deleted. cbn iota beta zeta.
    rewrite voiceSessionOf_deleted. reflexivity.
  - apply unregistered_run. now apply (unregistered_after_delete w socket h v).
Qed.

Lemma connectedWorld_consistent : registryConsistent connectedWorld.
Proof. apply (registryConsistent_run Server.atobLenient), registryConsistent_empty. Qed.

Lemma stop_ends_input_closes_and_forgets_witness :
  registryConsistent connectedWorld /\
  Server.voiceSessionOf connectedWorld "client-1" = Some (0, idleSession) /\
  Server.isConnected idleSession = true /\
  snd (Server.run Server.atobLenient connectedWorld
         [Server.StopVoiceSession "client-1" false false;
          Server.AudioData "client-1" "UENN" false;
          Server.StopVoiceSession "client-1" false false])
  = [Server.SendRealtimeInput 0 AudioStreamEnd;
     Server.SessionClose 0;
     Server.ConsoleLog (Server.LogReceivedAudio true 4);
     Server.ConsoleLog (Server.LogNotReady false None None)].
Proof.
  assert (V : Server.voiceSessionOf connectedWorld "client-1"
              = Some (0, idleSession)) by (vm_compute; reflexivity).
  refine (conj connectedWorld_consistent (conj V (conj eq_refl _))).
  exact (f_equal snd
           (proj1 (stop_ends_input_closes_and_forgets Server.atobLenient
                     connectedWorld "client-1" 0 idleSession "UENN" false
                     false false [] connectedWorld_consistent V eq_refl))).
Defined.

(** X7.  When the end-of-stream send of a stop throws, the handler logs
    the error and never reaches [close]: the entry of the connection is
    removed all the same, the upstream session stays connected, and from
    then on no handler can close it. *)
Theorem failed_end_of_input_leaves_session_open :
  forall atob w socket h v ct es,
    registryConsistent w ->
    Server.voiceSessionOf w socket = Some (h, v) ->
    Server.isConnected v = true ->
    let r := Server.step atob w (Server.StopVoiceSession socket true ct) in
    snd r = [Server.SendRealtimeInput h AudioStreamEnd;
             Server.ConsoleError Server.ErrStopping] /\
    Server.activeVoiceSessions (fst r) !! socket = None /\
    connectedAt (fst r) h = Some true /\
    List.filter (callsUpstream h) (snd (Server.run atob (fst r) es)) = [].
Proof.
  intros atob w socket h v ct es I V C r. subst r.
  cbn [Server.step]. unfold Server.onStopVoiceSession. rewrite V, C.
  cbn [fst snd]. repeat apply conj.
  - reflexivity.
  - cbn. apply lookup_delete_eq.
  - apply voiceSessionOf_Some in V as [_ L].
    unfold connectedAt. cbn. now rewrite L, <- C.
  - apply unregistered_run. now apply (unregistered_after_delete w socket h v).
Qed.

Lemma failed_end_of_input_leaves_session_open_witness :
  registryConsistent connectedWorld /\
  Server.voiceSessionOf connectedWorld "client-1" = Some (0, idleSession) /\
  List.filter serverIsClose
    (snd (Server.step Server.atobLenient connectedWorld
            (Server.StopVoiceSession "client-1" true false))) = [] /\
  connectedAt
    (fst (Server.step Server.atobLenient connectedWorld
            (Server.StopVoiceSession "client-1" true false))) 0 = Some true.
Proof.
  assert (V : Server.voiceSessionOf connectedWorld "client-1"
              = Some (0, idleSession)) by (vm_compute; reflexivity).
  destruct (failed_end_of_input_leaves_session_open Server.atobLenient
              connectedWorld "client-1" 0 idleSession false []
              connectedWorld_consistent V eq_refl) as (E & _ & K & _).
  refine (conj connectedWorld_consistent (conj V (conj _ K))).
  rewrite E. reflexivity.
Defined.

Lemma start_then_resolved_world atob w socket sessionId sessionData :
  Server.agentSessions w !! sessionId = Some sessionData ->
  let h1 := length (Server.closures w) in
  fst (Server.run atob w
         [Server.StartVoiceSession socket sessionId; Server.ConnectResolved h1])
  = Server.withActive (<[socket := h1]> (Server.activeVoiceSessions w))
      (Server.withClosures
         (<[h1 := Server.setAwaited false (Server.newVoiceSession socket)]>
            (Server.closures w ++ [Server.newVoiceSession socket]))
         (Server.withClosures
            (Server.closures w ++ [Server.newVoiceSession socket]) w)).
Proof.
  intros S h1.
  assert (L1 : (Server.closures w ++ [Server.newVoiceSession socket]) !! h1
               = Some (Server.newVoiceSession socket)).
  { unfold h1. rewrite lookup_app_r by lia. now rewrite Nat.sub_diag. }
  cbn [Server.run Server.step]. unfold Server.startVoiceSession. rewrite S.
  unfold Server.createVoiceSession, Server.connectResolved.
  cbn [Server.withClosures Server.closures Server.activeVoiceSessions
       Server.agentSessions].
  fold h1. rewrite L1. reflexivity.
Qed.

(** X8.  A voice session replaced by a second ['start-voice-session'] of
    its connection is out of reach for good: once the new connect has
    resolved, no connection id leads to the first session, it is left as
    it was, and whatever happens later no handler sends to it or closes
    it. *)
Theorem replaced_session_out_of_reach :
  forall atob w socket sessionId sessionData h0 v0 es,
    registryConsistent w ->
    Server.agentSessions w !! sessionId = Some sessionData ->
    Server.voiceSessionOf w socket = Some (h0, v0) ->
    let w2 := fst (Server.run atob w
                     [Server.StartVoiceSession socket sessionId;
                      Server.ConnectResolved (length (Server.closures w))]) in
    (forall s, Server.activeVoiceSessions w2 !! s <> Some h0) /\
    Server.closures w2 !! h0 = Some v0 /\
    List.filter (callsUpstream h0) (snd (Server.run atob w2 es)) = [].
Proof.
  intros atob w socket sessionId sessionData h0 v0 es I S V w2.
  subst w2. rewrite (start_then_resolved_world atob w socket _ _ S).
  apply voiceSessionOf_Some in V as [R L].
  destruct (I socket h0 R) as (v & L' & Sv & Av).
  assert (v = v0) by congruence. subst v.
  assert (Hlt : h0 < length (Server.closures w)) by (eapply lookup_lt_Some; eauto).
  set (w2 := Server.withActive _ _).
  assert (U : unregistered h0 w2).
  { subst w2. split; cbn.
    - intros s Rs. destruct (decide (socket = s)) as [<-|Hs].
      + rewrite lookup_insert_eq in Rs. injection Rs as E. lia.
      + rewrite lookup_insert_ne in Rs by assumption.
        destruct (I s h0 Rs) as (v & Lv & Sv' & _). congruence.
    - exists v0. rewrite list_lookup_insert_ne by lia.
      now rewrite lookup_app_l by assumption. }
  split; [exact (proj1 U)|]. split.
  - subst w2. cbn. rewrite list_lookup_insert_ne by lia.
    now rewrite lookup_app_l by assumption.
  - now apply unregistered_run.
Qed.

Lemma replaced_session_out_of_reach_witness :
  registryConsistent connectedWorld /\
  Server.agentSessions connectedWorld !! "s1" = Some dentalContext /\
  Server.voiceSessionOf connectedWorld "client-1" = Some (0, idleSession) /\
  List.filter (callsUpstream 0)
    (snd (Server.run Server.atobLenient
            (fst (Server.run Server.atobLenient connectedWorld
                    [Server.StartVoiceSession "client-1" "s1";
                     Server.ConnectResolved
                       (length (Server.closures connectedWorld))]))
            [Server.Upstream 1 Server.Open;
             Server.AudioData "client-1" "UENN" false;
             Server.StopVoiceSession "client-1" false false;
             Server.Disconnect "client-1" false])) = [].
Proof.
  assert (S : Server.agentSessions connectedWorld !! "s1" = Some dentalContext)
    by (vm_compute; reflexivity).
  assert (V : Server.voiceSessionOf connectedWorld "client-1"
              = Some (0, idleSession)) by (vm_compute; reflexivity).
  refine (conj connectedWorld_consistent (conj S (conj V _))).
  exact (proj2 (proj2 (replaced_session_out_of_reach Server.atobLenient
                         connectedWorld "client-1" "s1" dentalContext 0
                         idleSession _ connectedWorld_consistent S V))).
Defined.

(** X9.  A disconnect forgets its connection and no other.  The handler
    never signals the end of the audio stream; it removes the entry of
    the connection whether or not [close] throws, touches no other entry
    and no closure, and calls no upstream session but the one registered
    for that connection.  For a connection without an entry it writes its
    console line and changes nothing. *)
Theorem disconnect_forgets_its_connection :
  forall atob w socket ct,
    registryConsistent w ->
    let r := Server.step atob w (Server.Disconnect socket ct) in
    Server.activeVoiceSessions (fst r) !! socket = None /\
    (forall other, other <> socket ->
        Server.activeVoiceSessions (fst r) !! other
        = Server.activeVoiceSessions w !! other) /\
    Server.closures (fst r) = Server.closures w /\
    List.filter isEndOfInput (snd r) = [] /\
    (forall h, Server.activeVoiceSessions w !! socket <> Some h ->
        List.filter (callsUpstream h) (snd r) = []) /\
    (Server.activeVoiceSessions w !! socket = None ->
     r = (w, [Server.ConsoleLog (Server.LogClientDisconnected socket)])).
Proof.
  intros atob w socket ct I r. subst r. cbn [Server.step].
  unfold Server.onDisconnect.
  destruct (Server.voiceSessionOf w socket) as [[h v]|] eqn:V.
  - apply voiceSessionOf_Some in V as [R L]. cbn [fst snd].
    repeat apply conj.
    + cbn. apply lookup_delete_eq.
    + intros other Hne. cbn. now apply lookup_delete_ne.
    + reflexivity.
    + destruct (Server.isConnected v), ct; reflexivity.
    + intros h' Hne.
      assert (Nat.eqb h h' = false) as Hb
        by (apply Nat.eqb_neq; congruence).
      destruct (Server.isConnected v), ct; cbn; rewrite ?Hb; reflexivity.
    + congruence.
  - cbn [fst snd].
    assert (N : Server.activeVoiceSessions w !! socket = None).
    { destruct (Server.activeVoiceSessions w !! socket) as [h|] eqn:R;
        [|reflexivity].
      destruct (I socket h R) as (v & L & _).
      assert (Server.voiceSessionOf w socket = Some (h, v))
        by (now apply voiceSessionOf_Some).
      congruence. }
    repeat apply conj; auto.
Qed.

Lemma disconnect_forgets_its_connection_witness :
  registryConsistent twoClients /\
  "client-2" <> "client-1" /\
  Server.activeVoiceSessions
    (fst (Server.step Server.atobLenient twoClients
            (Server.Disconnect "client-1" true))) !! "client-1" = None /\
  Server.activeVoiceSessions
    (fst (Server.step Server.atobLenient twoClients
            (Server.Disconnect "client-1" true))) !! "client-2"
  = Server.activeVoiceSessions twoClients !! "client-2" /\
  Server.activeVoiceSessions Server.emptyWorld !! "client-1" = None /\
  Server.step Server.atobLenient Server.emptyWorld
    (Server.Disconnect "client-1" false)
  = (Server.emptyWorld,
     [Server.ConsoleLog (Server.LogClientDisconnected "client-1")]).
Proof.
  assert (I : registryConsistent twoClients)
    by (apply (registryConsistent_run Server.atobLenient),
          connectedWorld_consistent).
  assert (D : "client-2" <> "client-1") by discriminate.
  destruct (disconnect_forgets_its_connection Server.atobLenient twoClients
              "client-1" true I) as (N & O & _).
  destruct (disconnect_forgets_its_connection Server.atobLenient
              Server.emptyWorld "client-1" false registryConsistent_empty)
    as (_ & _ & _ & _ & _ & E).
  exact (conj I (conj D (conj N (conj (O _ D) (conj eq_refl (E eq_refl)))))).
Defined.

(** ** Messages at the edges *)

Lemma server_emitParts_no_usage atob socket ps :
  List.filter isTokenUsage (Server.emitParts atob socket ps) = [].
Proof.
  induction ps as [|p ps IH]; cbn [Server.emitParts]; [reflexivity|].
  destruct (Msg.inlineData p) as [d|]; [|exact IH].
  destruct (Msg.truthy (Msg.data d)) as [a|]; [|exact IH].
  destruct (atob a); cbn; auto.
Qed.

Lemma cli_writeParts_no_usage ps :
  List.filter cliIsTokenUsage (Cli.writeParts ps) = [].
Proof.
  unfold Cli.writeParts.
  induction (omap Msg.partData ps) as [|d l IH]; [reflexivity | exact IH].
Qed.

Lemma server_onmessage_usage atob v m :
  length (List.filter isTokenUsage (snd (Server.onmessage atob v m)))
  = Nat.b2n (isUsageOnly m).
Proof.
  unfold Server.onmessage, isUsageOnly.
  destruct (Msg.dispatch m) as [ps| | |];
    destruct (Server.isAIResponding v); cbn;
    rewrite ?server_emitParts_no_usage; reflexivity.
Qed.

Lemma cli_onmessage_usage s m :
  length (List.filter cliIsTokenUsage (snd (Cli.onmessage s m)))
  = Nat.b2n (isUsageOnly m).
Proof.
  unfold Cli.onmessage, isUsageOnly.
  destruct (Msg.dispatch m) as [ps| | |];
    destruct (Cli.isAIResponding s); cbn;
    rewrite ?cli_writeParts_no_usage; reflexivity.
Qed.

Lemma isUsageOnly_spec m :
  isUsageOnly m = true <->
  Msg.modelTurnParts m = None /\ Msg.serverTurnComplete m = false /\
  exists u, Msg.usageMetadata m = Some u.
Proof.
  unfold isUsageOnly, Msg.dispatch.
  destruct (Msg.modelTurnParts m) as [ps|].
  - split; [discriminate | intros [E _]; discriminate].
  - destruct (Msg.serverTurnComplete m).
    + split; [discriminate | intros (_ & E & _); discriminate].
    + destruct (Msg.usageMetadata m) as [u|].
      * split; eauto.
      * split; [discriminate | intros (_ & _ & u & E); discriminate].
Qed.

(** X10.  Token usage is reported once for every message that carries
    [usageMetadata] and neither parts nor a turn-complete mark, and for no
    other: usage carried by an audio message or by a turn-complete message
    is never reported.  This holds for the ['token-usage'] events of the
    server over any run of messages of a session whose payloads [atob]
    takes, and for the console line of the command line relay. *)
Theorem usage_reported_for_usage_only_messages :
  (forall m,
      isUsageOnly m = true <->
      Msg.modelTurnParts m = None /\ Msg.serverTurnComplete m = false /\
      exists u, Msg.usageMetadata m = Some u) /\
  (forall atob ms v,
      accepts atob (concat (Msg.chunks <$> ms)) ->
      length (List.filter isTokenUsage
                (snd (Server.deliver atob v (Server.Message <$> ms))))
      = length (List.filter isUsageOnly ms)) /\
  (forall ms s,
      Cli.exited s = false ->
      length (List.filter cliIsTokenUsage
                (snd (Cli.run s (Cli.OnMessage <$> ms))))
      = length (List.filter isUsageOnly ms)).
Proof.
  split; [exact isUsageOnly_spec|]. split.
  - intros atob ms v _. revert v.
    induction ms as [|m ms IH]; intros v; [reflexivity|].
    cbn [fmap list_fmap Server.deliver Server.callback].
    pose proof (server_onmessage_usage atob v m) as Hm.
    destruct (Server.onmessage atob v m) as [v1 o1]. specialize (IH v1).
    destruct (Server.deliver atob v1 _) as [v2 o2]. cbn [snd] in *.
    rewrite List.filter_app, List.length_app, Hm, IH. cbn.
    destruct (isUsageOnly m); reflexivity.
  - intros ms. induction ms as [|m ms IH]; intros s X; [reflexivity|].
    cbn [fmap list_fmap Cli.run]. unfold Cli.step. rewrite X.
    pose proof (cli_onmessage_usage s m) as Hm.
    pose proof (cli_onmessage_exited s m) as Ex.
    destruct (Cli.onmessage s m) as [s1 o1]. cbn [fst snd] in *.
    rewrite X in Ex. specialize (IH s1 Ex).
    destruct (Cli.run s1 _) as [s2 o2]. cbn [snd] in *.
    rewrite List.filter_app, List.length_app, Hm, IH. cbn.
    destruct (isUsageOnly m); reflexivity.
Qed.

Lemma usage_reported_for_usage_only_messages_witness :
  accepts Server.atobLenient
    (concat (Msg.chunks <$> [busyMessage; Msg.usageMessage 7])) /\
  Cli.exited idleCli = false /\
  length (List.filter cliIsTokenUsage
            (snd (Cli.run idleCli
                    (Cli.OnMessage <$> [busyMessage; Msg.usageMessage 7]))))
  = 1 /\
  length (List.filter isTokenUsage
            (snd (Server.deliver Server.atobLenient idleSession
                    (Server.Message <$> [busyMessage; Msg.usageMessage 7]))))
  = 1.
Proof.
  destruct usage_reported_for_usage_only_messages as (_ & S & C).
  assert (Acc : accepts Server.atobLenient
                  (concat (Msg.chunks <$> [busyMessage; Msg.usageMessage 7])))
    by (repeat constructor; eexists; reflexivity).
  exact (conj Acc (conj eq_refl
           (conj (C [busyMessage; Msg.usageMessage 7] idleCli eq_refl)
                 (S Server.atobLenient [busyMessage; Msg.usageMessage 7]
                    idleSession Acc)))).
Defined.

Lemma dispatch_parts m ps :
  Msg.modelTurnParts m = Some ps -> Msg.dispatch m = Msg.AudioChunk ps.
Proof. unfold Msg.dispatch. now intros ->. Qed.

(** X11.  A message with parts puts the session in the responding state
    whatever else it carries: a [turnComplete] mark on that same message
    is not acted on.  After it the flag is set, no unmute signal has been
    given and the next capture frame is not passed upstream; only a later
    message without parts can end the turn. *)
Theorem parts_outrank_turn_complete :
  (forall atob w socket h v m ps data thr,
      Server.voiceSessionOf w socket = Some (h, v) ->
      Msg.modelTurnParts m = Some ps ->
      let r := Server.run atob w
                 [Server.Upstream h (Server.Message m);
                  Server.AudioData socket data thr] in
      respondingAt (fst r) h = Some true /\
      List.filter Server.isUnmute (snd r) = [] /\
      List.filter Server.isSend (snd r) = []) /\
  (forall s m ps chunk thr,
      Cli.exited s = false ->
      Msg.modelTurnParts m = Some ps ->
      let r := Cli.run s [Cli.OnMessage m; Cli.MicData chunk thr] in
      Cli.isAIResponding (fst r) = true /\
      List.filter Cli.isUnmute (snd r) = [] /\
      List.filter Cli.isSend (snd r) = []).
Proof.
  split.
  - intros atob w socket h v m ps data thr V P r. subst r.
    apply dispatch_parts in P.
    apply voiceSessionOf_Some in V as [R L].
    assert (Hlt : h < length (Server.closures w)) by (eapply lookup_lt_Some; eauto).
    cbn [Server.run]. rewrite (server_upstream_at atob w h v _ L).
    cbn [Server.callback]. rewrite (server_onmessage_audio atob v m ps P).
    cbn [fst snd]. set (w1 := Server.withClosures _ w).
    assert (V1 : Server.voiceSessionOf w1 socket
                 = Some (h, Server.setAIResponding true v)).
    { apply voiceSessionOf_Some. subst w1. cbn. split; [exact R|].
      now apply list_lookup_insert_eq. }
    cbn [Server.step]. unfold Server.onAudioData. rewrite V1.
    cbn [Server.setAIResponding Server.isAIResponding Server.isConnected].
    rewrite andb_false_r. cbn [fst snd].
    destruct (server_emitParts_signals atob (Server.socketId v) ps) as [_ Hu].
    repeat apply conj.
    + unfold respondingAt. subst w1. cbn.
      now rewrite list_lookup_insert_eq by assumption.
    + rewrite !List.filter_app, Hu.
      destruct (Server.isAIResponding v); reflexivity.
    + rewrite !List.filter_app.
      assert (Hs : List.filter Server.isSend
                     (Server.emitParts atob (Server.socketId v) ps) = []).
      { destruct (server_emitParts_own atob (Server.socketId v) ps) as [_ Hc].
        eapply filter_nil_weaken; [|exact Hc]. now intros []. }
      rewrite Hs. destruct (Server.isAIResponding v); reflexivity.
  - intros s m ps chunk thr X P r. subst r.
    apply dispatch_parts in P.
    cbn [Cli.run]. unfold Cli.step. rewrite X.
    rewrite (cli_onmessage_audio s m ps P).
    cbn [Cli.setAIResponding Cli.exited]. rewrite X.
    unfold Cli.onMicData.
    cbn [Cli.isAIResponding Cli.isConnected Cli.sessionBound].
    rewrite andb_false_r.
    destruct (cli_writeParts_signals ps) as [_ Hu].
    assert (Hs : List.filter Cli.isSend (Cli.writeParts ps) = []).
    { unfold Cli.writeParts.
      induction (omap Msg.partData ps) as [|d l IH]; [reflexivity | exact IH]. }
    revert Hu Hs. generalize (Cli.writeParts ps). intros l Hu Hs.
    destruct s as [[] conn [] ex]; cbn;
      rewrite ?List.filter_app, ?Hu, ?Hs; repeat split; reflexivity.
Qed.

Lemma parts_outrank_turn_complete_witness :
  Server.voiceSessionOf connectedWorld "client-1" = Some (0, idleSession) /\
  Msg.serverTurnComplete busyMessage = true /\
  Msg.modelTurnParts busyMessage = Some [Msg.audioPart "QUFB" None] /\
  respondingAt
    (fst (Server.run Server.atobLenient connectedWorld
            [Server.Upstream 0 (Server.Message busyMessage);
             Server.AudioData "client-1" "UENN" false])) 0 = Some true /\
  Cli.exited idleCli = false /\
  List.filter Cli.isSend
    (snd (Cli.run idleCli [Cli.OnMessage busyMessage; Cli.MicData "UENN" false]))
  = [].
Proof.
  assert (V : Server.voiceSessionOf connectedWorld "client-1"
              = Some (0, idleSession)) by (vm_compute; reflexivity).
  destruct parts_outrank_turn_complete as (S & C).
  exact (conj V (conj eq_refl (conj eq_refl
           (conj (proj1 (S Server.atobLenient connectedWorld "client-1" 0
                           idleSession busyMessage _ "UENN" false V eq_refl))
              (conj eq_refl
                 (proj2 (proj2 (C idleCli busyMessage _ "UENN" false
                                  eq_refl eq_refl)))))))).
Defined.

Lemma server_emitParts_app atob socket ps1 ps2 :
  accepts atob (omap Msg.partData ps1) ->
  Server.emitParts atob socket (ps1 ++ ps2) =
  Server.emitParts atob socket ps1 ++ Server.emitParts atob socket ps2.
Proof.
  unfold accepts.
  induction ps1 as [|[[d|]] ps1 IH]; [reflexivity| |exact IH].
  cbn [omap list_omap Server.emitParts Msg.partData Msg.inlineData app].
  destruct (Msg.truthy (Msg.data d)) as [a|]; [|exact IH].
  intros F. inversion F as [|? ? [b Hb] F']; subst.
  rewrite Hb. cbn [app]. now rewrite IH.
Qed.

Lemma server_emitParts_refused atob socket p d ps :
  Msg.partData p = Some d -> atob d = None ->
  Server.emitParts atob socket (p :: ps)
  = [Server.Throws "InvalidCharacterError"].
Proof.
  destruct p as [[i|]]; cbn [Msg.partData Msg.inlineData Server.emitParts];
    [|discriminate].
  intros -> ->. reflexivity.
Qed.

(** X12.  In the server, a part whose payload [atob] refuses ends the
    handling of its message: the parts before it have been sent to the
    client, the exception is the last thing that happens, and the parts
    after it are never sent, although the session is in the responding
    state by then.  The command line relay does not decode with [atob]
    and writes every payload of the message to the speaker. *)
Theorem refused_payload_ends_the_message :
  (forall atob v m ps1 p d ps2,
      Msg.modelTurnParts m = Some (ps1 ++ p :: ps2) ->
      accepts atob (omap Msg.partData ps1) ->
      Msg.partData p = Some d -> atob d = None ->
      Server.isAIResponding (fst (Server.onmessage atob v m)) = true /\
      Server.emitted (snd (Server.onmessage atob v m)) = omap Msg.partData ps1 /\
      exists out,
        snd (Server.onmessage atob v m)
        = out ++ [Server.Throws "InvalidCharacterError"] /\
        List.filter Server.isThrow out = []) /\
  (forall s m ps1 p d ps2,
      Msg.modelTurnParts m = Some (ps1 ++ p :: ps2) ->
      Msg.partData p = Some d ->
      Cli.played (snd (Cli.onmessage s m))
      = omap Msg.partData ps1 ++ d :: omap Msg.partData ps2).
Proof.
  split.
  - intros atob v m ps1 p d ps2 P Acc Pd Ad.
    apply dispatch_parts in P.
    rewrite (server_onmessage_audio atob v m _ P). cbn [fst snd].
    rewrite (server_emitParts_app atob _ ps1 _ Acc).
    rewrite (server_emitParts_refused atob _ p d ps2 Pd Ad).
    pose proof (server_emitParts_emitted atob (Server.socketId v) ps1 Acc) as E.
    pose proof (server_emitParts_no_throw atob (Server.socketId v) ps1 Acc) as T.
    repeat apply conj.
    + reflexivity.
    + rewrite !emitted_app, E.
      destruct (Server.isAIResponding v); cbn; now rewrite app_nil_r.
    + eexists. rewrite app_assoc. split; [reflexivity|].
      rewrite List.filter_app.
      rewrite T.
      destruct (Server.isAIResponding v); reflexivity.
  - intros s m ps1 p d ps2 P Pd. apply dispatch_parts in P.
    rewrite cli_onmessage_played. unfold Msg.chunks.
    apply (f_equal (fun b => match b with Msg.AudioChunk q => Some q | _ => None end))
      in P.
    assert (Q : Msg.modelTurnParts m = Some (ps1 ++ p :: ps2)).
    { unfold Msg.dispatch in P.
      destruct (Msg.modelTurnParts m); [exact P|].
      destruct (Msg.serverTurnComplete m); [discriminate|].
      destruct (Msg.usageMetadata m); discriminate. }
    rewrite Q, omap_app. cbn [omap list_omap]. now rewrite Pd.
Qed.

Lemma refused_payload_ends_the_message_witness :
  Msg.modelTurnParts threeParts
  = Some ([Msg.audioPart "QUFB" None] ++ Msg.audioPart "%%" None
          :: [Msg.audioPart "QkJC" None]) /\
  accepts atobRefusing (omap Msg.partData [Msg.audioPart "QUFB" None]) /\
  atobRefusing "%%" = None /\
  Server.emitted (snd (Server.onmessage atobRefusing idleSession threeParts))
  = ["QUFB"] /\
  Cli.played (snd (Cli.onmessage idleCli threeParts))
  = ["QUFB"; "%%"; "QkJC"].
Proof.
  destruct refused_payload_ends_the_message as (S & C).
  assert (Acc : accepts atobRefusing
                  (omap Msg.partData [Msg.audioPart "QUFB" None]))
    by (repeat constructor; eexists; reflexivity).
  exact (conj eq_refl (conj Acc (conj eq_refl
           (conj (proj1 (proj2 (S atobRefusing idleSession threeParts
                                  [Msg.audioPart "QUFB" None]
                                  (Msg.audioPart "%%" None) "%%"
                                  [Msg.audioPart "QkJC" None]
                                  eq_refl Acc eq_refl eq_refl)))
                 (C idleCli threeParts [Msg.audioPart "QUFB" None]
                    (Msg.audioPart "%%" None) "%%"
                    [Msg.audioPart "QkJC" None] eq_refl eq_refl))))).
Defined.

Lemma truthy_nonempty s a :
  Msg.truthy s = Some a -> String.eqb a EmptyString = false.
Proof.
  destruct s as [[|c s]|]; cbn; try discriminate. now intros [= <-].
Qed.

Lemma mimeTypeOr_nonempty d dflt :
  String.eqb dflt EmptyString = false ->
  String.eqb (Msg.mimeTypeOr d dflt) EmptyString = false.
Proof.
  intros D. unfold Msg.mimeTypeOr.
  destruct (Msg.truthy (Msg.mimeType d)) as [t|] eqn:T; [|exact D].
  now apply truthy_nonempty in T.
Qed.

Lemma server_emitParts_nonempty atob socket ps :
  List.filter emptyAudioResponse (Server.emitParts atob socket ps) = [].
Proof.
  induction ps as [|p ps IH]; cbn [Server.emitParts]; [reflexivity|].
  destruct (Msg.inlineData p) as [d|]; [|exact IH].
  destruct (Msg.truthy (Msg.data d)) as [a|] eqn:T; [|exact IH].
  destruct (atob a); [|reflexivity].
  cbn. rewrite (truthy_nonempty _ _ T), (mimeTypeOr_nonempty d "audio/pcm" eq_refl).
  exact IH.
Qed.

Lemma server_callback_nonempty atob v c :
  List.filter emptyAudioResponse (snd (Server.callback atob v c)) = [].
Proof.
  destruct c as [|m| |]; cbn; auto.
  unfold Server.onmessage.
  destruct (Msg.dispatch m) as [ps| | |];
    destruct (Server.isAIResponding v); cbn; auto;
    apply server_emitParts_nonempty.
Qed.

Lemma server_step_nonempty atob w e :
  List.filter emptyAudioResponse (snd (Server.step atob w e)) = [].
Proof.
  destruct e as [sid docs|sid ty|sock sid|h|h msg|h c|sock d thr|sock st ct|sock ct];
    cbn [Server.step]; try reflexivity.
  - unfold Server.startVoiceSession.
    destruct (Server.agentSessions w !! sid); reflexivity.
  - unfold Server.connectResolved.
    destruct (Server.closures w !! h) as [v|]; [|reflexivity].
    destruct (Server.awaited v); reflexivity.
  - unfold Server.connectRejected.
    destruct (Server.closures w !! h) as [v|]; [|reflexivity].
    destruct (Server.awaited v); reflexivity.
  - change (Server.upstream atob w h c)
      with (Server.step atob w (Server.Upstream h c)).
    rewrite (server_upstream_effects atob w h c).
    destruct (Server.closures w !! h) as [v|]; [|reflexivity].
    apply server_callback_nonempty.
  - unfold Server.onAudioData.
    destruct (Server.voiceSessionOf w sock) as [[h v]|]; [|reflexivity].
    destruct (Server.isConnected v && negb (Server.isAIResponding v)), thr;
      reflexivity.
  - unfold Server.onStopVoiceSession.
    destruct (Server.voiceSessionOf w sock) as [[h v]|]; [|reflexivity].
    destruct (Server.isConnected v), st, ct; reflexivity.
  - unfold Server.onDisconnect.
    destruct (Server.voiceSessionOf w sock) as [[h v]|]; [|reflexivity].
    destruct (Server.isConnected v), ct; reflexivity.
Qed.

Lemma server_emitParts_accepted atob socket ps :
  accepts atob (Server.emitted (Server.emitParts atob socket ps)).
Proof.
  unfold accepts.
  induction ps as [|p ps IH]; cbn [Server.emitParts]; [constructor|].
  destruct (Msg.inlineData p) as [d|]; [|exact IH].
  destruct (Msg.truthy (Msg.data d)) as [a|]; [|exact IH].
  destruct (atob a) as [b|] eqn:A; [|constructor].
  cbn. constructor; [|exact IH]. rewrite A. now exists b.
Qed.

Lemma server_callback_accepted atob v c :
  accepts atob (Server.emitted (snd (Server.callback atob v c))).
Proof.
  destruct c as [|m| |]; cbn; try constructor.
  unfold Server.onmessage.
  destruct (Msg.dispatch m) as [ps| | |];
    destruct (Server.isAIResponding v); cbn; try constructor;
    apply server_emitParts_accepted.
Qed.

Lemma server_step_accepted atob w e :
  accepts atob (Server.emitted (snd (Server.step atob w e))).
Proof.
  destruct e as [sid docs|sid ty|sock sid|h|h msg|h c|sock d thr|sock st ct|sock ct];
    cbn [Server.step]; try (cbn; constructor).
  - unfold Server.startVoiceSession.
    destruct (Server.agentSessions w !! sid); cbn; constructor.
  - unfold Server.connectResolved.
    destruct (Server.closures w !! h) as [v|]; [|cbn; constructor].
    destruct (Server.awaited v); cbn; constructor.
  - unfold Server.connectRejected.
    destruct (Server.closures w !! h) as [v|]; [|cbn; constructor].
    destruct (Server.awaited v); cbn; constructor.
  - change (Server.upstream atob w h c)
      with (Server.step atob w (Server.Upstream h c)).
    rewrite (server_upstream_effects atob w h c).
    destruct (Server.closures w !! h) as [v|]; [|cbn; constructor].
    apply server_callback_accepted.
  - unfold Server.onAudioData.
    destruct (Server.voiceSessionOf w sock) as [[h v]|]; [|cbn; constructor].
    destruct (Server.isConnected v && negb (Server.isAIResponding v)), thr;
      cbn; constructor.
  - unfold Server.onStopVoiceSession.
    destruct (Server.voiceSessionOf w sock) as [[h v]|]; [|cbn; constructor].
    destruct (Server.isConnected v), st, ct; cbn; constructor.
  - unfold Server.onDisconnect.
    destruct (Server.voiceSessionOf w sock) as [[h v]|]; [|cbn; constructor].
    destruct (Server.isConnected v), ct; cbn; constructor.
Qed.

(** X13.  What the server sends on as audio has been checked.  Whatever
    the server does, every ['audio-response'] it emits carries an
    [audioData] text that is not empty and that [atob] has taken without
    raising (the handler decodes it for its console line before the
    emit), and a [mimeType] that is not empty (the part's own, or
    "audio/pcm").  Parts without data are passed over.  This is about the
    base64 text that is sent on, not about the number of bytes it decodes
    to. *)
Theorem audio_responses_checked_before_emit :
  forall atob es w,
    List.filter emptyAudioResponse (snd (Server.run atob w es)) = [] /\
    accepts atob (Server.emitted (snd (Server.run atob w es))).
Proof.
  intros atob es. induction es as [|e es IH]; intros w.
  - split; [reflexivity | constructor].
  - cbn [Server.run].
    pose proof (server_step_nonempty atob w e) as Hn.
    pose proof (server_step_accepted atob w e) as Ha.
    destruct (Server.step atob w e) as [w1 o1].
    destruct (IH w1) as [IHn IHa].
    destruct (Server.run atob w1 es) as [w2 o2]. cbn [snd] in *.
    split.
    + now rewrite List.filter_app, Hn, IHn.
    + rewrite emitted_app. apply Forall_app. split; assumption.
Qed.

(** ** Starting a voice session *)

(** X14.  A voice session is started from what the session routes have
    stored.  For an id nothing was posted for, ['start-voice-session']
    answers with the ['error'] event "Session not found" and does nothing
    else.  After the documents and the agent type have been posted for
    the id, it issues one connect whose system instruction is
    [generateSystemInstruction] of that agent type and those documents,
    and registers nothing before the connect resolves. *)
Theorem start_uses_what_was_posted :
  (forall atob w socket sid,
      Server.agentSessions w !! sid = None ->
      Server.step atob w (Server.StartVoiceSession socket sid)
      = (w, [Server.SocketEmit socket (Server.EvError "Session not found")])) /\
  (forall atob w socket sid ty docs,
      let stored := {| Prompt.agentType := ty; Prompt.documents := docs |} in
      let w' := fst (Http.postAgentType (fst (Http.postDocuments w sid docs))
                       sid ty) in
      let r := Server.step atob w' (Server.StartVoiceSession socket sid) in
      snd r =
        [Server.ConsoleLog
           (Server.LogInstructionGenerated ty (length docs)
              (String.length (Prompt.generateSystemInstruction stored)));
         Server.LiveConnect (length (Server.closures w))
           (Prompt.generateSystemInstruction stored)] /\
      Server.activeVoiceSessions (fst r) = Server.activeVoiceSessions w /\
      Server.closures (fst r)
      = Server.closures w ++ [Server.newVoiceSession socket]).
Proof.
  split.
  - intros atob w socket sid N. cbn [Server.step].
    unfold Server.startVoiceSession. now rewrite N.
  - intros atob w socket sid ty docs stored w' r. subst r w'.
    cbn [Http.postAgentType Http.postDocuments fst Server.step].
    unfold Server.startVoiceSession.
    rewrite agentSessions_postAgentType, lookup_insert_eq,
      sessionOrNew_postDocuments.
    cbn. auto.
Qed.

Lemma start_uses_what_was_posted_witness :
  Server.agentSessions Server.emptyWorld !! "s1" = None /\
  Server.step Server.atobLenient Server.emptyWorld
    (Server.StartVoiceSession "client-1" "s1")
  = (Server.emptyWorld,
     [Server.SocketEmit "client-1" (Server.EvError "Session not found")]).
Proof.
  exact (conj eq_refl
           (proj1 start_uses_what_was_posted Server.atobLenient
              Server.emptyWorld "client-1" "s1" eq_refl)).
Defined.

(** X15.  When the connect of a start is rejected, the handler logs the
    error and emits it to the client as an ['error'] event with its
    message; no entry is made for the connection, so the audio the client
    sends afterwards is dropped as for an unknown session. *)
Theorem rejected_connect_registers_nothing :
  forall atob w socket sid sessionData message data thr,
    Server.agentSessions w !! sid = Some sessionData ->
    Server.activeVoiceSessions w !! socket = None ->
    let h := length (Server.closures w) in
    let r := Server.run atob w
               [Server.StartVoiceSession socket sid;
                Server.ConnectRejected h message;
                Server.AudioData socket data thr] in
    snd r =
      [Server.ConsoleLog
         (Server.LogInstructionGenerated (Prompt.agentType sessionData)
            (length (Prompt.documents sessionData))
            (String.length (Prompt.generateSystemInstruction sessionData)));
       Server.LiveConnect h (Prompt.generateSystemInstruction sessionData);
       Server.ConsoleError (Server.ErrStarting message);
       Server.SocketEmit socket (Server.EvError message);
       Server.ConsoleLog
         (Server.LogReceivedAudio (bool_decide (data <> EmptyString))
            (String.length data));
       Server.ConsoleLog (Server.LogNotReady false None None)] /\
    Server.activeVoiceSessions (fst r) = Server.activeVoiceSessions w.
Proof.
  intros atob w socket sid sessionData message data thr S N h r. subst r.
  assert (L1 : (Server.closures w ++ [Server.newVoiceSession socket]) !! h
               = Some (Server.newVoiceSession socket)).
  { unfold h. rewrite lookup_app_r by lia. now rewrite Nat.sub_diag. }
  cbn [Server.run Server.step]. unfold Server.startVoiceSession. rewrite S.
  unfold Server.createVoiceSession, Server.connectRejected.
  cbn [Server.withClosures Server.closures Server.activeVoiceSessions
       Server.agentSessions].
  fold h. rewrite L1.
  cbn [Server.awaited Server.newVoiceSession Server.socketId].
  unfold Server.onAudioData, Server.voiceSessionOf.
  cbn [Server.withClosures Server.closures Server.activeVoiceSessions].
  rewrite N. cbn. auto.
Qed.

Lemma rejected_connect_registers_nothing_witness :
  Server.agentSessions connectedWorld !! "s1" = Some dentalContext /\
  Server.activeVoiceSessions connectedWorld !! "client-2" = None /\
  List.filter Server.isSend
    (snd (Server.run Server.atobLenient connectedWorld
            [Server.StartVoiceSession "client-2" "s1";
             Server.ConnectRejected (length (Server.closures connectedWorld))
               "quota exceeded";
             Server.AudioData "client-2" "UENN" false])) = [].
Proof.
  assert (S : Server.agentSessions connectedWorld !! "s1" = Some dentalContext)
    by (vm_compute; reflexivity).
  assert (N : Server.activeVoiceSessions connectedWorld !! "client-2" = None)
    by (vm_compute; reflexivity).
  refine (conj S (conj N _)).
  rewrite (proj1 (rejected_connect_registers_nothing Server.atobLenient
                    connectedWorld "client-2" "s1" dentalContext
                    "quota exceeded" "UENN" false S N)).
  reflexivity.
Defined.

(** ** The command line relay from start to end *)

Lemma cli_unconnected_step s e :
  Cli.isConnected s = false -> cliIsOpen e = false ->
  Cli.isConnected (fst (Cli.step s e)) = false /\
  List.filter cliCallsUpstream (snd (Cli.step s e)) = [] /\
  List.filter cliIsMicStart (snd (Cli.step s e)) = [].
Proof.
  intros C O. unfold Cli.step. destruct (Cli.exited s); [auto|].
  destruct e as [| |m|err env|reason|chunk thr]; try discriminate; cbn; auto.
  - unfold Cli.onmessage.
    assert (W : forall ps,
               List.filter cliCallsUpstream (Cli.writeParts ps) = [] /\
               List.filter cliIsMicStart (Cli.writeParts ps) = []).
    { intros ps. unfold Cli.writeParts.
      induction (omap Msg.partData ps) as [|d l IH]; [auto | exact IH]. }
    destruct (Msg.dispatch m) as [ps| | |];
      destruct (Cli.isAIResponding s); cbn; auto;
      destruct (W ps) as [-> ->]; auto.
  - unfold Cli.onerror, Cli.cleanupAndExit. rewrite C.
    destruct env as [[] [] [] []], (Cli.sessionBound s); cbn; auto.
  - destruct (Cli.sessionBound s); [|auto].
    unfold Cli.onMicData. rewrite C. cbn. auto.
Qed.

(** X16.  In the command line relay nothing reaches the upstream session
    while it is not connected.  From the start, or after a close, and
    until the open callback runs: no microphone chunk is sent, the session
    is not closed (not even by the clean-up of an error), and the
    microphone is not started. *)
Theorem cli_quiet_until_open :
  forall es s,
    Cli.isConnected s = false ->
    Forall (fun e => cliIsOpen e = false) es ->
    List.filter cliCallsUpstream (snd (Cli.run s es)) = [] /\
    List.filter cliIsMicStart (snd (Cli.run s es)) = [].
Proof.
  induction es as [|e es IH]; intros s C F; [auto|].
  inversion F as [|? ? O F']; subst. cbn [Cli.run].
  destruct (cli_unconnected_step s e C O) as (C1 & U & M).
  destruct (Cli.step s e) as [s1 o1]. cbn [fst snd] in *.
  destruct (IH s1 C1 F') as [U' M'].
  destruct (Cli.run s1 es) as [s2 o2]. cbn [snd] in *.
  now rewrite !List.filter_app, U, M, U', M'.
Qed.

Lemma cli_quiet_until_open_witness :
  Cli.isConnected Cli.initial = false /\
  Forall (fun e => cliIsOpen e = false)
    [Cli.ConnectResolved; Cli.MicData "UENN" false;
     Cli.OnError "refused" Cli.quietEnv] /\
  List.filter cliCallsUpstream
    (snd (Cli.run Cli.initial
            [Cli.ConnectResolved; Cli.MicData "UENN" false;
             Cli.OnError "refused" Cli.quietEnv])) = [].
Proof.
  assert (F : Forall (fun e => cliIsOpen e = false)
                [Cli.ConnectResolved; Cli.MicData "UENN" false;
                 Cli.OnError "refused" Cli.quietEnv])
    by (repeat constructor).
  exact (conj eq_refl (conj F
           (proj1 (cli_quiet_until_open _ Cli.initial eq_refl F)))).
Defined.

Lemma shutdown_run_exited es : forall s,
  Cli.exited s = true -> Shutdown.run s es = (s, []).
Proof.
  induction es as [|e es IH]; intros s X; [reflexivity|].
  cbn [Shutdown.run].
  assert (S : Shutdown.step s e = (s, [])).
  { destruct e as [e'|st env]; cbn [Shutdown.step].
    - now apply cli_step_exited.
    - now rewrite X. }
  rewrite S. now rewrite (IH s X).
Qed.

Lemma cli_cleanup_counts env s :
  Cli.sessionBound s = true -> Cli.isConnected s = true ->
  length (List.filter cliIsClose (snd (Cli.cleanupAndExit env s))) = 1 /\
  length (List.filter cliIsMicStop (snd (Cli.cleanupAndExit env s))) = 1 /\
  length (List.filter cliIsExit (snd (Cli.cleanupAndExit env s))) = 1 /\
  List.filter Cli.isSend (snd (Cli.cleanupAndExit env s)) = [] /\
  last (snd (Cli.cleanupAndExit env s)) = Some (Cli.ProcessExit 0) /\
  fst (Cli.cleanupAndExit env s) = Cli.setExited (Cli.setConnected false s).
Proof.
  intros B C. unfold Cli.cleanupAndExit. rewrite B, C.
  destruct env as [[] [] [] []]; cbn; auto 10.
Qed.

(** X17.  The interrupt handler shuts the relay down once.  With the
    session connected and idle, two microphone chunks followed by an
    interrupt give, in this order: the two chunks sent, one end-of-stream
    signal, then the clean-up with the microphone stopped once, the
    session closed once and [process.exit(0)] as the last effect,
    whatever the devices do; what arrives afterwards is not handled.
    When the end-of-stream send throws, the clean-up is never reached:
    the microphone is not stopped, the speaker is not ended and the
    session is not closed and is left connected; the rejection of the
    handler is handled nowhere, so the process ends with exit code 1
    instead of 0, and what arrives afterwards is not handled either.
    With the session not connected the handler sends nothing upstream and
    goes straight to the clean-up, which ends in [process.exit(0)]. *)
Theorem interrupt_shuts_down_once :
  (forall s env c1 c2 later,
      Cli.exited s = false -> Cli.sessionBound s = true ->
      Cli.isConnected s = true -> Cli.isAIResponding s = false ->
      let r := Shutdown.run s
                 (Shutdown.Relay (Cli.MicData c1 false)
                  :: Shutdown.Relay (Cli.MicData c2 false)
                  :: Shutdown.Sigint false env :: later) in
      Cli.exited (fst r) = true /\
      List.filter Cli.isSend (snd r)
      = [Cli.SendRealtimeInput (Audio c1 micMimeType);
         Cli.SendRealtimeInput (Audio c2 micMimeType);
         Cli.SendRealtimeInput AudioStreamEnd] /\
      length (List.filter cliIsClose (snd r)) = 1 /\
      length (List.filter cliIsMicStop (snd r)) = 1 /\
      length (List.filter cliIsExit (snd r)) = 1 /\
      last (snd r) = Some (Cli.ProcessExit 0)) /\
  (forall s env later,
      Cli.exited s = false -> Cli.sessionBound s = true ->
      Cli.isConnected s = true ->
      Shutdown.run s (Shutdown.Sigint true env :: later)
      = (Cli.setExited s,
         [Cli.SendRealtimeInput AudioStreamEnd; Cli.Throws "rejected";
          Cli.ProcessExit 1])) /\
  (forall s env later,
      Cli.exited s = false -> Cli.sessionBound s = true ->
      Cli.isConnected s = false ->
      let r := Shutdown.run s (Shutdown.Sigint false env :: later) in
      Cli.exited (fst r) = true /\
      List.filter cliCallsUpstream (snd r) = [] /\
      length (List.filter cliIsMicStop (snd r)) = 1 /\
      last (snd r) = Some (Cli.ProcessExit 0)).
Proof.
  split; [|split].
  - intros s env c1 c2 later X B C I r. subst r.
    cbn [Shutdown.run Shutdown.step]. unfold Cli.step, Cli.onMicData.
    rewrite X, B, C, I. cbn [andb negb]. rewrite X, B, C, I.
    cbn [andb negb]. rewrite X, B. unfold Shutdown.onSigint. rewrite C.
    destruct (cli_cleanup_counts env s B C) as (Kc & Km & Ke & Ks & Kl & Kf).
    destruct (Cli.cleanupAndExit env s) as [s' out]. cbn [fst snd] in *.
    subst s'. rewrite shutdown_run_exited by reflexivity.
    cbn [fst snd app]. rewrite app_nil_r.
    repeat apply conj; cbn; rewrite ?Ks, ?Kc, ?Km, ?Ke; try reflexivity.
    destruct out as [|e out]; [discriminate|]. exact Kl.
  - intros s env later X B C. cbn [Shutdown.run Shutdown.step].
    rewrite X, B. unfold Shutdown.onSigint. rewrite C.
    now rewrite shutdown_run_exited by reflexivity.
  - intros s env later X B C r. subst r.
    cbn [Shutdown.run Shutdown.step]. rewrite X, B.
    unfold Shutdown.onSigint. rewrite C.
    unfold Cli.cleanupAndExit. rewrite B, C.
    rewrite shutdown_run_exited by reflexivity.
    destruct env as [[] [] [] []]; cbn; auto.
Qed.

Lemma interrupt_shuts_down_once_witness :
  Cli.exited idleCli = false /\ Cli.sessionBound idleCli = true /\
  Cli.isConnected idleCli = true /\ Cli.isAIResponding idleCli = false /\
  snd (Shutdown.run idleCli
         [Shutdown.Relay (Cli.MicData "UENN" false);
          Shutdown.Relay (Cli.MicData "UEND" false);
          Shutdown.Sigint false Cli.quietEnv;
          Shutdown.Relay (Cli.MicData "UENO" false)])
  = [Cli.SendRealtimeInput (Audio "UENN" micMimeType);
     Cli.SendRealtimeInput (Audio "UEND" micMimeType);
     Cli.SendRealtimeInput AudioStreamEnd;
     Cli.ConsoleLog Cli.LogCleaningUp; Cli.MicStop; Cli.SpeakerEnd;
     Cli.SessionClose; Cli.ProcessExit 0] /\
  Shutdown.run idleCli
    [Shutdown.Sigint true Cli.quietEnv;
     Shutdown.Relay (Cli.MicData "UENO" false)]
  = (Cli.setExited idleCli,
     [Cli.SendRealtimeInput AudioStreamEnd; Cli.Throws "rejected";
      Cli.ProcessExit 1]).
Proof.
  exact (conj eq_refl (conj eq_refl (conj eq_refl (conj eq_refl
           (conj eq_refl
              (proj1 (proj2 interrupt_shuts_down_once) idleCli Cli.quietEnv
                 [Shutdown.Relay (Cli.MicData "UENO" false)]
                 eq_refl eq_refl eq_refl)))))).
Defined.

(** X18.  An error that arrives before the connect has resolved is not
    cleaned up after: the handler logs it, stops the microphone and ends
    the speaker, and then fails on reading [session], which is not yet
    initialised.  It never calls [close] on the session, never reaches
    [process.exit], and leaves the state as it was. *)
Theorem early_error_fails_in_cleanup :
  forall s err env,
    Cli.exited s = false -> Cli.sessionBound s = false ->
    let r := Cli.step s (Cli.OnError err env) in
    fst r = s /\
    last (snd r) = Some (Cli.Throws "ReferenceError") /\
    length (List.filter cliIsMicStop (snd r)) = 1 /\
    List.filter cliCallsUpstream (snd r) = [] /\
    List.filter cliIsExit (snd r) = [].
Proof.
  intros s err env X B r. subst r. unfold Cli.step. rewrite X.
  unfold Cli.onerror, Cli.cleanupAndExit. rewrite B.
  destruct env as [[] [] [] []]; cbn; auto.
Qed.

Lemma early_error_fails_in_cleanup_witness :
  Cli.exited Cli.initial = false /\ Cli.sessionBound Cli.initial = false /\
  snd (Cli.step Cli.initial (Cli.OnError "refused" Cli.quietEnv))
  = [Cli.ConsoleError (Cli.ErrSession "refused");
     Cli.ConsoleLog Cli.LogCleaningUp; Cli.MicStop; Cli.SpeakerEnd;
     Cli.Throws "ReferenceError"] /\
  List.filter cliIsExit
    (snd (Cli.step Cli.initial (Cli.OnError "refused" Cli.quietEnv))) = [].
Proof.
  exact (conj eq_refl (conj eq_refl (conj eq_refl
           (proj2 (proj2 (proj2 (proj2
              (early_error_fails_in_cleanup Cli.initial "refused"
                 Cli.quietEnv eq_refl eq_refl)))))))).
Defined.

(** ** Collecting documents *)

Lemma documentsFrom_lookup ps : forall from i,
  documentsFrom from ps !! i =
  (fun p => {| Prompt.name := Collect.nameOr (snd p) (from + i);
               Prompt.content := fst p |}) <$> ps !! i.
Proof.
  induction ps as [|[c nm] ps IH]; intros from i; [now destruct i|].
  destruct i as [|i]; cbn.
  - now rewrite Nat.add_0_r.
  - rewrite IH. now rewrite Nat.add_succ_r.
Qed.

Lemma documentsFrom_length ps : forall from,
  length (documentsFrom from ps) = length ps.
Proof.
  induction ps as [|[c nm] ps IH]; intros from; [reflexivity|].
  cbn. now rewrite IH.
Qed.

(** What [getNextDocument] leaves in [agentContext.documents]. *)
Lemma getNextDocument_documents isDone ps : forall from tail docs,
  Forall (fun p => isDone (fst p) = false) ps ->
  (Collect.getNextDocument isDone from (answersOf ps ++ tail) docs).1.1
  = (Collect.getNextDocument isDone (from + length ps) tail
       (docs ++ documentsFrom from ps)).1.1 /\
  (Collect.getNextDocument isDone from (answersOf ps ++ tail) docs).1.2
  = (Collect.getNextDocument isDone (from + length ps) tail
       (docs ++ documentsFrom from ps)).1.2.
Proof.
  induction ps as [|[c nm] ps IH]; intros from tail docs F.
  - cbn. now rewrite Nat.add_0_r, app_nil_r.
  - inversion F as [|? ? Fc F']; subst. cbn in Fc.
    cbn [answersOf flat_map app fst snd Collect.getNextDocument length
         documentsFrom].
    rewrite Fc.
    specialize (IH (S from) tail
                  (docs ++ [{| Prompt.name := Collect.nameOr nm from;
                               Prompt.content := c |}]) F').
    fold (answersOf ps).
    destruct (Collect.getNextDocument isDone (S from) (answersOf ps ++ tail) _)
      as [[d1 r1] o1].
    cbn [fst snd] in *. rewrite <- app_assoc in IH. cbn [app] in IH.
    now rewrite Nat.add_succ_r.
Qed.

(** X19.  [collectDocuments] turns the answers into documents pair by
    pair.  When the answers are a content and a name for each of some
    documents, none of the contents being the word that ends the
    collection, then: the document at position i has the i-th content as
    its content and the i-th name as its name, or "Document i+1" when the
    name was left empty; if the next answer ends the collection the
    promise is resolved with exactly these documents and whatever is
    typed later is not read; and if the answers end there, or after one
    more content, the same documents are stored and the promise is still
    pending. *)
Theorem collected_documents_by_position :
  forall isDone ps,
    Forall (fun p => isDone (fst p) = false) ps ->
    (forall done later,
        isDone done = true ->
        fst (Collect.collectDocuments isDone (answersOf ps ++ done :: later) [])
        = (documentsFrom 1 ps, true)) /\
    fst (Collect.collectDocuments isDone (answersOf ps) [])
    = (documentsFrom 1 ps, false) /\
    (forall content,
        isDone content = false ->
        fst (Collect.collectDocuments isDone (answersOf ps ++ [content]) [])
        = (documentsFrom 1 ps, false)) /\
    length (documentsFrom 1 ps) = length ps /\
    (forall i content name,
        ps !! i = Some (content, name) ->
        documentsFrom 1 ps !! i
        = Some {| Prompt.name :=
                    match name with
                    | EmptyString => "Document " +:+ nat_to_string (S i)
                    | _ => name
                    end;
                  Prompt.content := content |}).
Proof.
  intros isDone ps F.
  assert (G : forall tail,
             fst (Collect.collectDocuments isDone (answersOf ps ++ tail) [])
             = fst (Collect.getNextDocument isDone (1 + length ps) tail
                      (documentsFrom 1 ps))).
  { intros tail. unfold Collect.collectDocuments.
    destruct (getNextDocument_documents isDone ps 1 tail [] F) as [E1 E2].
    destruct (Collect.getNextDocument isDone 1 (answersOf ps ++ tail) [])
      as [[d r] o].
    cbn [fst snd app] in *.
    destruct (Collect.getNextDocument isDone (1 + length ps) tail _)
      as [[d' r'] o'].
    cbn [fst snd] in *. congruence. }
  repeat apply conj.
  - intros done later D. rewrite G. cbn [Collect.getNextDocument].
    now rewrite D.
  - rewrite <- (app_nil_r (answersOf ps)), G. reflexivity.
  - intros content D. rewrite G. cbn [Collect.getNextDocument].
    now rewrite D.
  - apply documentsFrom_length.
  - intros i content name L. rewrite documentsFrom_lookup, L. reflexivity.
Qed.

Lemma collected_documents_by_position_witness :
  Forall (fun p => isDoneExactly (fst p) = false)
    [("Mon-Fri 9 to 5", "Office hours"); ("Cleaning: 80", EmptyString)] /\
  isDoneExactly "DONE" = true /\
  fst (Collect.collectDocuments isDoneExactly
         ["Mon-Fri 9 to 5"; "Office hours"; "Cleaning: 80"; EmptyString;
          "DONE"; "never read"] [])
  = ([ {| Prompt.name := "Office hours"; Prompt.content := "Mon-Fri 9 to 5" |};
       {| Prompt.name := "Document 2"; Prompt.content := "Cleaning: 80" |} ],
     true).
Proof.
  assert (F : Forall (fun p => isDoneExactly (fst p) = false)
                [("Mon-Fri 9 to 5", "Office hours");
                 ("Cleaning: 80", EmptyString)])
    by (repeat constructor).
  exact (conj F (conj eq_refl
           (proj1 (collected_documents_by_position isDoneExactly _ F)
              "DONE" ["never read"] eq_refl))).
Defined.

Lemma digit_not_newline c : isDigit c = true -> isNewline c = false.
Proof.
  intros D. destruct (isNewline c) eqn:N; [|reflexivity].
  apply isNewline_true in N. subst c. discriminate.
Qed.

Lemma allDigits_noNewline s : allDigits s = true -> noNewline s = true.
Proof.
  induction s as [|c s IH]; [reflexivity|]. cbn.
  intros H. apply andb_prop in H as [Dc Ds].
  now rewrite (digit_not_newline c Dc), (IH Ds).
Qed.

Lemma nameOr_single_line name n :
  noNewline name = true ->
  noNewline (Collect.nameOr name n) = true /\
  Collect.nameOr name n <> EmptyString.
Proof.
  intros N. destruct name as [|c name]; cbn [Collect.nameOr].
  - split; [|discriminate].
    rewrite noNewline_app. cbn [andb].
    change (noNewline "Document ") with true. cbn [andb].
    apply allDigits_noNewline, nat_to_string_digits.
  - split; [exact N | discriminate].
Qed.

Lemma getNextDocument_single_lines isDone : forall answers,
  (forall n docs,
      Forall (fun a => noNewline a = true) answers ->
      singleLines docs ->
      Forall (fun d => Prompt.name d <> EmptyString) docs ->
      singleLines (fst (fst (Collect.getNextDocument isDone n answers docs))) /\
      Forall (fun d => Prompt.name d <> EmptyString)
        (fst (fst (Collect.getNextDocument isDone n answers docs)))) /\
  (forall a n docs,
      Forall (fun a => noNewline a = true) (a :: answers) ->
      singleLines docs ->
      Forall (fun d => Prompt.name d <> EmptyString) docs ->
      singleLines
        (fst (fst (Collect.getNextDocument isDone n (a :: answers) docs))) /\
      Forall (fun d => Prompt.name d <> EmptyString)
        (fst (fst (Collect.getNextDocument isDone n (a :: answers) docs)))).
Proof.
  induction answers as [|b answers [IH0 IH1]].
  - split.
    + intros n docs _ Hs Hn. now split.
    + intros a n docs _ Hs Hn. cbn. destruct (isDone a); now split.
  - split; [exact (IH1 b)|].
    intros a n docs F Hs Hn.
    inversion F as [|? ? Fa F']; subst.
    inversion F' as [|? ? Fb F'']; subst.
    cbn [Collect.getNextDocument].
    destruct (isDone a); [now split|].
    destruct (nameOr_single_line b n Fb) as [N1 N2].
    specialize (IH0 (S n)
                  (docs ++ [{| Prompt.name := Collect.nameOr b n;
                               Prompt.content := a |}]) F'').
    destruct (Collect.getNextDocument isDone (S n) answers _) as [[d r] o].
    cbn [fst] in *. apply IH0.
    + apply Forall_app. split; [exact Hs|]. repeat constructor; assumption.
    + apply Forall_app. split; [exact Hn|]. repeat constructor; assumption.
Qed.

Lemma collectDocuments_single_lines isDone answers :
  Forall (fun a => noNewline a = true) answers ->
  singleLines (fst (fst (Collect.collectDocuments isDone answers []))) /\
  Forall (fun d => Prompt.name d <> EmptyString)
    (fst (fst (Collect.collectDocuments isDone answers []))).
Proof.
  intros F. unfold Collect.collectDocuments.
  pose proof (proj1 (getNextDocument_single_lines isDone answers) 1 [] F
                (List.Forall_nil _) (List.Forall_nil _)) as H.
  destruct (Collect.getNextDocument isDone 1 answers []) as [[d r] o].
  exact H.
Qed.

(** X20.  Documents collected from single-line answers, which is what the
    terminal delivers, have a name that is never empty and names and
    contents without line breaks, whatever the answers are and wherever
    they stop.  So the instruction final.js builds from them tells them
    apart: two collections made for the same agent type build the same
    instruction only if they hold the same documents. *)
Theorem collected_documents_are_told_apart :
  forall isDone agentType answers1 answers2,
    Forall (fun a => noNewline a = true) answers1 ->
    Forall (fun a => noNewline a = true) answers2 ->
    let docs1 := fst (fst (Collect.collectDocuments isDone answers1 [])) in
    let docs2 := fst (fst (Collect.collectDocuments isDone answers2 [])) in
    singleLines docs1 /\
    Forall (fun d => Prompt.name d <> EmptyString) docs1 /\
    (Prompt.contextInstruction
       {| Prompt.agentType := agentType; Prompt.documents := docs1 |}
     = Prompt.contextInstruction
         {| Prompt.agentType := agentType; Prompt.documents := docs2 |} ->
     docs1 = docs2).
Proof.
  intros isDone agentType answers1 answers2 F1 F2 docs1 docs2.
  destruct (collectDocuments_single_lines isDone answers1 F1) as [Hs1 Hn1].
  destruct (collectDocuments_single_lines isDone answers2 F2) as [Hs2 _].
  repeat apply conj; [exact Hs1 | exact Hn1 |].
  intros E.
  exact (same_context_instruction_same_documents
           {| Prompt.agentType := agentType; Prompt.documents := docs1 |}
           {| Prompt.agentType := agentType; Prompt.documents := docs2 |}
           eq_refl Hs1 Hs2 E).
Qed.

Lemma collected_documents_are_told_apart_witness :
  Forall (fun a => noNewline a = true)
    ["Mon-Fri 9 to 5"; "Office hours"; "Cleaning: 80"; EmptyString; "DONE"] /\
  Forall (fun a => noNewline a = true) ["Cleaning: 80"; "Prices"] /\
  singleLines
    (fst (fst (Collect.collectDocuments isDoneExactly
                 ["Mon-Fri 9 to 5"; "Office hours"; "Cleaning: 80";
                  EmptyString; "DONE"] []))).
Proof.
  assert (F1 : Forall (fun a => noNewline a = true)
                 ["Mon-Fri 9 to 5"; "Office hours"; "Cleaning: 80";
                  EmptyString; "DONE"])
    by (repeat constructor).
  assert (F2 : Forall (fun a => noNewline a = true)
                 ["Cleaning: 80"; "Prices"])
    by (repeat constructor).
  exact (conj F1 (conj F2
           (proj1 (collected_documents_are_told_apart isDoneExactly
                     "dental" _ _ F1 F2)))).
Defined.
